(** * FollowJointTrajectoryController (ubr_controllers)

    A shallow embedding of
    [src/ubr_controllers/src/follow_joint_trajectory.cpp]: the controller's
    members are the fields of a record [State], every member function is a
    function from [State] to [State] (with its return value), and the calls
    the controller makes on its collaborators (the action server, the
    controller manager, the joint handles) are written to logs kept in the
    state.

    Numbers: a C++ [double] is a rational ([Q]), so NaN and the infinities
    are outside the model.  Comparisons and [fabs] are exact on doubles and
    are those of the rationals.  The sum that sets the time limit of the goal
    check is the sum of doubles, rounded as binary64 rounds ([double_plus]),
    and the literal [0.6] in it is the double the compiler reads
    ([double_0_6]); the other arithmetic is taken exact.
    Sizes and indices ([size_t]) are [nat].  A [std::vector] is a [list];
    [v[i]] is [v !!! i] and [v[i] = x] is [<[i:=x]> v] (out of range the
    source is undefined; here a read gives [0] and a write does nothing). *)

From Stdlib Require Import QArith Qabs Qround.
From stdpp Require Import base list strings.

Local Open Scope Q_scope.
Local Open Scope nat_scope.

#[global] Instance Q_inhabited : Inhabited Q := populate 0%Q.

(** ** Comparisons of doubles *)

(** [a > b] on doubles. *)
Definition Qgtb (a b : Q) : bool := negb (Qle_bool a b).
(** [a >= b] on doubles. *)
Definition Qgeb (a b : Q) : bool := Qle_bool b a.

(** ** Sums of doubles

    IEEE 754 binary64, round to nearest, ties to even: a significand of 53
    bits, and the unit in the last place never below [2 ^ -1074] (the
    subnormal numbers).  A sum beyond the largest double is an infinity in
    C++ and is outside the model. *)

(** The nearest integer, ties to the even one. *)
Definition round_half_even (x : Q) : Z :=
  let f := Qfloor x in
  match Qcompare (x - inject_Z f) (1 # 2) with
  | Lt => f
  | Gt => (f + 1)%Z
  | Eq => if Z.even f then f else (f + 1)%Z
  end.

(** [floor (log2 |x|)] for [x] other than zero. *)
Definition floor_log2 (x : Q) : Z :=
  let l := (Z.log2 (Z.abs (Qnum x)) - Z.log2 (Zpos (Qden x)))%Z in
  if Qle_bool (2 ^ l) (Qabs x) then l else (l - 1)%Z.

(** The double nearest to [x]. *)
Definition round_double (x : Q) : Q :=
  if Qeq_bool x 0 then 0%Q else
  let e := Z.max (floor_log2 x - 52) (-1074) in
  Qred (inject_Z (round_half_even (x / 2 ^ e)) * 2 ^ e).

(** [a + b] on doubles. *)
Definition double_plus (a b : Q) : Q := round_double (a + b).

(** The literal [0.6]. *)
Definition double_0_6 : Q := round_double (6 # 10).

(** ** Counted loops

    [for (size_t j = 0; j < n; ++j) body(j)] over a state of type [S]. *)
Definition for_loop {S : Type} (n : nat) (body : nat → S → S) (s : S) : S :=
  fold_left (λ acc j, body j acc) (seq 0 n) s.

(** [v.resize(n)] of a vector of doubles: truncates, or pads with zeros. *)
Definition resize (n : nat) (v : list Q) : list Q :=
  take n v ++ replicate (n - length v) 0%Q.

(** ** Data model *)

(** [TrajectoryPoint]: positions, velocities, accelerations and a time.  The
    tolerances [path_tolerance_] and [goal_tolerance_] are read and written
    through the same three fields [q], [qd], [qdd]. *)
Record TrajectoryPoint := mkPoint {
  q : list Q;
  qd : list Q;
  qdd : list Q;
  time : Q
}.

(** A default-constructed [TrajectoryPoint]: three empty vectors. *)
Definition empty_point : TrajectoryPoint := mkPoint [] [] [] 0%Q.

(** [Trajectory]: the vector [points]; [size()] is its length. *)
Definition Trajectory := list TrajectoryPoint.

(** [trajectory_msgs::JointTrajectoryPoint], also the type of the three
    parts [desired], [actual] and [error] of the feedback message. *)
Record JointTrajectoryPoint := mkMsgPoint {
  positions : list Q;
  velocities : list Q;
  accelerations : list Q;
  effort : list Q;
  time_from_start : Q
}.

(** [trajectory_msgs::JointTrajectory]. *)
Record JointTrajectory := mkJointTrajectory {
  header_stamp : Q;
  joint_names : list string;
  points : list JointTrajectoryPoint
}.

(** [control_msgs::JointTolerance]. *)
Record JointTolerance := mkJointTolerance {
  name : string;
  position : Q;
  velocity : Q;
  acceleration : Q
}.

(** [control_msgs::FollowJointTrajectoryGoal]. *)
Record Goal := mkGoal {
  trajectory : JointTrajectory;
  path_tolerance : list JointTolerance;
  goal_tolerance : list JointTolerance;
  goal_time_tolerance : Q
}.

(** [control_msgs::FollowJointTrajectoryFeedback]. *)
Record Feedback := mkFeedback {
  fb_stamp : Q;
  fb_joint_names : list string;
  desired : JointTrajectoryPoint;
  actual : JointTrajectoryPoint;
  error : JointTrajectoryPoint
}.

(** The error codes of [control_msgs::FollowJointTrajectoryResult] that the
    controller assigns. *)
Inductive ErrorCode :=
| SUCCESSFUL
| INVALID_JOINTS
| PATH_TOLERANCE_VIOLATED
| GOAL_TOLERANCE_VIOLATED.

(** A result message: [error_code] is [None] as long as the source leaves the
    field of the default-constructed message alone. *)
Record Result := mkResult { error_code : option ErrorCode }.

Definition default_result : Result := mkResult None.

(** A terminal call on the action server: which of [setSucceeded],
    [setAborted], [setPreempted], with the result and the text passed. *)
Inductive Outcome :=
| Succeeded (r : Result) (text : string)
| Aborted (r : Result) (text : string)
| Preempted (r : Result) (text : string).

(** ** The action server

    Modelled from the spec: the action server ([actionlib]'s
    [SimpleActionServer]) is a collaborator outside the repository.  The spec
    (section 5) fixes what the controller relies on: the result channel is
    synchronised by the server, [setSucceeded]/[setAborted] may be called
    more than once, and the first wins.  [calls] logs every terminal call the
    controller makes, [outcomes] the ones the server reports to the client,
    [published] the feedback messages sent. *)
Record Server := mkServer {
  active : bool;
  preempt_requested : bool;
  calls : list Outcome;
  outcomes : list Outcome;
  published : list Feedback
}.

(** A server as [init] creates and starts it: no goal yet. *)
Definition new_server : Server := mkServer false false [] [] [].

Definition isActive (s : Server) : bool := active s.
Definition isPreemptRequested (s : Server) : bool := preempt_requested s.

(** A terminal call: it is logged; it reaches the client only if the goal is
    still active, and the goal is no longer active afterwards. *)
Definition set_terminal (o : Outcome) (s : Server) : Server :=
  mkServer false (preempt_requested s)
           (calls s ++ [o])
           (if active s then outcomes s ++ [o] else outcomes s)
           (published s).

Definition setSucceeded (r : Result) (text : string) : Server → Server :=
  set_terminal (Succeeded r text).
Definition setAborted (r : Result) (text : string) : Server → Server :=
  set_terminal (Aborted r text).
Definition setPreempted (r : Result) (text : string) : Server → Server :=
  set_terminal (Preempted r text).

Definition publishFeedback (f : Feedback) (s : Server) : Server :=
  mkServer (active s) (preempt_requested s) (calls s) (outcomes s)
           (published s ++ [f]).

(** The server accepts a goal and makes it the active one, before it calls
    [executeCb]. *)
Definition accept_goal (s : Server) : Server :=
  mkServer true false (calls s) (outcomes s) (published s).

(** The client asks for cancellation of the active goal. *)
Definition request_preempt (s : Server) : Server :=
  mkServer (active s) true (calls s) (outcomes s) (published s).

(** ** Joint handles

    Modelled from the spec: [JointHandle] (ubr_controllers/joint_handle.h is
    not among the sources) is the capability of section 4.1: read position, velocity and
    effort, write a (position, velocity, effort) command, return the name.
    [commands] logs the commands written, oldest first. *)
Record JointHandle := mkJoint {
  getName : string;
  getPosition : Q;
  getVelocity : Q;
  getEffort : Q;
  commands : list (Q * Q * Q)
}.

Definition setPositionCommand (p v e : Q) (j : JointHandle) : JointHandle :=
  mkJoint (getName j) (getPosition j) (getVelocity j) (getEffort j)
          (commands j ++ [(p, v, e)]).

(** [joints_[j]->setPositionCommand(p, v, e)]. *)
Definition command_joint (j : nat) (p v e : Q) (js : list JointHandle)
  : list JointHandle :=
  alter (setPositionCommand p v e) j js.

(** The hardware layer refreshes the readings of a handle between ticks. *)
Definition set_reading (r : Q * Q * Q) (j : JointHandle) : JointHandle :=
  mkJoint (getName j) r.1.1 r.1.2 r.2 (commands j).

(** ** The controller manager *)

(** The manager as [init] receives it: it hands out joint handles.  The
    source dereferences the pointer that [getJointHandle] returns without a
    test, so [init] has a result only with a manager that has a handle for
    every name it is asked for; such a manager is the one modelled, and
    nothing is stated about [init] with another. *)
Record ControllerManager := mkManager {
  getJointHandle : string → JointHandle
}.

(** Requests the controller sends to its manager. *)
Inductive ManagerCall :=
| RequestStart (controller : string)
| RequestStop (controller : string).

(** ** Parameters of the node handle *)

(** An element of an XmlRpc array: a string, or a value of another type. *)
Inductive XmlRpcElem :=
| XmlString (s : string)
| XmlOtherElem.

(** An XmlRpc value, as far as [init] inspects it: an array or not. *)
Inductive XmlRpcValue :=
| XmlArray (elems : list XmlRpcElem)
| XmlNotArray.

Record NodeHandle := mkNodeHandle {
  getNamespace : string;
  param_joints : option XmlRpcValue;
  param_stop_with_action : option bool
}.

(** ** Setters for the message records *)

Definition set_q (v : list Q) (p : TrajectoryPoint) : TrajectoryPoint :=
  mkPoint v (qd p) (qdd p) (time p).
Definition set_qd (v : list Q) (p : TrajectoryPoint) : TrajectoryPoint :=
  mkPoint (q p) v (qdd p) (time p).
Definition set_qdd (v : list Q) (p : TrajectoryPoint) : TrajectoryPoint :=
  mkPoint (q p) (qd p) v (time p).
Definition set_time (t : Q) (p : TrajectoryPoint) : TrajectoryPoint :=
  mkPoint (q p) (qd p) (qdd p) t.

Definition set_positions (v : list Q) (p : JointTrajectoryPoint) : JointTrajectoryPoint :=
  mkMsgPoint v (velocities p) (accelerations p) (effort p) (time_from_start p).
Definition set_velocities (v : list Q) (p : JointTrajectoryPoint) : JointTrajectoryPoint :=
  mkMsgPoint (positions p) v (accelerations p) (effort p) (time_from_start p).
Definition set_accelerations (v : list Q) (p : JointTrajectoryPoint) : JointTrajectoryPoint :=
  mkMsgPoint (positions p) (velocities p) v (effort p) (time_from_start p).
Definition set_effort (v : list Q) (p : JointTrajectoryPoint) : JointTrajectoryPoint :=
  mkMsgPoint (positions p) (velocities p) (accelerations p) v (time_from_start p).

Definition upd_desired (f : JointTrajectoryPoint → JointTrajectoryPoint) (fb : Feedback) : Feedback :=
  mkFeedback (fb_stamp fb) (fb_joint_names fb) (f (desired fb)) (actual fb) (error fb).
Definition upd_actual (f : JointTrajectoryPoint → JointTrajectoryPoint) (fb : Feedback) : Feedback :=
  mkFeedback (fb_stamp fb) (fb_joint_names fb) (desired fb) (f (actual fb)) (error fb).
Definition upd_error (f : JointTrajectoryPoint → JointTrajectoryPoint) (fb : Feedback) : Feedback :=
  mkFeedback (fb_stamp fb) (fb_joint_names fb) (desired fb) (actual fb) (f (error fb)).
Definition set_fb_stamp (t : Q) (fb : Feedback) : Feedback :=
  mkFeedback t (fb_joint_names fb) (desired fb) (actual fb) (error fb).
Definition set_fb_joint_names (ns : list string) (fb : Feedback) : Feedback :=
  mkFeedback (fb_stamp fb) ns (desired fb) (actual fb) (error fb).

(** ** The controller's members *)

Record State := mkState {
  initialized_ : bool;
  manager_ : option ControllerManager;
  name_ : string;
  joint_names_ : list string;
  joints_ : list JointHandle;
  stop_with_action_ : bool;
  sampler_ : option Trajectory;
  preempted_ : bool;
  has_path_tolerance_ : bool;
  path_tolerance_ : TrajectoryPoint;
  goal_tolerance_ : TrajectoryPoint;
  goal_time_tolerance_ : Q;
  last_sample_ : TrajectoryPoint;
  feedback_ : Feedback;
  server_ : Server;
  manager_calls : list ManagerCall
}.

Definition upd_initialized_ (f : bool → bool) (st : State) : State :=
  mkState (f (initialized_ st)) (manager_ st) (name_ st) (joint_names_ st)
          (joints_ st) (stop_with_action_ st) (sampler_ st) (preempted_ st)
          (has_path_tolerance_ st) (path_tolerance_ st) (goal_tolerance_ st)
          (goal_time_tolerance_ st) (last_sample_ st) (feedback_ st)
          (server_ st) (manager_calls st).
Definition upd_manager_ (f : option ControllerManager → option ControllerManager)
    (st : State) : State :=
  mkState (initialized_ st) (f (manager_ st)) (name_ st) (joint_names_ st)
          (joints_ st) (stop_with_action_ st) (sampler_ st) (preempted_ st)
          (has_path_tolerance_ st) (path_tolerance_ st) (goal_tolerance_ st)
          (goal_time_tolerance_ st) (last_sample_ st) (feedback_ st)
          (server_ st) (manager_calls st).
Definition upd_name_ (f : string → string) (st : State) : State :=
  mkState (initialized_ st) (manager_ st) (f (name_ st)) (joint_names_ st)
          (joints_ st) (stop_with_action_ st) (sampler_ st) (preempted_ st)
          (has_path_tolerance_ st) (path_tolerance_ st) (goal_tolerance_ st)
          (goal_time_tolerance_ st) (last_sample_ st) (feedback_ st)
          (server_ st) (manager_calls st).
Definition upd_joint_names_ (f : list string → list string)
    (st : State) : State :=
  mkState (initialized_ st) (manager_ st) (name_ st) (f (joint_names_ st))
          (joints_ st) (stop_with_action_ st) (sampler_ st) (preempted_ st)
          (has_path_tolerance_ st) (path_tolerance_ st) (goal_tolerance_ st)
          (goal_time_tolerance_ st) (last_sample_ st) (feedback_ st)
          (server_ st) (manager_calls st).
Definition upd_joints_ (f : list JointHandle → list JointHandle)
    (st : State) : State :=
  mkState (initialized_ st) (manager_ st) (name_ st) (joint_names_ st)
          (f (joints_ st)) (stop_with_action_ st) (sampler_ st)
          (preempted_ st) (has_path_tolerance_ st) (path_tolerance_ st)
          (goal_tolerance_ st) (goal_time_tolerance_ st) (last_sample_ st)
          (feedback_ st) (server_ st) (manager_calls st).
Definition upd_stop_with_action_ (f : bool → bool) (st : State) : State :=
  mkState (initialized_ st) (manager_ st) (name_ st) (joint_names_ st)
          (joints_ st) (f (stop_with_action_ st)) (sampler_ st)
          (preempted_ st) (has_path_tolerance_ st) (path_tolerance_ st)
          (goal_tolerance_ st) (goal_time_tolerance_ st) (last_sample_ st)
          (feedback_ st) (server_ st) (manager_calls st).
Definition upd_sampler_ (f : option Trajectory → option Trajectory)
    (st : State) : State :=
  mkState (initialized_ st) (manager_ st) (name_ st) (joint_names_ st)
          (joints_ st) (stop_with_action_ st) (f (sampler_ st))
          (preempted_ st) (has_path_tolerance_ st) (path_tolerance_ st)
          (goal_tolerance_ st) (goal_time_tolerance_ st) (last_sample_ st)
          (feedback_ st) (server_ st) (manager_calls st).
Definition upd_preempted_ (f : bool → bool) (st : State) : State :=
  mkState (initialized_ st) (manager_ st) (name_ st) (joint_names_ st)
          (joints_ st) (stop_with_action_ st) (sampler_ st)
          (f (preempted_ st)) (has_path_tolerance_ st) (path_tolerance_ st)
          (goal_tolerance_ st) (goal_time_tolerance_ st) (last_sample_ st)
          (feedback_ st) (server_ st) (manager_calls st).
Definition upd_has_path_tolerance_ (f : bool → bool) (st : State) : State :=
  mkState (initialized_ st) (manager_ st) (name_ st) (joint_names_ st)
          (joints_ st) (stop_with_action_ st) (sampler_ st) (preempted_ st)
          (f (has_path_tolerance_ st)) (path_tolerance_ st)
          (goal_tolerance_ st) (goal_time_tolerance_ st) (last_sample_ st)
          (feedback_ st) (server_ st) (manager_calls st).
Definition upd_path_tolerance_ (f : TrajectoryPoint → TrajectoryPoint)
    (st : State) : State :=
  mkState (initialized_ st) (manager_ st) (name_ st) (joint_names_ st)
          (joints_ st) (stop_with_action_ st) (sampler_ st) (preempted_ st)
          (has_path_tolerance_ st) (f (path_tolerance_ st))
          (goal_tolerance_ st) (goal_time_tolerance_ st) (last_sample_ st)
          (feedback_ st) (server_ st) (manager_calls st).
Definition upd_goal_tolerance_ (f : TrajectoryPoint → TrajectoryPoint)
    (st : State) : State :=
  mkState (initialized_ st) (manager_ st) (name_ st) (joint_names_ st)
          (joints_ st) (stop_with_action_ st) (sampler_ st) (preempted_ st)
          (has_path_tolerance_ st) (path_tolerance_ st)
          (f (goal_tolerance_ st)) (goal_time_tolerance_ st) (last_sample_ st)
          (feedback_ st) (server_ st) (manager_calls st).
Definition upd_goal_time_tolerance_ (f : Q → Q) (st : State) : State :=
  mkState (initialized_ st) (manager_ st) (name_ st) (joint_names_ st)
          (joints_ st) (stop_with_action_ st) (sampler_ st) (preempted_ st)
          (has_path_tolerance_ st) (path_tolerance_ st) (goal_tolerance_ st)
          (f (goal_time_tolerance_ st)) (last_sample_ st) (feedback_ st)
          (server_ st) (manager_calls st).
Definition upd_last_sample_ (f : TrajectoryPoint → TrajectoryPoint)
    (st : State) : State :=
  mkState (initialized_ st) (manager_ st) (name_ st) (joint_names_ st)
          (joints_ st) (stop_with_action_ st) (sampler_ st) (preempted_ st)
          (has_path_tolerance_ st) (path_tolerance_ st) (goal_tolerance_ st)
          (goal_time_tolerance_ st) (f (last_sample_ st)) (feedback_ st)
          (server_ st) (manager_calls st).
Definition upd_feedback_ (f : Feedback → Feedback) (st : State) : State :=
  mkState (initialized_ st) (manager_ st) (name_ st) (joint_names_ st)
          (joints_ st) (stop_with_action_ st) (sampler_ st) (preempted_ st)
          (has_path_tolerance_ st) (path_tolerance_ st) (goal_tolerance_ st)
          (goal_time_tolerance_ st) (last_sample_ st) (f (feedback_ st))
          (server_ st) (manager_calls st).
Definition upd_server_ (f : Server → Server) (st : State) : State :=
  mkState (initialized_ st) (manager_ st) (name_ st) (joint_names_ st)
          (joints_ st) (stop_with_action_ st) (sampler_ st) (preempted_ st)
          (has_path_tolerance_ st) (path_tolerance_ st) (goal_tolerance_ st)
          (goal_time_tolerance_ st) (last_sample_ st) (feedback_ st)
          (f (server_ st)) (manager_calls st).
Definition upd_manager_calls (f : list ManagerCall → list ManagerCall)
    (st : State) : State :=
  mkState (initialized_ st) (manager_ st) (name_ st) (joint_names_ st)
          (joints_ st) (stop_with_action_ st) (sampler_ st) (preempted_ st)
          (has_path_tolerance_ st) (path_tolerance_ st) (goal_tolerance_ st)
          (goal_time_tolerance_ st) (last_sample_ st) (feedback_ st)
          (server_ st) (f (manager_calls st)).

#[global] Instance JointHandle_inhabited : Inhabited JointHandle :=
  populate (mkJoint "" 0%Q 0%Q 0%Q []).
#[global] Instance TrajectoryPoint_inhabited : Inhabited TrajectoryPoint :=
  populate (mkPoint [] [] [] 0%Q).
#[global] Instance JointTrajectoryPoint_inhabited : Inhabited JointTrajectoryPoint :=
  populate (mkMsgPoint [] [] [] [] 0%Q).

(** A controller object before [init]: the vectors are empty and there is no
    sampler.  The class declaration is not among the sources; the two flags
    that [init] does not assign on every path are arguments. *)
Definition constructed (initialized has_path_tolerance : bool) : State :=
  mkState initialized None "" [] [] false None false has_path_tolerance
          empty_point empty_point 0%Q empty_point
          (mkFeedback 0%Q [] (mkMsgPoint [] [] [] [] 0%Q)
                      (mkMsgPoint [] [] [] [] 0%Q) (mkMsgPoint [] [] [] [] 0%Q))
          new_server [].

(** ** The sampler

    [SplineTrajectorySampler] (its definition is not among the sources) is
    built from a trajectory and keeps it: [sampler_] is the trajectory it was
    built from, [None] for the empty pointer. *)

(** Modelled from the spec: section 4.2, [end_time()] returns
    [points.back().time]. *)
Definition end_time (t : Trajectory) : Q := time (default empty_point (last t)).

(** [getTrajectory()]: the waypoints the sampler was built from. *)
Definition getTrajectory (t : Trajectory) : Trajectory := t.

(** ** Conversion of the goal message

    Modelled from the spec: [trajectoryFromMsg] (its definition is not among
    the sources) does steps 2 and 3 of the intake algorithm of section 4.4.
    It reorders each point's arrays into the canonical joint order, fails if
    a controlled joint is not named by the message, and gives each point the
    time [accept_time + time_from_start].  An optional array is reordered
    when the message point carries it. *)
Definition reorder (mapping : list nat) (v : list Q) : list Q :=
  match v with
  | [] => []
  | _ => (λ i, v !!! i) <$> mapping
  end.

Definition trajectoryFromMsg (accept_time : Q) (message : JointTrajectory)
    (joints : list string) : option Trajectory :=
  mapping ← mapM (λ n, fst <$> list_find (λ m, m = n) (joint_names message)) joints;
  Some ((λ p, mkPoint ((λ i, positions p !!! i) <$> mapping)
                      (reorder mapping (velocities p))
                      (reorder mapping (accelerations p))
                      (accept_time + time_from_start p)%Q)
          <$> points message).

(** ** Control flow of [executeCb]

    [Returned st]: a [return] statement was reached in state [st];
    [Running st]: execution goes on with the next statement. *)
Inductive Flow :=
| Returned (st : State)
| Running (st : State).

Definition and_then (f : Flow) (k : State → Flow) : Flow :=
  match f with
  | Returned st => Returned st
  | Running st => k st
  end.

Definition flow_state (f : Flow) : State :=
  match f with Returned st | Running st => st end.

Notation "st ←← f ; k" := (and_then f (λ st, k))
  (at level 20, f at level 100, k at level 200, right associativity,
   format "st  ←←  f ;  '/' k").

(** What [executeCb] reads from its environment: the three readings of
    [ros::Time::now()] (in [trajectoryFromMsg], at the splice and in
    [getPointFromCurrent]) and the manager's answer to [requestStart]. *)
Record Env := mkEnv {
  now_convert : Q;
  now_splice : Q;
  now_current : Q;
  requestStart_reply : bool
}.

Section Controller.

(** [SplineTrajectorySampler::sample], [spliceTrajectories] and
    [angles::shortest_angular_distance] are not among the sources: the
    controller is embedded over them. *)
Variable sample : Trajectory → Q → TrajectoryPoint.
Variable spliceTrajectories : Trajectory → Trajectory → Q → option Trajectory.
Variable shortest_angular_distance : Q → Q → Q.

(** *** [init] *)

(** [Controller::init] of the base class (ubr_controllers/controller.h is not
    among the sources): it keeps the manager and names the controller. *)
Definition Controller_init (nh : NodeHandle) (manager : ControllerManager)
    (st : State) : State :=
  upd_name_ (λ _, getNamespace nh) (upd_manager_ (λ _, Some manager) st).

(** The loop over the [joints] parameter: the names read so far, and
    whether every element was a string. *)
Fixpoint read_joint_names (elems : list XmlRpcElem) (names : list string)
  : bool * list string :=
  match elems with
  | [] => (true, names)
  | XmlString s :: rest => read_joint_names rest (names ++ [s])
  | XmlOtherElem :: _ => (false, names)
  end.

(** One pass of the loop that fetches the joint handles. *)
Definition add_joint_handle (manager : ControllerManager) (i : nat)
    (st : State) : State :=
  let j := getJointHandle manager (joint_names_ st !!! i) in
  let st := upd_feedback_
              (λ fb, set_fb_joint_names (fb_joint_names fb ++ [getName j]) fb) st in
  upd_joints_ (λ js, js ++ [j]) st.

Definition resize_feedback (n : nat) (fb : Feedback) : Feedback :=
  let fb := upd_desired (λ d, set_positions (resize n (positions d)) d) fb in
  let fb := upd_desired (λ d, set_velocities (resize n (velocities d)) d) fb in
  let fb := upd_desired (λ d, set_accelerations (resize n (accelerations d)) d) fb in
  let fb := upd_actual (λ a, set_positions (resize n (positions a)) a) fb in
  let fb := upd_actual (λ a, set_velocities (resize n (velocities a)) a) fb in
  let fb := upd_actual (λ a, set_effort (resize n (effort a)) a) fb in
  let fb := upd_error (λ e, set_positions (resize n (positions e)) e) fb in
  upd_error (λ e, set_velocities (resize n (velocities e)) e) fb.

Definition resize_tolerance (n : nat) (t : TrajectoryPoint) : TrajectoryPoint :=
  set_qdd (resize n (qdd t)) (set_qd (resize n (qd t)) (set_q (resize n (q t)) t)).

Definition init (nh : NodeHandle) (manager : option ControllerManager)
    (st : State) : bool * State :=
  match manager with
  | None => (false, upd_initialized_ (λ _, false) st)
  | Some m =>
    let st := Controller_init nh m st in
    (* No initial sampler *)
    let st := upd_sampler_ (λ _, None) st in
    let st := upd_preempted_ (λ _, false) st in
    (* Get Joint Names *)
    let st := upd_joint_names_ (λ _, []) st in
    match param_joints nh with
    | None => (false, st)
    | Some XmlNotArray => (false, st)
    | Some (XmlArray elems) =>
      let '(all_strings, names) := read_joint_names elems (joint_names_ st) in
      let st := upd_joint_names_ (λ _, names) st in
      if negb all_strings then (false, st) else
      (* Get parameters *)
      let st := upd_stop_with_action_
                  (λ _, default false (param_stop_with_action nh)) st in
      (* Get Joint Handles, setup feedback *)
      let st := upd_joints_ (λ _, []) st in
      let st := for_loop (length (joint_names_ st)) (add_joint_handle m) st in
      (* Update feedback *)
      let st := upd_feedback_ (resize_feedback (length (joints_ st))) st in
      (* Update tolerances *)
      let st := upd_path_tolerance_ (resize_tolerance (length (joints_ st))) st in
      let st := upd_goal_tolerance_ (resize_tolerance (length (joints_ st))) st in
      (* Setup ROS interfaces *)
      let st := upd_server_ (λ _, new_server) st in
      (true, upd_initialized_ (λ _, true) st)
    end
  end.

(** *** [start] and [preempt] *)

Definition start (st : State) : bool :=
  if negb (initialized_ st) then false
  else if negb (isActive (server_ st)) then false
  else true.

Definition preempt (force : bool) (st : State) : bool * State :=
  if negb (initialized_ st) then (true, st)
  else if isActive (server_ st) then
    if force then
      (true, upd_server_ (setAborted default_result
                            "Controller manager forced preemption.") st)
    else (false, st)
  else (true, st).

(** *** [getPointFromCurrent]

    [now] is the reading of [ros::Time::now()]. *)
Definition getPointFromCurrent (now : Q) (incl_vel incl_acc zero_vel : bool)
    (st : State) : TrajectoryPoint :=
  let n := length (joints_ st) in
  let point := empty_point in
  let point := set_q (resize n (q point)) point in
  let point :=
    for_loop n (λ j pt, set_q (<[j := getPosition (joints_ st !!! j)]> (q pt)) pt)
             point in
  let point :=
    if incl_vel && zero_vel then
      let point := set_qd (resize n (qd point)) point in
      for_loop n (λ j pt, set_qd (<[j := 0%Q]> (qd pt)) pt) point
    else if incl_vel then
      let point := set_qd (resize n (qd point)) point in
      for_loop n (λ j pt, set_qd (<[j := getVelocity (joints_ st !!! j)]> (qd pt)) pt)
               point
    else point in
  let point :=
    if incl_acc then
      let point := set_qdd (resize n (qdd point)) point in
      (* Currently no good measure of acceleration, assume none. *)
      for_loop n (λ j pt, set_qdd (<[j := 0%Q]> (qdd pt)) pt) point
    else point in
  set_time now point.

(** [getJointNames]. *)
Definition getJointNames (st : State) : list string := joint_names_ st.

(** *** [update] *)

(** The joint count [joints_.size()]. *)
Definition joint_count (st : State) : nat := length (joints_ st).

(** The assignments to [feedback_.desired] from the sample [p]. *)
Definition fill_desired (p : TrajectoryPoint) (st : State) : State :=
  let n := joint_count st in
  (* Position is good *)
  let st := for_loop n (λ i st, upd_feedback_ (upd_desired
              (λ d, set_positions (<[i := q p !!! i]> (positions d)) d)) st) st in
  if length (qd p) =? n then
    (* Velocity is good *)
    let st := for_loop n (λ i st, upd_feedback_ (upd_desired
                (λ d, set_velocities (<[i := qd p !!! i]> (velocities d)) d)) st) st in
    if length (qdd p) =? n then
      (* Acceleration is good *)
      for_loop n (λ i st, upd_feedback_ (upd_desired
        (λ d, set_accelerations (<[i := qdd p !!! i]> (accelerations d)) d)) st) st
    else st
  else st.

(** Fill in actual *)
Definition fill_actual (st : State) : State :=
  for_loop (joint_count st) (λ j st,
    let h := joints_ st !!! j in
    upd_feedback_ (upd_actual (λ a,
      set_effort (<[j := getEffort h]> (effort a))
        (set_velocities (<[j := getVelocity h]> (velocities a))
           (set_positions (<[j := getPosition h]> (positions a)) a)))) st) st.

(** Fill in error *)
Definition fill_error (st : State) : State :=
  for_loop (joint_count st) (λ j st,
    let fb := feedback_ st in
    let ep := shortest_angular_distance (positions (desired fb) !!! j)
                                        (positions (actual fb) !!! j) in
    let ev := (velocities (actual fb) !!! j - velocities (desired fb) !!! j)%Q in
    upd_feedback_ (upd_error (λ e,
      set_velocities (<[j := ev]> (velocities e))
        (set_positions (<[j := ep]> (positions e)) e))) st) st.

Definition path_position_abort : Outcome :=
  Aborted (mkResult (Some PATH_TOLERANCE_VIOLATED))
          "Trajectory path tolerances violated (position).".
Definition path_velocity_abort : Outcome :=
  Aborted (mkResult (Some PATH_TOLERANCE_VIOLATED))
          "Trajectory path tolerances violated (velocity).".
Definition goal_success : Outcome :=
  Succeeded (mkResult (Some SUCCESSFUL)) "Trajectory succeeded.".
Definition goal_timeout_abort : Outcome :=
  Aborted (mkResult (Some GOAL_TOLERANCE_VIOLATED))
          "Trajectory not executed within time limits.".

(** [(tol[j] > 0) && (fabs(err[j]) > tol[j])]. *)
Definition violates (tol err : list Q) (j : nat) : bool :=
  Qgtb (tol !!! j) 0 && Qgtb (Qabs (err !!! j)) (tol !!! j).

(** One pass of the loop of the path check. *)
Definition path_check_joint (j : nat) (st : State) : State :=
  let st :=
    if violates (q (path_tolerance_ st)) (positions (error (feedback_ st))) j
    then upd_server_ (set_terminal path_position_abort) st else st in
  if violates (qd (path_tolerance_ st)) (velocities (error (feedback_ st))) j
  then upd_server_ (set_terminal path_velocity_abort) st else st.

(** Check that we are within path tolerance *)
Definition path_check (st : State) : State :=
  if has_path_tolerance_ st
  then for_loop (joint_count st) path_check_joint st
  else st.

(** The loop that computes [inside_tolerances]. *)
Definition inside_tolerances (st : State) : bool :=
  for_loop (joint_count st) (λ j inside,
    if violates (q (goal_tolerance_ st)) (positions (error (feedback_ st))) j
    then false else inside) true.

(** Check that we are within goal tolerance; [sampler] is [*sampler_]. *)
Definition goal_check (now : Q) (sampler : Trajectory) (st : State) : State :=
  if Qgeb now (end_time sampler) then
    if inside_tolerances st then
      upd_server_ (set_terminal goal_success) st
    else if Qgtb now (double_plus (double_plus (end_time sampler)
                                               (goal_time_tolerance_ st))
                                  double_0_6) then
      upd_server_ (set_terminal goal_timeout_abort) st
    else st
  else st.

(** Update joints *)
Definition command_desired (st : State) : State :=
  for_loop (joint_count st) (λ j st,
    upd_joints_ (command_joint j (positions (desired (feedback_ st)) !!! j)
                                 (velocities (desired (feedback_ st)) !!! j)
                                 0%Q) st) st.

(** Hold Position *)
Definition hold_position (st : State) : State :=
  for_loop (joint_count st) (λ j st,
    upd_joints_ (command_joint j (q (last_sample_ st) !!! j) 0%Q 0%Q) st) st.

Definition update (now : Q) (st : State) : bool * State :=
  if negb (initialized_ st) then (false, st) else
  match isActive (server_ st), sampler_ st with
  | true, Some sampler =>
    (* Interpolate trajectory *)
    let p := sample sampler now in
    let st := upd_last_sample_ (λ _, p) st in
    if length (q p) =? joint_count st then
      let st := fill_desired p st in
      let st := fill_actual st in
      let st := fill_error st in
      let st := path_check st in
      let st := goal_check now sampler st in
      (true, command_desired st)
    else
      (* No goal and no sample, can't update *)
      (false, st)
  | _, _ =>
    if length (q (last_sample_ st)) =? joint_count st then
      (true, hold_position st)
    else (false, st)
  end.

(** *** [executeCb] *)

(** [result.error_code = code; server_->setAborted(result, text)]. *)
Definition abort (code : ErrorCode) (text : string) (st : State) : State :=
  upd_server_ (setAborted (mkResult (Some code)) text) st.

(** [manager_->requestStop(name_)] and [manager_->requestStart(name_)]. *)
Definition requestStop (st : State) : State :=
  upd_manager_calls (λ cs, cs ++ [RequestStop (name_ st)]) st.
Definition requestStart (st : State) : State :=
  upd_manager_calls (λ cs, cs ++ [RequestStart (name_ st)]) st.

(** The trajectory handed to the new sampler; [None] where a splice
    fails. *)
Definition build_executable (env : Env) (goal : Goal)
    (new_trajectory : Trajectory) (st : State) : option Trajectory :=
  if preempted_ st then
    (* If preempted, need to splice on things together *)
    let from_last_sample :=
      (* Previous trajectory was only 2 points, use last_sample + new trajectory *)
      spliceTrajectories [last_sample_ st] new_trajectory 0%Q in
    match sampler_ st with
    | Some sampler =>
      if 2 <? length (getTrajectory sampler)
      then spliceTrajectories (getTrajectory sampler) new_trajectory
                              (now_splice env)
      else from_last_sample
    | None => from_last_sample
    end
  else
    let first := new_trajectory !!! 0 in
    if 1 <? length new_trajectory then
      (* use the generated trajectory *)
      let executable_trajectory := new_trajectory in
      (* if this hasn't started yet, need to insert current position *)
      if Qgtb (time_from_start (points (trajectory goal) !!! 0)) 0
      then Some (getPointFromCurrent (now_current env)
                   (0 <? length (qd first)) (0 <? length (qdd first)) true st
                 :: executable_trajectory)
      else Some executable_trajectory
    else
      (* A single point, with nothing in the queue! *)
      Some [getPointFromCurrent (now_current env)
              (0 <? length (qd first)) (0 <? length (qdd first)) false st;
            first].

(** The three assignments at the end of the body of the inner loop. *)
Definition copy_tolerance (j : nat) (e : JointTolerance)
    (tol : TrajectoryPoint) : TrajectoryPoint :=
  set_qdd (<[j := acceleration e]> (qdd tol))
    (set_qd (<[j := velocity e]> (qd tol))
       (set_q (<[j := position e]> (q tol)) tol)).

(** The inner loop [for (i ...)] for the joint [j] named [jname], over the
    entries [goal->..._tolerance[i]] still to visit.  As in the source, the
    test [index == -1] and the copy stand inside the loop, after the
    [break].  The result is [false] when [executeCb] must return. *)
Fixpoint convert_tolerance_inner (jname : string) (j : nat) (index : Z)
    (entries : list JointTolerance) (tol : TrajectoryPoint)
  : bool * TrajectoryPoint :=
  match entries with
  | [] => (true, tol)
  | e :: rest =>
    if String.eqb jname (name e) then
      (* index = i; break; *)
      (true, tol)
    else if (index =? -1)%Z then
      (false, tol)
    else
      convert_tolerance_inner jname j index rest (copy_tolerance j e tol)
  end.

(** The outer loop [for (j ...)] over the joints from index [j] on. *)
Fixpoint convert_tolerances (js : list JointHandle) (j : nat)
    (entries : list JointTolerance) (tol : TrajectoryPoint)
  : bool * TrajectoryPoint :=
  match js with
  | [] => (true, tol)
  | h :: js' =>
    (* int index = -1; *)
    match convert_tolerance_inner (getName h) j (-1) entries tol with
    | (true, tol') => convert_tolerances js' (S j) entries tol'
    | (false, tol') => (false, tol')
    end
  end.

(** Convert the path tolerances into a more usable form. *)
Definition convert_path_tolerances (goal : Goal) (st : State) : Flow :=
  if length (path_tolerance goal) =? joint_count st then
    let st := upd_has_path_tolerance_ (λ _, true) st in
    match convert_tolerances (joints_ st) 0 (path_tolerance goal)
                             (path_tolerance_ st) with
    | (true, tol) => Running (upd_path_tolerance_ (λ _, tol) st)
    | (false, tol) =>
      Returned (abort INVALID_JOINTS "Unable to convert path tolerances"
                      (upd_path_tolerance_ (λ _, tol) st))
    end
  else Running (upd_has_path_tolerance_ (λ _, false) st).

(** Set defaults *)
Definition default_goal_tolerance (n : nat) (tol : TrajectoryPoint)
  : TrajectoryPoint :=
  for_loop n (λ j tol,
    set_qdd (<[j := 2 # 100]> (qdd tol))
      (set_qd (<[j := 2 # 100]> (qd tol))
         (set_q (<[j := 2 # 100]> (q tol)) tol))) tol.

(** Convert the goal tolerances into a more usable form. *)
Definition convert_goal_tolerances (goal : Goal) (st : State) : Flow :=
  if length (goal_tolerance goal) =? joint_count st then
    match convert_tolerances (joints_ st) 0 (goal_tolerance goal)
                             (goal_tolerance_ st) with
    | (true, tol) => Running (upd_goal_tolerance_ (λ _, tol) st)
    | (false, tol) =>
      Returned (abort INVALID_JOINTS "Unable to convert goal tolerances"
                      (upd_goal_tolerance_ (λ _, tol) st))
    end
  else
    Running (upd_goal_tolerance_ (default_goal_tolerance (joint_count st)) st).

(** [executeCb] up to the feedback loop: [Returned] where the source
    returns, [Running] where it reaches [while (server_->isActive())]. *)
Definition executeCb_intake (env : Env) (goal : Goal) (st : State) : Flow :=
  let result := default_result in
  if negb (initialized_ st) then
    Returned (upd_server_ (setAborted result "Controller is not initialized.") st)
  else if length (points (trajectory goal)) =? 0 then
    (* Stop *)
    Returned (requestStop st)
  else if negb (length (joint_names (trajectory goal)) =? joint_count st) then
    Returned (abort INVALID_JOINTS
                "Trajectory goal size does not match controlled joints size." st)
  else
    (* Make a trajectory from our message *)
    match trajectoryFromMsg (now_convert env) (trajectory goal)
                            (joint_names_ st) with
    | None =>
      Returned (abort INVALID_JOINTS
                  "Trajectory goal does not match controlled joints" st)
    | Some new_trajectory =>
      match build_executable env goal new_trajectory st with
      | None => Returned (abort INVALID_JOINTS "Unable to splice trajectory" st)
      | Some executable_trajectory =>
        (* Create trajectory sampler *)
        let st := upd_sampler_ (λ _, Some executable_trajectory) st in
        st ←← convert_path_tolerances goal st;
        st ←← convert_goal_tolerances goal st;
        let st := upd_goal_time_tolerance_ (λ _, goal_time_tolerance goal) st in
        let st := requestStart st in
        if negb (requestStart_reply env) then
          Returned (abort GOAL_TOLERANCE_VIOLATED
                      "Cannot execute trajectory, unable to start controller." st)
        else
          Running (upd_preempted_ (λ _, false) st)
      end
    end.

(** What the other threads do while the feedback loop sleeps: the control
    thread ticks (after the hardware refreshed the readings), the client
    asks for cancellation, the manager preempts. *)
Inductive Event :=
| Tick (now : Q) (readings : list (Q * Q * Q))
| Cancel
| Preempt (force : bool).

Definition set_readings (rs : list (Q * Q * Q)) (st : State) : State :=
  upd_joints_ (imap (λ j h, from_option (λ r, set_reading r h) h (rs !! j))) st.

Definition happen (st : State) (e : Event) : State :=
  match e with
  | Tick now rs => (update now (set_readings rs st)).2
  | Cancel => upd_server_ request_preempt st
  | Preempt force => (preempt force st).2
  end.

(** The feedback loop [while (server_->isActive())].  Each pass ends in a
    sleep of 1/50 s; [sleeps] gives, for each pass, the stamp it reads and
    what happens during its sleep.  [None]: the goal is still active when
    the list is used up, and the loop goes on. *)
Fixpoint feedback_loop (sleeps : list (Q * list Event)) (st : State)
  : option State :=
  if negb (isActive (server_ st)) then Some st
  else if isPreemptRequested (server_ st) then
    Some (upd_preempted_ (λ _, true)
            (upd_server_ (setPreempted default_result "Trajectory preempted") st))
  else
    match sleeps with
    | [] => None
    | (stamp, events) :: rest =>
      (* publish feedback *)
      let st := upd_feedback_ (set_fb_stamp stamp) st in
      let st := upd_server_ (publishFeedback (feedback_ st)) st in
      feedback_loop rest (foldl happen st events)
    end.

(** The statements after the loop. *)
Definition executeCb_finish (st : State) : State :=
  let st := upd_sampler_ (λ _, None) st in
  (* Stop this controller if desired (and not preempted) *)
  if stop_with_action_ st && negb (preempted_ st) then requestStop st else st.

Definition executeCb (env : Env) (sleeps : list (Q * list Event))
    (goal : Goal) (st : State) : option State :=
  match executeCb_intake env goal st with
  | Returned st => Some st
  | Running st => executeCb_finish <$> feedback_loop sleeps st
  end.

(** *** The monitor's view of a tick *)

(** The state the tolerance monitor looks at in a tick at [now]: the sample
    is kept in [last_sample_] and the feedback is filled in. *)
Definition monitored (now : Q) (sampler : Trajectory) (st : State) : State :=
  let p := sample sampler now in
  fill_error (fill_actual (fill_desired p (upd_last_sample_ (λ _, p) st))).

End Controller.

(** * Vocabulary of the properties *)

(** ** The result channel *)

(** A run of terminal calls, in order. *)
Definition make_calls (l : list Outcome) (s : Server) : Server :=
  foldl (λ s o, set_terminal o s) s l.

(** [follows s s' l]: from [s] to [s'] the controller made the terminal calls
    [l]; the server reported the first of them if the goal was active, and
    nothing else. *)
Definition follows (s s' : Server) (l : list Outcome) : Prop :=
  calls s' = calls s ++ l ∧
  outcomes s' = outcomes s ++ (if active s then take 1 l else []) ∧
  active s' = active s && bool_decide (l = []).

(** [advances st st']: from [st] to [st'] the server only saw terminal
    calls of the controller. *)
Definition advances (st st' : State) : Prop :=
  ∃ l, follows (server_ st) (server_ st') l.

(** ** Tolerances *)

(** An enabled tolerance is respected, or the tolerance is disabled. *)
Definition within (tol err : list Q) (j : nat) : Prop :=
  (0 < tol !!! j)%Q → (Qabs (err !!! j) <= tol !!! j)%Q.

(** The terminal calls of one pass of the path check, and of the whole
    check. *)
Definition joint_path_calls (st : State) (j : nat) : list Outcome :=
  (if violates (q (path_tolerance_ st)) (positions (error (feedback_ st))) j
   then [path_position_abort] else [])
  ++ (if violates (qd (path_tolerance_ st)) (velocities (error (feedback_ st))) j
      then [path_velocity_abort] else []).

Definition path_calls (st : State) : list Outcome :=
  if has_path_tolerance_ st
  then flat_map (joint_path_calls st) (seq 0 (joint_count st))
  else [].

(** The terminal call of the goal check, if any. *)
Definition goal_calls (now : Q) (sampler : Trajectory) (st : State)
  : list Outcome :=
  if Qgeb now (end_time sampler) then
    if inside_tolerances st then [goal_success]
    else if Qgtb now (double_plus (double_plus (end_time sampler)
                                               (goal_time_tolerance_ st))
                                  double_0_6)
         then [goal_timeout_abort]
         else []
  else [].

(** The abort of a goal whose start the manager refuses. *)
Definition start_refused_abort : Outcome :=
  Aborted (mkResult (Some GOAL_TOLERANCE_VIOLATED))
          "Cannot execute trajectory, unable to start controller.".

(** ** The tolerance conversion as specified *)

(** The conversion in the spec's words (section 9): for each controlled
    joint, find the matching tolerance entry by name; if none, fail; else
    copy once.  [None] stands for the [INVALID_JOINTS] failure. *)
Fixpoint resolve_tolerances_spec (js : list JointHandle) (j : nat)
    (entries : list JointTolerance) (tol : TrajectoryPoint)
  : option TrajectoryPoint :=
  match js with
  | [] => Some tol
  | h :: js' =>
    match list_find (λ e, name e = getName h) entries with
    | None => None
    | Some (_, e) =>
      resolve_tolerances_spec js' (S j) entries (copy_tolerance j e tol)
    end
  end.

(** The state a successful [init] leaves. *)
Definition initialised_state (nh : NodeHandle) (m : ControllerManager)
    (names : list string) (st : State) : State :=
  let n := length names in
  mkState true (Some m) (getNamespace nh) names (getJointHandle m <$> names)
          (default false (param_stop_with_action nh)) None false
          (has_path_tolerance_ st)
          (resize_tolerance n (path_tolerance_ st))
          (resize_tolerance n (goal_tolerance_ st))
          (goal_time_tolerance_ st) (last_sample_ st)
          (resize_feedback n
             (set_fb_joint_names
                (fb_joint_names (feedback_ st)
                 ++ ((λ x, getName (getJointHandle m x)) <$> names))
                (feedback_ st)))
          new_server (manager_calls st).

(** ** Sizes of the feedback vectors *)

(** The sizes of the eight feedback vectors that [init] resizes. *)
Definition feedback_lengths (fb : Feedback) : list nat :=
  [length (positions (desired fb)); length (velocities (desired fb));
   length (accelerations (desired fb));
   length (positions (actual fb)); length (velocities (actual fb));
   length (effort (actual fb));
   length (positions (error fb)); length (velocities (error fb))].

(** Every one of them has an entry per joint. *)
Definition feedback_sized (st : State) : Prop :=
  Forall (λ n, n = joint_count st) (feedback_lengths (feedback_ st)).

(** What the hardware layer and the manager see of a joint handle, the
    commands aside. *)
Definition reading (h : JointHandle) : string * Q * Q * Q :=
  (getName h, getPosition h, getVelocity h, getEffort h).

(** ** Goal intake *)

(** The test the tolerance conversion of the source comes down to: every
    joint has the name of the first entry. *)
Definition first_entry_matches (entries : list JointTolerance)
    (js : list JointHandle) : bool :=
  forallb (λ h, match entries with
                | [] => true
                | e :: _ => String.eqb (getName h) (name e)
                end) js.

(** The state in which [executeCb] reaches its feedback loop, from the state
    [st] in which it was called and the trajectory it gives to the
    sampler. *)
Definition taken_in (goal : Goal) (executable : Trajectory) (st : State)
  : State :=
  upd_preempted_ (λ _, false)
    (requestStart
       (upd_goal_time_tolerance_ (λ _, goal_time_tolerance goal)
          (upd_goal_tolerance_
             (λ t, if length (goal_tolerance goal) =? joint_count st then t
                   else default_goal_tolerance (joint_count st) t)
             (upd_has_path_tolerance_
                (λ _, length (path_tolerance goal) =? joint_count st)
                (upd_sampler_ (λ _, Some executable) st))))).

(** The terminal calls [executeCb] can make before its feedback loop. *)
Definition intake_aborts : list Outcome :=
  [Aborted default_result "Controller is not initialized.";
   Aborted (mkResult (Some INVALID_JOINTS))
           "Trajectory goal size does not match controlled joints size.";
   Aborted (mkResult (Some INVALID_JOINTS))
           "Trajectory goal does not match controlled joints";
   Aborted (mkResult (Some INVALID_JOINTS)) "Unable to splice trajectory";
   Aborted (mkResult (Some INVALID_JOINTS)) "Unable to convert path tolerances";
   Aborted (mkResult (Some INVALID_JOINTS)) "Unable to convert goal tolerances";
   start_refused_abort].

(** ** What the control thread can touch *)

(** A tick, a cancellation request and a preemption write to the joint
    handles, the server, the feedback and [last_sample_], and to nothing
    else. *)
Definition ticked (js : list JointHandle) (srv : Server) (fb : Feedback)
    (ls : TrajectoryPoint) (st : State) : State :=
  mkState (initialized_ st) (manager_ st) (name_ st) (joint_names_ st) js
          (stop_with_action_ st) (sampler_ st) (preempted_ st)
          (has_path_tolerance_ st) (path_tolerance_ st) (goal_tolerance_ st)
          (goal_time_tolerance_ st) ls fb srv (manager_calls st).

(** The outcome of a cancelled goal, and the abort of a forced
    preemption. *)
Definition trajectory_preempted : Outcome :=
  Preempted default_result "Trajectory preempted".
Definition forced_preempt_abort : Outcome :=
  Aborted default_result "Controller manager forced preemption.".

(** ** Runs of a controller *)

(** What is done with a controller once [init] has succeeded: the server
    accepts a goal and runs [executeCb] on it; between two goals the control
    thread ticks, a client asks for cancellation, the manager preempts. *)
Inductive Step :=
| Execute (env : Env) (sleeps : list (Q * list Event)) (goal : Goal)
| Between (e : Event).

Definition step (sample : Trajectory → Q → TrajectoryPoint)
    (spliceTrajectories : Trajectory → Trajectory → Q → option Trajectory)
    (shortest_angular_distance : Q → Q → Q)
    (st : State) (s : Step) : option State :=
  match s with
  | Execute env sleeps goal =>
    executeCb sample spliceTrajectories shortest_angular_distance
              env sleeps goal (upd_server_ accept_goal st)
  | Between e => Some (happen sample shortest_angular_distance st e)
  end.

(** [None]: an [executeCb] of the run is still in its feedback loop. *)
Fixpoint run (sample : Trajectory → Q → TrajectoryPoint)
    (spliceTrajectories : Trajectory → Trajectory → Q → option Trajectory)
    (shortest_angular_distance : Q → Q → Q)
    (steps : list Step) (st : State) : option State :=
  match steps with
  | [] => Some st
  | s :: rest =>
    match step sample spliceTrajectories shortest_angular_distance st s with
    | Some st' =>
      run sample spliceTrajectories shortest_angular_distance rest st'
    | None => None
    end
  end.

(** The terminal calls left to a controller whose path tolerances are all
    zero. *)
Definition controller_calls : list Outcome :=
  goal_success :: goal_timeout_abort :: forced_preempt_abort
  :: trajectory_preempted :: intake_aborts.

(** [proceeds st st']: from [st] to [st'] the path tolerances are kept and
    the terminal calls made are among [controller_calls]. *)
Definition proceeds (st st' : State) : Prop :=
  path_tolerance_ st' = path_tolerance_ st ∧
  ∃ l, calls (server_ st') = calls (server_ st) ++ l ∧
       Forall (λ o, o ∈ controller_calls) l.

(** No path tolerance is enabled. *)
Definition path_tolerances_zero (st : State) : Prop :=
  ∃ n, q (path_tolerance_ st) = replicate n 0%Q ∧
       qd (path_tolerance_ st) = replicate n 0%Q.

(** * Concrete controllers *)

(** A manager whose joints all read zero. *)
Definition demo_manager : ControllerManager :=
  mkManager (λ n, mkJoint n 0%Q 0%Q 0%Q []).

Definition demo_node (joints : list string) : NodeHandle :=
  mkNodeHandle "arm_controller" (Some (XmlArray (XmlString <$> joints))) None.

(** A sampler that always gives the last waypoint, a splice that always
    fails, and the plain difference as angular distance. *)
Definition last_waypoint (t : Trajectory) (now : Q) : TrajectoryPoint :=
  default empty_point (last t).
Definition no_splice (old new : Trajectory) (cut : Q) : option Trajectory := None.
Definition plain_distance (from to : Q) : Q := (to - from)%Q.

(** Controllers for one and for two joints, initialised from a fresh object,
    with a goal just accepted by the server. *)
Definition one_joint : State :=
  upd_server_ accept_goal
    (init (demo_node ["j1"]) (Some demo_manager) (constructed false false)).2.
Definition two_joints : State :=
  upd_server_ accept_goal
    (init (demo_node ["j1"; "j2"]) (Some demo_manager) (constructed false false)).2.

Definition demo_env : Env := mkEnv 10%Q 10%Q 10%Q true.

(** A goal for [j1] and [j2] with one point, and tolerances named after the
    joints. *)
Definition demo_tolerances : list JointTolerance :=
  [mkJointTolerance "j1" (1 # 10) (2 # 10) 0%Q;
   mkJointTolerance "j2" (3 # 10) (4 # 10) 0%Q].

Definition two_joint_trajectory : JointTrajectory :=
  mkJointTrajectory 0%Q ["j1"; "j2"] [mkMsgPoint [1%Q; 2%Q] [] [] [] 1%Q].

Definition one_joint_trajectory : JointTrajectory :=
  mkJointTrajectory 0%Q ["j1"] [mkMsgPoint [1%Q] [] [] [] 1%Q].

(** The two-joint controller with a one-point goal taken in: the sampler runs
    from the present state at time 10 to the goal's point at time 11, and the
    goal tolerances are the defaults. *)
Definition tracking : State :=
  flow_state (executeCb_intake no_splice demo_env
                (mkGoal two_joint_trajectory [] [] 0%Q) two_joints).

Definition tracking_sampler : Trajectory := default [] (sampler_ tracking).

(** The same with path tolerances of 0.1 in force, as a conversion that
    copied them would leave the state. *)
Definition tracking_with_path : State :=
  upd_path_tolerance_
    (λ _, mkPoint [1 # 10; 1 # 10] [1 # 10; 1 # 10] [0%Q; 0%Q] 0%Q)
    (upd_has_path_tolerance_ (λ _, true) tracking).

(** The controller after the goal was ended by a forced preemption: it holds
    the last sample. *)
Definition holding : State :=
  (preempt true (update last_waypoint plain_distance 11 tracking).2).2.


(** A goal of two points for [j1], the first due after one second. *)
Definition two_point_goal : Goal :=
  mkGoal (mkJointTrajectory 0%Q ["j1"]
            [mkMsgPoint [1%Q] [] [] [] 1%Q; mkMsgPoint [2%Q] [] [] [] 2%Q])
         [] [] 0%Q.

(** A splice that keeps both trajectories whole. *)
Definition append_splice (old new : Trajectory) (cut : Q) : option Trajectory :=
  Some (old ++ new).

(** A sampler whose samples have no positions. *)
Definition empty_sample (t : Trajectory) (now : Q) : TrajectoryPoint :=
  empty_point.

(** The two-joint controller with its joints arrived at the goal. *)
Definition arrived : State := set_readings [(1, 0, 0); (2, 0, 0)]%Q tracking.

(** [executeCb] of the one-point goal on the two-joint controller, with a
    late tick during the first sleep, and with a cancellation request during
    the first sleep. *)
Definition overrun : State :=
  default two_joints
    (executeCb last_waypoint no_splice plain_distance demo_env
       [(10%Q, [Tick 12 []])] (mkGoal two_joint_trajectory [] [] 0%Q)
       two_joints).
Definition cancelled : State :=
  default two_joints
    (executeCb last_waypoint no_splice plain_distance demo_env
       [(10%Q, [Cancel])] (mkGoal two_joint_trajectory [] [] 0%Q)
       two_joints).

(** A fresh one-joint controller and a run of it: a goal with a path
    tolerance of 0.1 for [j1], during which the joint is read 4 away from the
    sample and the goal's time runs out, then one more tick. *)
Definition fresh_one_joint : State :=
  (init (demo_node ["j1"]) (Some demo_manager) (constructed false false)).2.
Definition guarded_run : State :=
  default fresh_one_joint
    (run last_waypoint no_splice plain_distance
       [Execute demo_env [(10%Q, [Tick (105 # 10) [(5, 5, 0)]%Q;
                                  Tick 12 [(5, 5, 0)]%Q])]
                (mkGoal one_joint_trajectory (take 1 demo_tolerances) [] 0%Q);
        Between (Tick 13 [])]
       fresh_one_joint).

(** * Properties *)

(** ** Loops and vectors *)

Section Loops.
Context {S : Type}.
Implicit Types (body : nat → S → S) (s : S).

Lemma for_loop_0 body s : for_loop 0 body s = s.
Proof. reflexivity. Qed.

Lemma for_loop_S n body s :
  for_loop (Datatypes.S n) body s = body n (for_loop n body s).
Proof. unfold for_loop. rewrite seq_S, fold_left_app. reflexivity. Qed.

Lemma for_loop_ind (P : nat → S → Prop) n body s :
  P 0 s →
  (∀ j acc, j < n → P j acc → P (Datatypes.S j) (body j acc)) →
  P n (for_loop n body s).
Proof.
  intros H0 Hstep. induction n as [|n IH]; [exact H0|].
  rewrite for_loop_S. apply Hstep; [lia|]. apply IH.
  intros j acc Hj. apply Hstep. lia.
Qed.
End Loops.

Lemma resize_length n v : length (resize n v) = n.
Proof. unfold resize. rewrite length_app, length_take, length_replicate. lia. Qed.

Lemma resize_nil n : resize n [] = replicate n 0%Q.
Proof. unfold resize. rewrite take_nil. simpl. f_equal. lia. Qed.

Lemma fill_loop {A} (f : nat → A) n (l : list A) :
  n ≤ length l →
  for_loop n (λ j v, <[j := f j]> v) l = (f <$> seq 0 n) ++ drop n l.
Proof.
  intros Hn. induction n as [|n IH]; [by rewrite drop_0|].
  rewrite for_loop_S, IH by lia.
  rewrite seq_S, fmap_app. simpl.
  destruct (lookup_lt_is_Some_2 l n) as [x Hx]; [lia|].
  rewrite (drop_S l x n Hx).
  rewrite insert_app_r_alt; rewrite length_fmap, length_seq; [|lia].
  rewrite Nat.sub_diag. simpl. by rewrite <- app_assoc.
Qed.

Lemma fill_loop_full {A} (f : nat → A) (l : list A) :
  for_loop (length l) (λ j v, <[j := f j]> v) l = f <$> seq 0 (length l).
Proof. rewrite fill_loop by lia. by rewrite drop_all, app_nil_r. Qed.

Lemma fmap_seq_lookup_total {A B} `{Inhabited A} (g : A → B) (l : list A) :
  (λ j, g (l !!! j)) <$> seq 0 (length l) = g <$> l.
Proof.
  apply list_eq. intros i. rewrite !list_lookup_fmap.
  destruct (decide (i < length l)) as [Hi|Hi].
  - rewrite lookup_seq_lt by done. simpl.
    destruct (lookup_lt_is_Some_2 l i Hi) as [x Hx].
    rewrite Hx. simpl. by rewrite (list_lookup_total_correct _ _ _ Hx).
  - rewrite lookup_seq_ge by lia. rewrite lookup_ge_None_2 by lia. done.
Qed.

Lemma fmap_seq_const {A} (x : A) n : (λ _, x) <$> seq 0 n = replicate n x.
Proof.
  apply list_eq. intros i. rewrite list_lookup_fmap.
  destruct (decide (i < n)).
  - rewrite lookup_seq_lt, lookup_replicate_2 by done. done.
  - rewrite lookup_seq_ge by lia. symmetry. apply lookup_replicate_None. lia.
Qed.

(** A loop that assigns one field of a point element by element is a loop on
    that field. *)
Lemma point_loop_q (f : nat → Q) n p :
  for_loop n (λ j pt, set_q (<[j := f j]> (q pt)) pt) p
  = set_q (for_loop n (λ j v, <[j := f j]> v) (q p)) p.
Proof.
  induction n as [|n IH]; [by destruct p|].
  rewrite !for_loop_S, IH. reflexivity.
Qed.

Lemma point_loop_qd (f : nat → Q) n p :
  for_loop n (λ j pt, set_qd (<[j := f j]> (qd pt)) pt) p
  = set_qd (for_loop n (λ j v, <[j := f j]> v) (qd p)) p.
Proof.
  induction n as [|n IH]; [by destruct p|].
  rewrite !for_loop_S, IH. reflexivity.
Qed.

Lemma point_loop_qdd (f : nat → Q) n p :
  for_loop n (λ j pt, set_qdd (<[j := f j]> (qdd pt)) pt) p
  = set_qdd (for_loop n (λ j v, <[j := f j]> v) (qdd p)) p.
Proof.
  induction n as [|n IH]; [by destruct p|].
  rewrite !for_loop_S, IH. reflexivity.
Qed.

(** Filling a freshly resized vector. *)
Lemma fill_resized (f : nat → Q) n :
  for_loop n (λ j v, <[j := f j]> v) (resize n []) = f <$> seq 0 n.
Proof.
  rewrite <- (resize_length n []) at 1. rewrite fill_loop_full.
  by rewrite resize_length.
Qed.

(** ** [getPointFromCurrent] *)

(** The fields of the synthesised point, loop by loop. *)
Lemma getPointFromCurrent_fields (now : Q) (incl_vel incl_acc zero_vel : bool)
    (st : State) :
  let point := getPointFromCurrent now incl_vel incl_acc zero_vel st in
  q point = getPosition <$> joints_ st ∧
  qd point = (if incl_vel
              then if zero_vel then replicate (length (joints_ st)) 0%Q
                   else getVelocity <$> joints_ st
              else []) ∧
  qdd point = (if incl_acc then replicate (length (joints_ st)) 0%Q else []) ∧
  time point = now.
Proof.
  unfold getPointFromCurrent.
  set (n := length (joints_ st)).
  rewrite point_loop_q. cbn [q qd qdd time empty_point set_q].
  rewrite fill_resized.
  assert (Hq : (λ j, getPosition (joints_ st !!! j)) <$> seq 0 n
               = getPosition <$> joints_ st)
    by apply fmap_seq_lookup_total.
  assert (Hv : (λ j, getVelocity (joints_ st !!! j)) <$> seq 0 n
               = getVelocity <$> joints_ st)
    by apply fmap_seq_lookup_total.
  assert (Hz : (λ _ : nat, 0%Q) <$> seq 0 n = replicate n 0%Q)
    by apply fmap_seq_const.
  destruct incl_vel, zero_vel, incl_acc; cbn [andb];
    rewrite ?point_loop_qd, ?point_loop_qdd;
    cbn [q qd qdd time set_q set_qd set_qdd set_time];
    rewrite ?fill_resized, ?Hq, ?Hv, ?Hz; done.
Qed.

(** C9.  The point synthesised by [getPointFromCurrent]: [q] holds the present
    joint positions in the order of [joints_]; [qd] is empty unless
    [incl_vel], and then all zero if [zero_vel] and the present joint
    velocities otherwise; [qdd] is all zero if [incl_acc] and empty
    otherwise; [time] is the reading of the clock. *)
Theorem getPointFromCurrent_spec (now : Q) (incl_vel incl_acc zero_vel : bool)
    (st : State) :
  let point := getPointFromCurrent now incl_vel incl_acc zero_vel st in
  q point = getPosition <$> joints_ st ∧
  qd point = (if incl_vel
              then if zero_vel then replicate (length (joints_ st)) 0%Q
                   else getVelocity <$> joints_ st
              else []) ∧
  qdd point = (if incl_acc then replicate (length (joints_ st)) 0%Q else []) ∧
  time point = now.
Proof. apply getPointFromCurrent_fields. Qed.

(** ** Position hold *)

Lemma upd_joints_id (F : list JointHandle → list JointHandle) st :
  F (joints_ st) = joints_ st → upd_joints_ F st = st.
Proof. intros HF. destruct st. unfold upd_joints_. cbn in *. by rewrite HF. Qed.

(** A loop that writes one command to each joint in turn writes it to all of
    them. *)
Lemma command_loop (c : nat → State → JointHandle → JointHandle) st :
  (∀ j F s, c j (upd_joints_ F s) = c j s) →
  for_loop (joint_count st) (λ j s, upd_joints_ (alter (c j s) j) s) st
  = upd_joints_ (imap (λ j, c j st)) st.
Proof.
  intros Hc.
  assert (Hinv : for_loop (joint_count st)
            (λ j s, upd_joints_ (alter (c j s) j) s) st
          = upd_joints_ (imap (λ j h, if decide (j < joint_count st)
                                      then c j st h else h)) st).
  { set (P := λ (k : nat) (s : State), s = upd_joints_
             (imap (λ j h, if decide (j < k) then c j st h else h)) st).
    change (P (joint_count st) (for_loop (joint_count st)
              (λ j s, upd_joints_ (alter (c j s) j) s) st)).
    apply for_loop_ind; unfold P; clear P.
    - symmetry. apply upd_joints_id. apply list_eq. intros i.
      rewrite list_lookup_imap. destruct (joints_ st !! i); [|done].
      cbn [fmap option_fmap option_map]. destruct (decide (i < 0)); [lia|done].
    - intros k s Hk Hs. subst s. rewrite Hc.
      destruct st. unfold upd_joints_. cbn [joints_ initialized_ manager_ name_
        joint_names_ stop_with_action_ sampler_ preempted_ has_path_tolerance_
        path_tolerance_ goal_tolerance_ goal_time_tolerance_ last_sample_
        feedback_ server_ manager_calls]. f_equal.
      apply list_eq. intros i. destruct (decide (i = k)) as [->|Hne].
      + rewrite list_lookup_alter_eq, !list_lookup_imap.
        destruct (joints_0 !! k); [|done]. cbn [fmap option_fmap option_map].
        destruct (decide (k < k)); [lia|].
        destruct (decide (k < S k)); [done|lia].
      + rewrite list_lookup_alter_ne by done. rewrite !list_lookup_imap.
        destruct (joints_0 !! i); [|done]. cbn [fmap option_fmap option_map].
        destruct (decide (i < k)), (decide (i < S k)); try done; lia. }
  rewrite Hinv. destruct st. unfold upd_joints_, joint_count.
  cbn [joints_ initialized_ manager_ name_
        joint_names_ stop_with_action_ sampler_ preempted_ has_path_tolerance_
        path_tolerance_ goal_tolerance_ goal_time_tolerance_ last_sample_
        feedback_ server_ manager_calls]. f_equal.
  apply imap_ext. intros i x Hi. apply lookup_lt_Some in Hi.
  destruct (decide _); [done|lia].
Qed.

Lemma hold_position_spec st :
  hold_position st
  = upd_joints_ (imap (λ j, setPositionCommand (q (last_sample_ st) !!! j) 0 0)) st.
Proof.
  unfold hold_position, command_joint.
  apply (command_loop (λ j s, setPositionCommand (q (last_sample_ s) !!! j) 0 0)).
  reflexivity.
Qed.

(** C7.  A tick of an initialised controller with no goal executing (the
    server has no active goal, or there is no sampler).  If [last_sample_.q]
    has one entry per joint, joint [j] is sent the command
    [(last_sample_.q[j], 0, 0)], nothing else changes, and [update] returns
    true; otherwise no command is sent, nothing changes, and [update]
    returns false. *)
Theorem update_hold (sample : Trajectory → Q → TrajectoryPoint)
    (shortest_angular_distance : Q → Q → Q) (now : Q) (st : State) :
  initialized_ st = true →
  isActive (server_ st) = false ∨ sampler_ st = None →
  (length (q (last_sample_ st)) = joint_count st →
   update sample shortest_angular_distance now st
   = (true, upd_joints_
              (imap (λ j, setPositionCommand (q (last_sample_ st) !!! j) 0 0)) st))
  ∧ (length (q (last_sample_ st)) ≠ joint_count st →
     update sample shortest_angular_distance now st = (false, st)).
Proof.
  intros Hinit Hidle. unfold update. rewrite Hinit. cbn [negb].
  assert (Hbranch : match isActive (server_ st), sampler_ st with
                    | true, Some _ => False
                    | _, _ => True
                    end).
  { destruct Hidle as [-> | ->]; [done|]. by destruct (isActive _). }
  destruct (isActive (server_ st)), (sampler_ st); try done;
    (split; intros Hlen;
     [ apply Nat.eqb_eq in Hlen; rewrite Hlen, hold_position_spec; done
     | apply Nat.eqb_neq in Hlen; rewrite Hlen; done ]).
Qed.

(** ** The result channel *)

Lemma follows_refl s : follows s s [].
Proof.
  unfold follows. rewrite andb_true_r.
  destruct (active s); simpl; by rewrite !app_nil_r.
Qed.

Lemma follows_trans s1 s2 s3 l l' :
  follows s1 s2 l → follows s2 s3 l' → follows s1 s3 (l ++ l').
Proof.
  intros (Hc & Ho & Ha) (Hc' & Ho' & Ha'). unfold follows.
  rewrite Hc', Hc, Ho', Ho, Ha', Ha, <- !app_assoc.
  split; [done|].
  destruct (active s1), l as [|o l], l' as [|o' l']; simpl;
    rewrite ?app_nil_r; done.
Qed.

Lemma follows_set_terminal o s : follows s (set_terminal o s) [o].
Proof. unfold follows. simpl. destruct (active s); by rewrite ?app_nil_r. Qed.

Lemma follows_make_calls l s : follows s (make_calls l s) l.
Proof.
  revert s. induction l as [|o l IH]; intros s; [apply follows_refl|].
  change (o :: l) with ([o] ++ l).
  eapply follows_trans; [apply follows_set_terminal|apply IH].
Qed.

Lemma make_calls_app l l' s :
  make_calls (l ++ l') s = make_calls l' (make_calls l s).
Proof. apply foldl_app. Qed.

(** At most one more outcome is reported, and none once the goal is no
    longer active. *)
Lemma follows_outcomes s s' l :
  follows s s' l →
  ∃ reported, outcomes s' = outcomes s ++ reported ∧
              length reported ≤ (if active s then 1 else 0).
Proof.
  intros (_ & Ho & _). eexists. split; [exact Ho|].
  destruct (active s); [|done]. rewrite length_take. lia.
Qed.

Lemma follows_inactive s s' l :
  follows s s' l → active s = false → outcomes s' = outcomes s ∧ active s' = false.
Proof. intros (_ & Ho & Ha) Hs. rewrite Ho, Ha, Hs, app_nil_r. done. Qed.

(** ** Comparisons *)

Lemma Qgtb_lt a b : Qgtb a b = true ↔ (b < a)%Q.
Proof.
  unfold Qgtb. rewrite negb_true_iff, <- not_true_iff_false, Qle_bool_iff.
  split; [apply Qnot_le_lt|apply Qlt_not_le].
Qed.



Lemma violates_false tol err j : violates tol err j = false ↔ within tol err j.
Proof.
  unfold violates, within. rewrite andb_false_iff, <- !not_true_iff_false, !Qgtb_lt.
  split.
  - intros [H|H] Hpos; [done|]. by apply Qnot_lt_le.
  - intros H. destruct (Qlt_le_dec 0 (tol !!! j)) as [Hpos|Hneg].
    + right. apply Qle_not_lt. auto.
    + left. by apply Qle_not_lt.
Qed.

Lemma violates_true tol err j : violates tol err j = true ↔ ¬ within tol err j.
Proof. rewrite <- violates_false. by destruct (violates tol err j). Qed.

(** ** A tick with a goal executing *)

(** A loop whose passes assign to [feedback_] changes nothing else. *)
Lemma feedback_only_loop (G : nat → State → Feedback → Feedback) n st :
  ∃ fb, for_loop n (λ j s, upd_feedback_ (G j s) s) st = upd_feedback_ (λ _, fb) st.
Proof.
  set (P := λ (k : nat) (s : State), ∃ fb, s = upd_feedback_ (λ _, fb) st).
  change (P n (for_loop n (λ j s, upd_feedback_ (G j s) s) st)).
  apply for_loop_ind; unfold P; clear P.
  - exists (feedback_ st). by destruct st.
  - intros k s _ [fb ->]. eexists. reflexivity.
Qed.

Lemma fill_desired_only p st :
  ∃ fb, fill_desired p st = upd_feedback_ (λ _, fb) st.
Proof.
  unfold fill_desired.
  destruct (feedback_only_loop (λ i _, upd_desired
    (λ d, set_positions (<[i := q p !!! i]> (positions d)) d)) (joint_count st) st)
    as [fb1 H1].
  rewrite H1. destruct (_ =? _); [|by eexists].
  destruct (feedback_only_loop (λ i _, upd_desired
    (λ d, set_velocities (<[i := qd p !!! i]> (velocities d)) d))
    (joint_count st) (upd_feedback_ (λ _, fb1) st)) as [fb2 H2].
  rewrite H2. destruct (_ =? _); [|by eexists].
  destruct (feedback_only_loop (λ i _, upd_desired
    (λ d, set_accelerations (<[i := qdd p !!! i]> (accelerations d)) d))
    (joint_count st) (upd_feedback_ (λ _, fb2) (upd_feedback_ (λ _, fb1) st)))
    as [fb3 H3].
  rewrite H3. by eexists.
Qed.

Lemma fill_actual_only st : ∃ fb, fill_actual st = upd_feedback_ (λ _, fb) st.
Proof.
  unfold fill_actual.
  apply (feedback_only_loop (λ j s, upd_actual (λ a,
    set_effort (<[j := getEffort (joints_ s !!! j)]> (effort a))
      (set_velocities (<[j := getVelocity (joints_ s !!! j)]> (velocities a))
         (set_positions (<[j := getPosition (joints_ s !!! j)]> (positions a)) a))))).
Qed.

Section Monitor.

Variable sample : Trajectory → Q → TrajectoryPoint.
Variable shortest_angular_distance : Q → Q → Q.

Lemma fill_error_only st :
  ∃ fb, fill_error shortest_angular_distance st = upd_feedback_ (λ _, fb) st.
Proof.
  unfold fill_error.
  apply (feedback_only_loop (λ j s, upd_error (λ e,
    set_velocities
      (<[j := (velocities (actual (feedback_ s)) !!! j
               - velocities (desired (feedback_ s)) !!! j)%Q]> (velocities e))
      (set_positions
         (<[j := shortest_angular_distance
                   (positions (desired (feedback_ s)) !!! j)
                   (positions (actual (feedback_ s)) !!! j)]> (positions e)) e)))).
Qed.

Lemma monitored_only now sampler st :
  ∃ fb, monitored sample shortest_angular_distance now sampler st
        = upd_feedback_ (λ _, fb)
            (upd_last_sample_ (λ _, sample sampler now) st).
Proof.
  unfold monitored.
  destruct (fill_desired_only (sample sampler now)
              (upd_last_sample_ (λ _, sample sampler now) st)) as [fb1 ->].
  destruct (fill_actual_only (upd_feedback_ (λ _, fb1)
              (upd_last_sample_ (λ _, sample sampler now) st))) as [fb2 ->].
  destruct (fill_error_only (upd_feedback_ (λ _, fb2) (upd_feedback_ (λ _, fb1)
              (upd_last_sample_ (λ _, sample sampler now) st)))) as [fb3 ->].
  by eexists.
Qed.

Lemma upd_server_id st : upd_server_ (make_calls []) st = st.
Proof. by destruct st. Qed.

Lemma upd_server_ext (F G : Server → Server) st :
  F (server_ st) = G (server_ st) → upd_server_ F st = upd_server_ G st.
Proof. intros H. unfold upd_server_. by rewrite H. Qed.

Lemma path_check_joint_calls j st :
  path_check_joint j st = upd_server_ (make_calls (joint_path_calls st j)) st.
Proof.
  unfold path_check_joint, joint_path_calls.
  destruct (violates (q (path_tolerance_ st)) _ j) eqn:Hq;
    cbn [path_tolerance_ feedback_ upd_server_];
    destruct (violates (qd (path_tolerance_ st)) _ j) eqn:Hqd;
    cbn [app make_calls foldl]; by rewrite ?upd_server_id.
Qed.

Lemma path_check_calls st :
  path_check st = upd_server_ (make_calls (path_calls st)) st.
Proof.
  unfold path_check, path_calls.
  destruct (has_path_tolerance_ st); [|by rewrite upd_server_id].
  set (P := λ (k : nat) (s : State),
         s = upd_server_ (make_calls (flat_map (joint_path_calls st) (seq 0 k))) st).
  change (P (joint_count st) (for_loop (joint_count st) path_check_joint st)).
  apply for_loop_ind; unfold P; clear P.
  - by rewrite upd_server_id.
  - intros k s _ ->. rewrite path_check_joint_calls.
    change (joint_path_calls (upd_server_ _ st) k) with (joint_path_calls st k).
    change (upd_server_ ?G (upd_server_ ?F st))
      with (upd_server_ (λ s, G (F s)) st).
    apply upd_server_ext.
    rewrite seq_S, flat_map_app, make_calls_app. cbn [flat_map].
    by rewrite app_nil_r.
Qed.

Lemma goal_check_calls now sampler st :
  goal_check now sampler st
  = upd_server_ (make_calls (goal_calls now sampler st)) st.
Proof.
  unfold goal_check, goal_calls.
  destruct (Qgeb _ _); [|by rewrite upd_server_id].
  destruct (inside_tolerances st); [done|].
  destruct (Qgtb _ _); [done|by rewrite upd_server_id].
Qed.

Lemma command_desired_spec st :
  command_desired st
  = upd_joints_ (imap (λ j, setPositionCommand
                              (positions (desired (feedback_ st)) !!! j)
                              (velocities (desired (feedback_ st)) !!! j) 0)) st.
Proof.
  unfold command_desired, command_joint.
  apply (command_loop (λ j s, setPositionCommand
           (positions (desired (feedback_ s)) !!! j)
           (velocities (desired (feedback_ s)) !!! j) 0)).
  reflexivity.
Qed.

(** A tick with an active goal and a sample of the right size: the monitor
    makes the calls of the path check, then those of the goal check, and
    every joint is commanded. *)
Lemma update_active now sampler st :
  initialized_ st = true →
  isActive (server_ st) = true →
  sampler_ st = Some sampler →
  length (q (sample sampler now)) = joint_count st →
  let m := monitored sample shortest_angular_distance now sampler st in
  update sample shortest_angular_distance now st
  = (true, command_desired
             (upd_server_ (make_calls (path_calls m ++ goal_calls now sampler m)) m)).
Proof.
  intros Hinit Hact Hs Hlen m. unfold update.
  rewrite Hinit, Hact, Hs. cbn [negb].
  replace (joint_count (upd_last_sample_ _ st)) with (joint_count st) by done.
  apply Nat.eqb_eq in Hlen. rewrite Hlen.
  fold (monitored sample shortest_angular_distance now sampler st). fold m.
  rewrite path_check_calls, goal_check_calls.
  change (goal_calls now sampler (upd_server_ _ m)) with (goal_calls now sampler m).
  change (upd_server_ ?G (upd_server_ ?F m))
    with (upd_server_ (λ s, G (F s)) m).
  do 2 f_equal. apply upd_server_ext. by rewrite make_calls_app.
Qed.

(** A loop that keeps an invariant and assigns [val j] to entry [j] of a
    vector of the state: afterwards the entries below [n] hold the values. *)
Lemma assign_loop (I : State → Prop) (get : State → list Q)
    (body : nat → State → State) (val : nat → Q) n st :
  n ≤ length (get st) →
  I st →
  (∀ j s, I s → I (body j s)) →
  (∀ j s, I s → get (body j s) = <[j := val j]> (get s)) →
  I (for_loop n body st) ∧
  length (get (for_loop n body st)) = length (get st) ∧
  ∀ j, j < n → get (for_loop n body st) !!! j = val j.
Proof.
  intros Hn HI Hkeep Hget.
  set (P := λ (k : nat) (s : State),
         I s ∧ length (get s) = length (get st) ∧
         ∀ j, j < k → get s !!! j = val j).
  assert (HP : P n (for_loop n body st)).
  { apply for_loop_ind; unfold P; clear P.
    - split; [done|]. split; [done|]. intros j Hj. lia.
    - intros k s Hk (HIs & Hlen & Hvals).
      split; [by apply Hkeep|]. rewrite (Hget k s HIs), length_insert.
      split; [done|]. intros j Hj.
      destruct (decide (j = k)) as [->|Hne].
      + apply list_lookup_total_insert_eq. lia.
      + rewrite list_lookup_total_insert_ne by done. apply Hvals. lia. }
  exact HP.
Qed.

Lemma loop_preserves {A} (proj : State → A) (body : nat → State → State) n st :
  (∀ j s, proj (body j s) = proj s) → proj (for_loop n body st) = proj st.
Proof.
  intros H. induction n as [|n IH]; [done|]. by rewrite for_loop_S, H.
Qed.

Lemma fill_desired_positions p st :
  joint_count st ≤ length (positions (desired (feedback_ st))) →
  let st1 := fill_desired p st in
  joints_ st1 = joints_ st ∧
  actual (feedback_ st1) = actual (feedback_ st) ∧
  error (feedback_ st1) = error (feedback_ st) ∧
  ∀ j, j < joint_count st → positions (desired (feedback_ st1)) !!! j = q p !!! j.
Proof.
  intros Hlen. cbn zeta. unfold fill_desired.
  destruct (assign_loop
    (λ s, joints_ s = joints_ st ∧ actual (feedback_ s) = actual (feedback_ st)
          ∧ error (feedback_ s) = error (feedback_ st))
    (λ s, positions (desired (feedback_ s)))
    (λ i st, upd_feedback_ (upd_desired
       (λ d, set_positions (<[i := q p !!! i]> (positions d)) d)) st)
    (λ i, q p !!! i) (joint_count st) st Hlen) as ((Hjs & Ha & He) & _ & Hvals);
    [done|done|done|].
  set (st1 := for_loop _ _ st) in *.
  assert (Hkeep : ∀ (body : nat → State → State) n,
            (∀ j s, joints_ (body j s) = joints_ s) →
            (∀ j s, actual (feedback_ (body j s)) = actual (feedback_ s)) →
            (∀ j s, error (feedback_ (body j s)) = error (feedback_ s)) →
            (∀ j s, positions (desired (feedback_ (body j s)))
                    = positions (desired (feedback_ s))) →
            joints_ (for_loop n body st1) = joints_ st ∧
            actual (feedback_ (for_loop n body st1)) = actual (feedback_ st) ∧
            error (feedback_ (for_loop n body st1)) = error (feedback_ st) ∧
            ∀ j, j < joint_count st →
                 positions (desired (feedback_ (for_loop n body st1))) !!! j
                 = q p !!! j).
  { intros body n H1 H2 H3 H4.
    rewrite (loop_preserves joints_ body n st1 H1).
    rewrite (loop_preserves (λ s, actual (feedback_ s)) body n st1 H2).
    rewrite (loop_preserves (λ s, error (feedback_ s)) body n st1 H3).
    rewrite (loop_preserves (λ s, positions (desired (feedback_ s))) body n st1 H4).
    done. }
  destruct (_ =? _); [|done].
  destruct (_ =? _).
  - match goal with
    | |- context [for_loop ?n ?b (for_loop ?n' ?b' st1)] =>
        destruct (Hkeep b' n') as (K1 & K2 & K3 & K4); try done;
        set (st2 := for_loop n' b' st1) in *
    end.
    split; [|split; [|split]].
    + rewrite (loop_preserves joints_); done.
    + rewrite (loop_preserves (λ s, actual (feedback_ s))); done.
    + rewrite (loop_preserves (λ s, error (feedback_ s))); done.
    + intros j Hj.
      rewrite (loop_preserves (λ s, positions (desired (feedback_ s)))); [|done].
      by apply K4.
  - apply Hkeep; done.
Qed.


Lemma fill_actual_positions st :
  joint_count st ≤ length (positions (actual (feedback_ st))) →
  let st1 := fill_actual st in
  joints_ st1 = joints_ st ∧
  desired (feedback_ st1) = desired (feedback_ st) ∧
  error (feedback_ st1) = error (feedback_ st) ∧
  ∀ j, j < joint_count st →
       positions (actual (feedback_ st1)) !!! j = getPosition (joints_ st !!! j).
Proof.
  intros Hlen. cbn zeta. unfold fill_actual.
  destruct (assign_loop
    (λ s, joints_ s = joints_ st ∧ desired (feedback_ s) = desired (feedback_ st)
          ∧ error (feedback_ s) = error (feedback_ st))
    (λ s, positions (actual (feedback_ s)))
    (λ j st, let h := joints_ st !!! j in
       upd_feedback_ (upd_actual (λ a,
         set_effort (<[j := getEffort h]> (effort a))
           (set_velocities (<[j := getVelocity h]> (velocities a))
              (set_positions (<[j := getPosition h]> (positions a)) a)))) st)
    (λ j, getPosition (joints_ st !!! j)) (joint_count st) st Hlen)
    as ((Hjs & Hd & He) & _ & Hvals); try done.
  intros j s (Hjs & _). cbn. by rewrite Hjs.
Qed.

Lemma fill_error_positions st :
  joint_count st ≤ length (positions (error (feedback_ st))) →
  let st1 := fill_error shortest_angular_distance st in
  ∀ j, j < joint_count st →
       positions (error (feedback_ st1)) !!! j
       = shortest_angular_distance (positions (desired (feedback_ st)) !!! j)
                                   (positions (actual (feedback_ st)) !!! j).
Proof.
  intros Hlen. cbn zeta. unfold fill_error.
  destruct (assign_loop
    (λ s, desired (feedback_ s) = desired (feedback_ st)
          ∧ actual (feedback_ s) = actual (feedback_ st))
    (λ s, positions (error (feedback_ s)))
    (λ j st,
       let fb := feedback_ st in
       let ep := shortest_angular_distance (positions (desired fb) !!! j)
                                           (positions (actual fb) !!! j) in
       let ev := (velocities (actual fb) !!! j - velocities (desired fb) !!! j)%Q in
       upd_feedback_ (upd_error (λ e,
         set_velocities (<[j := ev]> (velocities e))
           (set_positions (<[j := ep]> (positions e)) e))) st)
    (λ j, shortest_angular_distance (positions (desired (feedback_ st)) !!! j)
                                    (positions (actual (feedback_ st)) !!! j))
    (joint_count st) st Hlen) as (_ & _ & Hvals); try done.
  intros j s (Hd & Ha). cbn. by rewrite Hd, Ha.
Qed.


(** [init] gives the feedback vectors an entry per joint. *)
Lemma init_sizes nh manager st0 st :
  init nh manager st0 = (true, st) →
  length (positions (desired (feedback_ st))) = joint_count st ∧
  length (positions (actual (feedback_ st))) = joint_count st ∧
  length (positions (error (feedback_ st))) = joint_count st.
Proof.
  unfold init. destruct manager as [m|]; [|done].
  destruct (param_joints nh) as [[elems|]|]; try done.
  destruct (read_joint_names _ _) as [[] names]; cbn [negb]; [|done].
  intros [= <-]. unfold joint_count.
  cbn [feedback_ joints_ upd_initialized_ upd_server_ upd_goal_tolerance_
       upd_path_tolerance_ upd_feedback_ resize_feedback upd_desired upd_actual
       upd_error desired actual error positions set_positions set_velocities
       set_accelerations set_effort].
  by rewrite !resize_length.
Qed.



(** *** Every step of the controller goes through the result channel *)

Lemma advances_same st st' : server_ st' = server_ st → advances st st'.
Proof. intros H. exists []. rewrite H. apply follows_refl. Qed.

Lemma advances_trans st1 st2 st3 :
  advances st1 st2 → advances st2 st3 → advances st1 st3.
Proof. intros [l H] [l' H']. exists (l ++ l'). by eapply follows_trans. Qed.

Lemma advances_call o st : advances st (upd_server_ (set_terminal o) st).
Proof. exists [o]. apply follows_set_terminal. Qed.

(** Feedback and cancellation requests leave the result channel alone. *)
Lemma advances_quiet st st' :
  calls (server_ st') = calls (server_ st) →
  outcomes (server_ st') = outcomes (server_ st) →
  active (server_ st') = active (server_ st) →
  advances st st'.
Proof.
  intros Hc Ho Ha. exists []. unfold follows.
  rewrite Hc, Ho, Ha, andb_true_r.
  destruct (active (server_ st)); simpl; by rewrite !app_nil_r.
Qed.

Lemma update_advances now st :
  advances st (update sample shortest_angular_distance now st).2.
Proof.
  destruct (initialized_ st) eqn:Hinit;
    [|unfold update; rewrite Hinit; by apply advances_same].
  destruct (isActive (server_ st)) eqn:Hact, (sampler_ st) as [sampler|] eqn:Hs.
  1: destruct (decide (length (q (sample sampler now)) = joint_count st))
       as [Hlen|Hlen].
  - rewrite (update_active now sampler st Hinit Hact Hs Hlen).
    rewrite command_desired_spec. cbn [snd].
    destruct (monitored_only now sampler st) as [fb Hm].
    eexists.
    change (server_ (upd_joints_ _ (upd_server_ ?F ?m))) with (F (server_ m)).
    replace (server_ st) with (server_ (monitored sample shortest_angular_distance now sampler st))
      by (by rewrite Hm).
    apply follows_make_calls.
  - unfold update. rewrite Hinit, Hact, Hs. cbn [negb].
    apply Nat.eqb_neq in Hlen.
    replace (joint_count (upd_last_sample_ _ st)) with (joint_count st) by done.
    rewrite Hlen. by apply advances_same.
  - unfold update. rewrite Hinit, Hact, Hs. cbn [negb].
    destruct (_ =? _); [rewrite hold_position_spec|]; by apply advances_same.
  - unfold update. rewrite Hinit, Hact. cbn [negb].
    destruct (_ =? _); [rewrite hold_position_spec|]; by apply advances_same.
  - unfold update. rewrite Hinit, Hact. cbn [negb].
    destruct (_ =? _); [rewrite hold_position_spec|]; by apply advances_same.
Qed.

Lemma preempt_advances force st : advances st (preempt force st).2.
Proof.
  unfold preempt. destruct (initialized_ st); [|by apply advances_same].
  destruct (isActive (server_ st)); [|by apply advances_same].
  destruct force; [apply advances_call|by apply advances_same].
Qed.

Lemma happen_advances st e :
  advances st (happen sample shortest_angular_distance st e).
Proof.
  destruct e as [now rs| |force]; cbn [happen].
  - eapply advances_trans; [|apply update_advances]. by apply advances_same.
  - by apply advances_quiet.
  - apply preempt_advances.
Qed.

Lemma events_advance events st :
  advances st (foldl (happen sample shortest_angular_distance) st events).
Proof.
  revert st. induction events as [|e events IH]; intros st;
    [by apply advances_same|].
  cbn [foldl]. eapply advances_trans; [apply happen_advances|apply IH].
Qed.

Lemma feedback_loop_advances sleeps st st' :
  feedback_loop sample shortest_angular_distance sleeps st = Some st' →
  advances st st'.
Proof.
  revert st. induction sleeps as [|[stamp events] sleeps IH]; intros st;
    cbn [feedback_loop];
    (destruct (isActive (server_ st));
     [|intros [= <-]; by apply advances_same]); cbn [negb];
    (destruct (isPreemptRequested (server_ st));
     [intros [= <-];
      eapply advances_trans; [apply advances_call|by apply advances_same]|]);
    [done|].
  intros Hloop. apply IH in Hloop.
  eapply advances_trans; [|exact Hloop].
  eapply advances_trans; [|apply events_advance]. by apply advances_quiet.
Qed.

End Monitor.

(** ** Goal intake and the result channel *)

Lemma flow_advances f k st0 :
  advances st0 (flow_state f) →
  (∀ st, advances st (flow_state (k st))) →
  advances st0 (flow_state (and_then f k)).
Proof.
  intros Hf Hk. destruct f as [st|st]; cbn [and_then flow_state] in *; [done|].
  eapply advances_trans; [exact Hf|apply Hk].
Qed.

Lemma abort_advances code text st st' :
  server_ st' = server_ st → advances st (abort code text st').
Proof.
  intros H. eapply advances_trans; [apply advances_same, H|].
  apply advances_call.
Qed.

Lemma convert_path_tolerances_advances goal st :
  advances st (flow_state (convert_path_tolerances goal st)).
Proof.
  unfold convert_path_tolerances. destruct (_ =? _); [|by apply advances_same].
  destruct (convert_tolerances _ _ _ _) as [[] tol]; cbn [flow_state];
    [by apply advances_same|by apply abort_advances].
Qed.

Lemma convert_goal_tolerances_advances goal st :
  advances st (flow_state (convert_goal_tolerances goal st)).
Proof.
  unfold convert_goal_tolerances. destruct (_ =? _); [|by apply advances_same].
  destruct (convert_tolerances _ _ _ _) as [[] tol]; cbn [flow_state];
    [by apply advances_same|by apply abort_advances].
Qed.

Section Intake.

Variable sample : Trajectory → Q → TrajectoryPoint.
Variable spliceTrajectories : Trajectory → Trajectory → Q → option Trajectory.
Variable shortest_angular_distance : Q → Q → Q.

Lemma executeCb_intake_advances env goal st :
  advances st (flow_state (executeCb_intake spliceTrajectories env goal st)).
Proof.
  unfold executeCb_intake.
  destruct (initialized_ st); cbn [negb flow_state]; [|apply advances_call].
  destruct (_ =? 0); [by apply advances_same|].
  destruct (_ =? joint_count st); cbn [negb flow_state];
    [|by apply abort_advances].
  destruct (trajectoryFromMsg _ _ _) as [new_trajectory|];
    [|by apply abort_advances].
  destruct (build_executable _ _ _ _ _) as [executable|];
    [|by apply abort_advances].
  apply flow_advances;
    [eapply advances_trans;
     [|apply convert_path_tolerances_advances]; by apply advances_same|].
  intros st1. apply flow_advances; [apply convert_goal_tolerances_advances|].
  intros st2. destruct (requestStart_reply env); cbn [negb flow_state];
    [by apply advances_same|by apply abort_advances].
Qed.

Lemma executeCb_advances env sleeps goal st st' :
  executeCb sample spliceTrajectories shortest_angular_distance
            env sleeps goal st = Some st' →
  advances st st'.
Proof.
  unfold executeCb.
  pose proof (executeCb_intake_advances env goal st) as Hin.
  destruct (executeCb_intake _ _ _ _) as [st1|st1]; cbn [flow_state] in Hin.
  - by intros [= <-].
  - destruct (feedback_loop _ _ _ _) as [st2|] eqn:Hloop; [|done].
    intros [= <-]. apply feedback_loop_advances in Hloop.
    eapply advances_trans; [exact Hin|].
    eapply advances_trans; [exact Hloop|].
    apply advances_same. unfold executeCb_finish.
    by destruct (_ && _).
Qed.

End Intake.

(** ** At most one outcome per goal *)

Lemma flat_map_nil {A B} (f : A → list B) (l : list A) :
  (∀ x, x ∈ l → f x = []) → flat_map f l = [].
Proof.
  induction l as [|x l IH]; [done|]. intros H. cbn [flat_map].
  rewrite (H x), IH; [done| |]; [|by left].
  intros y Hy. apply H. by right.
Qed.

(** The first joint with a violation makes the first calls of the path
    check. *)
Lemma path_calls_first st j :
  has_path_tolerance_ st = true →
  j < joint_count st →
  (∀ i, i < j → joint_path_calls st i = []) →
  ∃ rest, path_calls st = joint_path_calls st j ++ rest.
Proof.
  intros Hhas Hj Hbefore. unfold path_calls. rewrite Hhas.
  replace (joint_count st) with (j + S (joint_count st - S j)) by lia.
  rewrite seq_app, flat_map_app. cbn [seq flat_map].
  rewrite flat_map_nil.
  - eexists. reflexivity.
  - intros i Hi. apply Hbefore. apply list_elem_of_In, in_seq in Hi. lia.
Qed.

Section Outcomes.

Variable sample : Trajectory → Q → TrajectoryPoint.
Variable spliceTrajectories : Trajectory → Trajectory → Q → option Trajectory.
Variable shortest_angular_distance : Q → Q → Q.

(** C1.  At most one outcome is reported for a goal.  (1) From the moment
    the server accepts a goal, through [executeCb] (with the ticks,
    cancellation requests and preemptions that happen while it waits) and
    whatever ticks and preemptions follow, the client is sent at most one
    outcome.  (2) Once a tick has reported an outcome, nothing that follows
    reports another.  (3) In a tick whose path check finds a first
    violation at joint [j], exactly one outcome is reported: the
    [PATH_TOLERANCE_VIOLATED] abort of that first violation (the position
    one if the position is out of tolerance, else the velocity one); the
    calls made for later violations and by the goal check of the same tick
    are logged by the server and not reported. *)
Theorem one_outcome_per_goal :
  (∀ env sleeps goal st st1 events,
     executeCb sample spliceTrajectories shortest_angular_distance
               env sleeps goal (upd_server_ accept_goal st) = Some st1 →
     ∃ reported,
       outcomes (server_ (foldl (happen sample shortest_angular_distance) st1 events))
       = outcomes (server_ st) ++ reported ∧
       length reported ≤ 1) ∧
  (∀ now st events,
     outcomes (server_ (update sample shortest_angular_distance now st).2) ≠ outcomes (server_ st) →
     outcomes (server_ (foldl (happen sample shortest_angular_distance) (update sample shortest_angular_distance now st).2 events))
     = outcomes (server_ (update sample shortest_angular_distance now st).2)) ∧
  (∀ now sampler st j,
     initialized_ st = true →
     isActive (server_ st) = true →
     sampler_ st = Some sampler →
     length (q (sample sampler now)) = joint_count st →
     has_path_tolerance_ st = true →
     let m := monitored sample shortest_angular_distance now sampler st in
     let tol := path_tolerance_ st in
     let err := error (feedback_ m) in
     j < joint_count st →
     (∀ i, i < j → within (q tol) (positions err) i ∧
                   within (qd tol) (velocities err) i) →
     ¬ within (q tol) (positions err) j ∨ ¬ within (qd tol) (velocities err) j →
     ∃ first later,
       calls (server_ (update sample shortest_angular_distance now st).2)
       = calls (server_ st) ++ first :: later ∧
       later = tail (path_calls m ++ goal_calls now sampler m) ∧
       outcomes (server_ (update sample shortest_angular_distance now st).2) = outcomes (server_ st) ++ [first] ∧
       isActive (server_ (update sample shortest_angular_distance now st).2) = false ∧
       (¬ within (q tol) (positions err) j → first = path_position_abort) ∧
       (within (q tol) (positions err) j → first = path_velocity_abort)).
Proof.
  split; [|split].
  - intros env sleeps goal st st1 events Hexec.
    apply executeCb_advances in Hexec.
    pose proof (events_advance sample shortest_angular_distance events st1)
      as Hev.
    destruct (advances_trans _ _ _ Hexec Hev) as [l Hl].
    apply follows_outcomes in Hl as (reported & Ho & Hlen).
    exists reported. split; [exact Ho|exact Hlen].
  - intros now st events Hchanged.
    destruct (update_advances sample shortest_angular_distance now st)
      as [l (_ & Ho & Ha)].
    assert (Hoff : active (server_ (update sample shortest_angular_distance now st).2) = false).
    { rewrite Ha. destruct l as [|o l]; [|apply andb_false_r].
      destruct Hchanged. rewrite Ho.
      destruct (active (server_ st)); cbn [take]; by rewrite app_nil_r. }
    destruct (events_advance sample shortest_angular_distance events
                (update sample shortest_angular_distance now st).2) as [l' Hl'].
    by apply (follows_inactive _ _ _ Hl').
  - intros now sampler st j Hinit Hact Hs Hlen Hhas m tol err Hj Hbefore Hat.
    rewrite (update_active sample shortest_angular_distance
               now sampler st Hinit Hact Hs Hlen).
    fold m. rewrite command_desired_spec. cbn [snd].
    change (server_ (upd_joints_ _ (upd_server_ ?F m))) with (F (server_ m)).
    destruct (monitored_only sample shortest_angular_distance now sampler st)
      as [fb Hm]. fold m in Hm.
    assert (Hsrv : server_ m = server_ st) by (by rewrite Hm).
    assert (Htol : path_tolerance_ m = tol) by (by rewrite Hm).
    assert (Hn : joint_count m = joint_count st) by (by rewrite Hm).
    assert (Hhas' : has_path_tolerance_ m = true) by (by rewrite Hm).
    destruct (path_calls_first m j) as [rest Hrest];
      [done|by rewrite Hn| |].
    { intros i Hi. destruct (Hbefore i Hi) as [Hp Hv].
      unfold joint_path_calls. rewrite Htol. fold err.
      apply violates_false in Hp, Hv. by rewrite Hp, Hv. }
    rewrite Hsrv.
    pose proof (follows_make_calls
                  (path_calls m ++ goal_calls now sampler m) (server_ st))
      as (Hc & Ho & Ha).
    unfold isActive in *. rewrite Hact in Ho, Ha.
    rewrite Hc, Ho, Ha, Hrest.
    unfold joint_path_calls. rewrite Htol. fold err.
    destruct (violates (q tol) (positions err) j) eqn:Hp.
    + apply violates_true in Hp.
      eexists _, _. repeat split; try done.
    + apply violates_false in Hp.
      destruct (violates (qd tol) (velocities err) j) eqn:Hv.
      * eexists _, _. repeat split; try done.
      * apply violates_false in Hv. by destruct Hat.
Qed.

End Outcomes.

(** ** Goal intake *)

(** What the two tolerance conversions can do to the state. *)
Lemma convert_path_tolerances_shape goal st :
  ∃ has tol,
    let st1 := upd_path_tolerance_ (λ _, tol)
                 (upd_has_path_tolerance_ (λ _, has) st) in
    convert_path_tolerances goal st = Running st1 ∨
    convert_path_tolerances goal st
    = Returned (abort INVALID_JOINTS "Unable to convert path tolerances" st1).
Proof.
  unfold convert_path_tolerances. destruct (_ =? _).
  - destruct (convert_tolerances _ _ _ _) as [[] tol];
      exists true, tol; [by left|by right].
  - exists false, (path_tolerance_ st). left. by destruct st.
Qed.

Lemma convert_goal_tolerances_shape goal st :
  ∃ tol,
    let st1 := upd_goal_tolerance_ (λ _, tol) st in
    convert_goal_tolerances goal st = Running st1 ∨
    convert_goal_tolerances goal st
    = Returned (abort INVALID_JOINTS "Unable to convert goal tolerances" st1).
Proof.
  unfold convert_goal_tolerances. destruct (_ =? _).
  - destruct (convert_tolerances _ _ _ _) as [[] tol];
      exists tol; [by left|by right].
  - eexists. left. reflexivity.
Qed.

(** Modelled from the spec: the conversion keeps one point per message
    point. *)
Lemma trajectoryFromMsg_length accept_time message joints new_trajectory :
  trajectoryFromMsg accept_time message joints = Some new_trajectory →
  length new_trajectory = length (points message).
Proof.
  unfold trajectoryFromMsg. destruct (mapM _ _) as [mapping|]; [|done].
  intros [= <-]. by rewrite length_fmap.
Qed.

Lemma app_one_neq {A} (l : list A) (x : A) : l ≠ l ++ [x].
Proof.
  intros H. apply (f_equal length) in H. rewrite length_app in H.
  simpl in H. lia.
Qed.

Section IntakeClaims.

Variable sample : Trajectory → Q → TrajectoryPoint.
Variable spliceTrajectories : Trajectory → Trajectory → Q → option Trajectory.
Variable shortest_angular_distance : Q → Q → Q.

(** C6.  A goal with no trajectory points, on an initialised controller:
    [executeCb] asks the manager to stop the controller and returns.
    Nothing else changes: no result is set on the goal, the sampler is the
    one there was, and the only request sent to the manager is
    [requestStop]. *)
Theorem empty_trajectory_stops env sleeps goal st :
  initialized_ st = true →
  points (trajectory goal) = [] →
  let st' := upd_manager_calls (λ cs, cs ++ [RequestStop (name_ st)]) st in
  executeCb_intake spliceTrajectories env goal st = Returned st' ∧
  executeCb sample spliceTrajectories shortest_angular_distance
            env sleeps goal st = Some st' ∧
  server_ st' = server_ st ∧
  sampler_ st' = sampler_ st ∧
  manager_calls st' = manager_calls st ++ [RequestStop (name_ st)].
Proof.
  intros Hinit Hempty st'.
  assert (Hin : executeCb_intake spliceTrajectories env goal st = Returned st').
  { unfold executeCb_intake. by rewrite Hinit, Hempty. }
  unfold executeCb. by rewrite Hin.
Qed.

(** C10.  When [executeCb] aborts the goal before it installs the sampler
    (the controller is not initialised, the count of joint names differs
    from the count of joints, the message cannot be converted, or the
    splice fails), the only change to the state is the [setAborted] call on
    the server: the sampler, [last_sample_], both tolerances, the path
    tolerance flag and [goal_time_tolerance_] are as before. *)
Theorem intake_abort_atomic env sleeps goal st :
  initialized_ st = false ∨
  (initialized_ st = true ∧ points (trajectory goal) ≠ [] ∧
   (length (joint_names (trajectory goal)) ≠ joint_count st ∨
    trajectoryFromMsg (now_convert env) (trajectory goal) (joint_names_ st)
    = None ∨
    ∃ new_trajectory,
      trajectoryFromMsg (now_convert env) (trajectory goal) (joint_names_ st)
      = Some new_trajectory ∧
      build_executable spliceTrajectories env goal new_trajectory st = None)) →
  ∃ result text,
    let st' := upd_server_ (setAborted result text) st in
    executeCb_intake spliceTrajectories env goal st = Returned st' ∧
    executeCb sample spliceTrajectories shortest_angular_distance
              env sleeps goal st = Some st' ∧
    sampler_ st' = sampler_ st ∧
    last_sample_ st' = last_sample_ st ∧
    path_tolerance_ st' = path_tolerance_ st ∧
    goal_tolerance_ st' = goal_tolerance_ st ∧
    has_path_tolerance_ st' = has_path_tolerance_ st ∧
    goal_time_tolerance_ st' = goal_time_tolerance_ st.
Proof.
  intros Hcase.
  assert (∃ result text,
            executeCb_intake spliceTrajectories env goal st
            = Returned (upd_server_ (setAborted result text) st))
    as (result & text & Hin).
  { unfold executeCb_intake.
    destruct Hcase as [Hinit|(Hinit & Hpoints & Hcase)];
      rewrite Hinit; cbn [negb]; [by eexists _, _|].
    destruct (points (trajectory goal)) as [|pt pts]; [done|]. cbn [length Nat.eqb].
    destruct (_ =? joint_count st) eqn:Hcount; cbn [negb]; [|by eexists _, _].
    apply Nat.eqb_eq in Hcount.
    destruct Hcase as [Hne|[Hconv|(new_trajectory & Hconv & Hsplice)]];
      [done| |]; rewrite Hconv; [by eexists _, _|].
    rewrite Hsplice. by eexists _, _. }
  exists result, text. cbn zeta. split; [exact Hin|].
  unfold executeCb. by rewrite Hin.
Qed.

(** C4.  A goal for which [executeCb] gets as far as asking the manager to
    start the controller, and the manager refuses: the goal is aborted with
    [GOAL_TOLERANCE_VIOLATED] and the text "Cannot execute trajectory,
    unable to start controller.", and [executeCb] returns there: it
    publishes no feedback and does not reach the feedback loop. *)
Theorem start_refused env sleeps goal st :
  isActive (server_ st) = true →
  requestStart_reply env = false →
  manager_calls (flow_state (executeCb_intake spliceTrajectories env goal st))
  = manager_calls st ++ [RequestStart (name_ st)] →
  ∃ st',
    executeCb_intake spliceTrajectories env goal st = Returned st' ∧
    executeCb sample spliceTrajectories shortest_angular_distance
              env sleeps goal st = Some st' ∧
    calls (server_ st') = calls (server_ st) ++ [start_refused_abort] ∧
    outcomes (server_ st') = outcomes (server_ st) ++ [start_refused_abort] ∧
    isActive (server_ st') = false ∧
    published (server_ st') = published (server_ st).
Proof.
  intros Hact Hreply Hcalls.
  assert (∃ st', executeCb_intake spliceTrajectories env goal st = Returned st' ∧
            server_ st' = setAborted (mkResult (Some GOAL_TOLERANCE_VIOLATED))
              "Cannot execute trajectory, unable to start controller."
              (server_ st)) as (st' & Hin & Hsrv).
  { revert Hcalls. unfold executeCb_intake.
    destruct (initialized_ st); cbn [negb flow_state];
      [|intros H; by apply app_one_neq in H].
    destruct (_ =? 0); cbn [flow_state];
      [intros H; by apply app_inv_head in H|].
    destruct (_ =? joint_count st); cbn [negb flow_state];
      [|intros H; by apply app_one_neq in H].
    destruct (trajectoryFromMsg _ _ _) as [new_trajectory|]; cbn [flow_state];
      [|intros H; by apply app_one_neq in H].
    destruct (build_executable _ _ _ _ _) as [executable|]; cbn [flow_state];
      [|intros H; by apply app_one_neq in H].
    destruct (convert_path_tolerances_shape goal
                (upd_sampler_ (λ _, Some executable) st))
      as (has & ptol & [-> | ->]); cbn [and_then flow_state];
      [|intros H; by apply app_one_neq in H].
    match goal with
    | |- context [convert_goal_tolerances goal ?s] =>
        destruct (convert_goal_tolerances_shape goal s)
          as (gtol & [-> | ->]); cbn [and_then flow_state];
          [|intros H; by apply app_one_neq in H]
    end.
    rewrite Hreply. cbn [negb flow_state]. intros _.
    eexists. split; reflexivity. }
  exists st'. split; [exact Hin|]. split; [unfold executeCb; by rewrite Hin|].
  rewrite Hsrv. unfold isActive in *. unfold setAborted, set_terminal.
  cbn [calls outcomes active published]. by rewrite Hact.
Qed.

End IntakeClaims.

(** The tolerance conversions and the start request keep the sampler. *)
Lemma intake_tail_sampler (goal : Goal) (reply : bool) (st : State) :
  sampler_ (flow_state (
    st ←← convert_path_tolerances goal st;
    st ←← convert_goal_tolerances goal st;
    let st := upd_goal_time_tolerance_ (λ _, goal_time_tolerance goal) st in
    let st := requestStart st in
    if negb reply then
      Returned (abort GOAL_TOLERANCE_VIOLATED
                  "Cannot execute trajectory, unable to start controller." st)
    else
      Running (upd_preempted_ (λ _, false) st)))
  = sampler_ st.
Proof.
  destruct (convert_path_tolerances_shape goal st) as (has & ptol & [-> | ->]);
    cbn [and_then flow_state]; [|done].
  match goal with
  | |- context [convert_goal_tolerances goal ?s] =>
      destruct (convert_goal_tolerances_shape goal s) as (gtol & [-> | ->]);
        cbn [and_then flow_state]; [|done]
  end.
  by destruct reply.
Qed.

(** C5.  A goal whose message converts for the controller's joints and has
    exactly one trajectory point, taken by an initialised controller that was
    not preempted: the trajectory given to the new sampler has exactly two
    points.  The second is the goal's point; the first is synthesised from
    the present state: the present joint positions, the present joint
    velocities if the goal's point has velocities (none otherwise), zero
    accelerations if the goal's point has accelerations (none otherwise), and
    the reading of the clock as its time. *)
Theorem single_point_goal
    (spliceTrajectories : Trajectory → Trajectory → Q → option Trajectory)
    (env : Env) (goal : Goal) (st : State) :
  initialized_ st = true →
  preempted_ st = false →
  length (points (trajectory goal)) = 1 →
  length (joint_names (trajectory goal)) = joint_count st →
  is_Some (trajectoryFromMsg (now_convert env) (trajectory goal)
                             (joint_names_ st)) →
  ∃ current point,
    trajectoryFromMsg (now_convert env) (trajectory goal) (joint_names_ st)
    = Some [point] ∧
    sampler_ (flow_state (executeCb_intake spliceTrajectories env goal st))
    = Some [current; point] ∧
    q current = getPosition <$> joints_ st ∧
    qd current = (if 0 <? length (qd point)
                  then getVelocity <$> joints_ st else []) ∧
    qdd current = (if 0 <? length (qdd point)
                   then replicate (joint_count st) 0%Q else []) ∧
    time current = now_current env.
Proof.
  intros Hinit Hpre Hone Hcount [new_trajectory Hconv].
  pose proof (trajectoryFromMsg_length _ _ _ _ Hconv) as Hlen.
  rewrite Hone in Hlen.
  destruct new_trajectory as [|point [|]]; try done. clear Hlen.
  set (current := getPointFromCurrent (now_current env)
                    (0 <? length (qd point)) (0 <? length (qdd point)) false st).
  exists current, point. split; [exact Hconv|].
  split.
  - unfold executeCb_intake. rewrite Hinit, Hone. cbn [negb Nat.eqb].
    apply Nat.eqb_eq in Hcount. rewrite Hcount. cbn [negb]. rewrite Hconv.
    unfold build_executable. rewrite Hpre. cbn [length Nat.ltb Nat.leb].
    change ([point] !!! 0) with point. fold current.
    by rewrite intake_tail_sampler.
  - destruct (getPointFromCurrent_fields (now_current env)
                (0 <? length (qd point)) (0 <? length (qdd point)) false st)
      as (Hq & Hqd & Hqdd & Ht).
    fold current in Hq, Hqd, Hqdd, Ht. done.
Qed.

(** ** The tolerance conversion, as written and as specified *)

(** The inner loop as written never gets past its first entry: it breaks on
    a match and returns on a mismatch, and copies nothing. *)
Lemma convert_tolerance_inner_first jname j entries tol :
  convert_tolerance_inner jname j (-1) entries tol
  = (match entries with
     | [] => true
     | e :: _ => String.eqb jname (name e)
     end, tol).
Proof. destruct entries as [|e rest]; [done|]. simpl. by destruct (String.eqb _ _). Qed.

(** So the conversion as written copies no tolerance at all, and goes through
    exactly when every joint has the name of the first entry. *)
Lemma convert_tolerances_as_written js j entries tol :
  convert_tolerances js j entries tol
  = (forallb (λ h, match entries with
                   | [] => true
                   | e :: _ => String.eqb (getName h) (name e)
                   end) js, tol).
Proof.
  revert j. induction js as [|h js IH]; intros j; [done|].
  cbn [convert_tolerances forallb]. rewrite convert_tolerance_inner_first.
  destruct entries as [|e rest]; [by rewrite IH|].
  destruct (String.eqb _ _); [by rewrite IH|done].
Qed.

(** C2.  The conversion of the tolerances as the source has it, against the
    conversion the claim describes.  With two joints [j1], [j2] and a path
    (or goal) tolerance entry for each, the described conversion resolves
    both joints and copies their values, and the source aborts the goal with
    [INVALID_JOINTS].  With the one joint [j1] and its entry, the source goes
    on to the start request and has copied nothing: the tolerance slot still
    holds zero. *)
Theorem tolerance_conversion_as_written :
  resolve_tolerances_spec (joints_ two_joints) 0 demo_tolerances
                          (path_tolerance_ two_joints)
  = Some (mkPoint [1 # 10; 3 # 10] [2 # 10; 4 # 10] [0%Q; 0%Q] 0%Q) ∧
  outcomes (server_ (flow_state (executeCb_intake no_splice demo_env
     (mkGoal two_joint_trajectory demo_tolerances [] 0%Q) two_joints)))
  = [Aborted (mkResult (Some INVALID_JOINTS)) "Unable to convert path tolerances"] ∧
  outcomes (server_ (flow_state (executeCb_intake no_splice demo_env
     (mkGoal two_joint_trajectory [] demo_tolerances 0%Q) two_joints)))
  = [Aborted (mkResult (Some INVALID_JOINTS)) "Unable to convert goal tolerances"] ∧
  (∃ st, executeCb_intake no_splice demo_env
           (mkGoal one_joint_trajectory (take 1 demo_tolerances) [] 0%Q) one_joint
         = Running st ∧
         has_path_tolerance_ st = true ∧
         q (path_tolerance_ st) = [0%Q] ∧
         resolve_tolerances_spec (joints_ one_joint) 0 (take 1 demo_tolerances)
                                 (path_tolerance_ one_joint)
         = Some (mkPoint [1 # 10] [2 # 10] [0%Q] 0%Q)).
Proof.
  split; [reflexivity|]. split; [reflexivity|]. split; [reflexivity|].
  eexists. split; [reflexivity|]. split; [reflexivity|]. split; reflexivity.
Qed.

(** ** [init] and the path tolerance flag *)

Lemma add_joint_handles_flag manager n st :
  has_path_tolerance_ (for_loop n (add_joint_handle manager) st)
  = has_path_tolerance_ st.
Proof.
  induction n as [|n IH]; [done|]. by rewrite for_loop_S.
Qed.

(** [init] never assigns [has_path_tolerance_]. *)
Lemma init_keeps_flag nh manager st :
  has_path_tolerance_ (init nh manager st).2 = has_path_tolerance_ st.
Proof.
  unfold init. destruct manager as [m|]; [|done].
  destruct (param_joints nh) as [[elems|]|]; try done.
  destruct (read_joint_names _ _) as [[] names]; cbn [negb snd]; [|done].
  cbn [has_path_tolerance_ upd_initialized_ upd_server_ upd_goal_tolerance_
       upd_path_tolerance_ upd_feedback_].
  by rewrite add_joint_handles_flag.
Qed.

(** C8.  [init] leaves [has_path_tolerance_] as it finds it.  On a fresh
    object whose flag happens to hold true, [init] for the joints [j1], [j2]
    returns true and the flag is still true: path tolerance checking is not
    switched off by [init]. *)
Theorem init_leaves_path_flag :
  (∀ nh manager st,
     has_path_tolerance_ (init nh manager st).2 = has_path_tolerance_ st) ∧
  (init (demo_node ["j1"; "j2"]) (Some demo_manager) (constructed false true)).1
  = true ∧
  has_path_tolerance_
    (init (demo_node ["j1"; "j2"]) (Some demo_manager) (constructed false true)).2
  = true.
Proof.
  split; [apply init_keeps_flag|]. split; reflexivity.
Qed.

(** On a fresh object, [init] zero-fills the path tolerances, and a zero
    tolerance is never violated: with the flag left true the path check runs
    and finds nothing. *)
Lemma zero_tolerance_never_violated n err j :
  violates (replicate n 0%Q) err j = false.
Proof.
  unfold violates. apply andb_false_iff. left.
  destruct (decide (j < n)) as [Hj|Hj].
  - by rewrite lookup_total_replicate_2.
  - rewrite list_lookup_total_alt.
    by rewrite (proj1 (lookup_replicate_None n 0%Q j)) by lia.
Qed.

Lemma init_fresh_tolerances nh manager initialized flag st :
  init nh manager (constructed initialized flag) = (true, st) →
  q (path_tolerance_ st) = replicate (joint_count st) 0%Q ∧
  qd (path_tolerance_ st) = replicate (joint_count st) 0%Q.
Proof.
  unfold init. destruct manager as [m|]; [|done].
  destruct (param_joints nh) as [[elems|]|]; try done.
  destruct (read_joint_names _ _) as [[] names]; cbn [negb]; [|done].
  intros [= <-]. unfold joint_count.
  cbn [path_tolerance_ joints_ upd_initialized_ upd_server_ upd_goal_tolerance_
       upd_path_tolerance_ upd_feedback_ resize_tolerance q qd set_q set_qd set_qdd].
  set (loop := for_loop _ _ _).
  assert (Hp : path_tolerance_ loop = empty_point).
  { unfold loop. clear loop. generalize (length names) at 1. intros n.
    induction n as [|n IH]; [done|]. by rewrite for_loop_S. }
  rewrite Hp. cbn [q qd empty_point]. by rewrite resize_nil.
Qed.

(** ** The theorems at concrete controllers *)

Ltac evaluate := vm_compute; reflexivity.

(** The goal is taken in: a two-point trajectory, default goal tolerances, no
    path tolerances, and one start request. *)
Example tracking_state :
  sampler_ tracking
  = Some [mkPoint [0; 0] [] [] 10; mkPoint [1; 2] [] [] (10 + 1)]%Q ∧
  q (goal_tolerance_ tracking) = [2 # 100; 2 # 100]%Q ∧
  has_path_tolerance_ tracking = false ∧
  manager_calls tracking = [RequestStart "arm_controller"].
Proof. split; [|split; [|split]]; evaluate. Qed.

(** Joint-count mismatch: [INVALID_JOINTS] at once, no request to the
    manager. *)
Example count_mismatch :
  let st := flow_state (executeCb_intake no_splice demo_env
                          (mkGoal one_joint_trajectory [] [] 0%Q) two_joints) in
  outcomes (server_ st)
  = [Aborted (mkResult (Some INVALID_JOINTS))
             "Trajectory goal size does not match controlled joints size."] ∧
  manager_calls st = [].
Proof. split; evaluate. Qed.

(** Time overrun, with the joints stuck at zero: nothing is reported at the
    end time, nor at the end of the grace of 0.6 s (the double 11.6), and the
    abort comes after it. *)
Example time_overrun :
  outcomes (server_ (update last_waypoint plain_distance 11 tracking).2) = [] ∧
  outcomes (server_ (update last_waypoint plain_distance
                            (round_double (116 # 10)) tracking).2)
  = [] ∧
  outcomes (server_ (update last_waypoint plain_distance
                            (round_double (117 # 10)) tracking).2)
  = [goal_timeout_abort].
Proof. split; [|split]; evaluate. Qed.

(** The literal [0.6] is a little below six tenths. *)
Example double_0_6_value :
  double_0_6 = 5404319552844595 # 9007199254740992.
Proof. evaluate. Qed.

(** Sums of doubles as binary64 gives them: 0.1 + 0.2 is the double above
    0.3; a sum half way between two doubles goes to the one with the even
    significand; and below [2 ^ -1022] the doubles are [2 ^ -1074] apart. *)
Example double_plus_values :
  let d := round_double in
  double_plus (d (1 # 10)) (d (2 # 10)) = 1351079888211149 # 4503599627370496 ∧
  double_plus 1 (1 # 2 ^ 53) = 1%Q ∧
  double_plus 1 (3 # 2 ^ 53) = 2251799813685249 # 2251799813685248 ∧
  double_plus 11 (d (2 # 10)) = 3152519739159347 # 281474976710656 ∧
  double_plus (double_plus 11 (d (2 # 10))) double_0_6
  = 6642809450371481 # 562949953421312 ∧
  d (1 # 2 ^ 1075) = 0%Q ∧
  d (3 # 2 ^ 1075) = 1 # 2 ^ 1073.
Proof. cbn zeta. repeat split; evaluate. Qed.

(** The time limit is a sum of doubles, and at the boundary it is not the
    sum of the reals.  With the end time 11 and a goal time tolerance of 0.2
    the limit is the double below 11.8, and a tick at the double 11.8 aborts
    the goal, though in decimals 11 + 0.2 + 0.6 is 11.8.  With the end time
    0.1 and the tolerance 0.2 the limit is the double 0.9, and a tick at 0.9
    does not abort, though the three doubles add up to less than that. *)
Example overrun_boundary :
  let d := round_double in
  let st1 := upd_goal_time_tolerance_ (λ _, d (2 # 10)) tracking in
  let st2 := upd_sampler_ (λ _, Some [mkPoint [1; 2]%Q [] [] (d (1 # 10))]) st1 in
  outcomes (server_ (update last_waypoint plain_distance (d (118 # 10)) st1).2)
  = [goal_timeout_abort] ∧
  (11 + (2 # 10) + (6 # 10) == 118 # 10)%Q ∧
  outcomes (server_ (update last_waypoint plain_distance (d (9 # 10)) st2).2)
  = [] ∧
  (d (1 # 10) + d (2 # 10) + double_0_6 < d (9 # 10))%Q.
Proof.
  cbn zeta. split; [evaluate|]. split; [by vm_compute|].
  split; [evaluate|by vm_compute].
Qed.

(** The joints reach the goal: success at the end time, not before. *)
Example goal_reached :
  let arrived := set_readings [(1, 0, 0); (2, 0, 0)]%Q tracking in
  outcomes (server_ (update last_waypoint plain_distance (109 # 10) arrived).2)
  = [] ∧
  outcomes (server_ (update last_waypoint plain_distance 11 arrived).2)
  = [goal_success].
Proof. split; evaluate. Qed.

(** Two joints out of path tolerance in one tick: the controller calls
    [setAborted] for each, and the client is sent the first. *)
Example two_violations :
  let st := (update last_waypoint plain_distance (105 # 10) tracking_with_path).2 in
  calls (server_ st) = [path_position_abort; path_position_abort] ∧
  outcomes (server_ st) = [path_position_abort].
Proof. split; evaluate. Qed.

(** Splice on preemption takes the sampler's trajectory when it has more
    than two points, and [last_sample_] otherwise. *)
Example splice_sources :
  let sampler := [mkPoint [0] [] [] 1; mkPoint [1] [] [] 2; mkPoint [2] [] [] 3]%Q in
  let st := upd_preempted_ (λ _, true) one_joint in
  let splice := λ old new (cut : Q), Some (old ++ new) in
  let new := [mkPoint [5%Q] [] [] 9%Q] in
  build_executable splice demo_env (mkGoal one_joint_trajectory [] [] 0%Q) new
                   (upd_sampler_ (λ _, Some sampler) st)
  = Some (sampler ++ new) ∧
  build_executable splice demo_env (mkGoal one_joint_trajectory [] [] 0%Q) new
                   (upd_sampler_ (λ _, Some (take 2 sampler)) st)
  = Some (last_sample_ st :: new).
Proof. split; evaluate. Qed.

Lemma update_hold_witness :
  initialized_ holding = true ∧
  isActive (server_ holding) = false ∧
  length (q (last_sample_ holding)) = joint_count holding ∧
  update last_waypoint plain_distance 12 holding
  = (true, upd_joints_
             (imap (λ j, setPositionCommand (q (last_sample_ holding) !!! j) 0 0))
             holding).
Proof.
  assert (Hinit : initialized_ holding = true) by evaluate.
  assert (Hidle : isActive (server_ holding) = false) by evaluate.
  assert (Hlen : length (q (last_sample_ holding)) = joint_count holding)
    by evaluate.
  split; [exact Hinit|]. split; [exact Hidle|]. split; [exact Hlen|].
  exact (proj1 (update_hold last_waypoint plain_distance 12 holding
                  Hinit (or_introl Hidle)) Hlen).
Defined.


Lemma one_outcome_per_goal_witness :
  (∃ reported,
     outcomes (server_ (foldl (happen last_waypoint plain_distance)
       (default two_joints
          (executeCb last_waypoint no_splice plain_distance demo_env
             [(10%Q, [Tick 12 []])] (mkGoal two_joint_trajectory [] [] 0%Q)
             two_joints))
       [Tick 13 []; Preempt true]))
     = [] ++ reported ∧ length reported ≤ 1) ∧
  outcomes (server_ (foldl (happen last_waypoint plain_distance)
     (update last_waypoint plain_distance 12 tracking).2 [Tick 13 []]))
  = outcomes (server_ (update last_waypoint plain_distance 12 tracking).2) ∧
  outcomes (server_ (update last_waypoint plain_distance 11 tracking_with_path).2)
  = [path_position_abort].
Proof.
  pose proof (one_outcome_per_goal last_waypoint no_splice plain_distance)
    as (Hgoal & Honce & Hfirst).
  split; [|split].
  - apply (Hgoal demo_env [(10%Q, [Tick 12 []])]
             (mkGoal two_joint_trajectory [] [] 0%Q)
             (init (demo_node ["j1"; "j2"]) (Some demo_manager)
                   (constructed false false)).2).
    evaluate.
  - apply Honce. vm_compute. discriminate.
  - assert (Hviol : ¬ within (q (path_tolerance_ tracking_with_path))
              (positions (error (feedback_
                 (monitored last_waypoint plain_distance 11 tracking_sampler
                            tracking_with_path)))) 0).
    { apply violates_true. evaluate. }
    assert (Hinit : initialized_ tracking_with_path = true) by evaluate.
    assert (Hact : isActive (server_ tracking_with_path) = true) by evaluate.
    assert (Hs : sampler_ tracking_with_path = Some tracking_sampler)
      by evaluate.
    assert (Hlen : length (q (last_waypoint tracking_sampler 11))
                   = joint_count tracking_with_path) by evaluate.
    assert (Hhas : has_path_tolerance_ tracking_with_path = true) by evaluate.
    assert (Hj : 0 < joint_count tracking_with_path) by (vm_compute; lia).
    destruct (Hfirst 11%Q tracking_sampler tracking_with_path 0
                Hinit Hact Hs Hlen Hhas Hj
                (λ i (Hi : i < 0), False_ind _ (Nat.nlt_0_r i Hi))
                (or_introl Hviol))
      as (first & later & _ & _ & Hout & _ & Hpos & _).
    rewrite Hout, (Hpos Hviol). evaluate.
Defined.

Lemma start_refused_witness :
  outcomes (server_ (flow_state (executeCb_intake no_splice
     (mkEnv 10%Q 10%Q 10%Q false) (mkGoal two_joint_trajectory [] [] 0%Q)
     two_joints)))
  = [start_refused_abort].
Proof.
  assert (Hact : isActive (server_ two_joints) = true) by evaluate.
  assert (Hcalls :
    manager_calls (flow_state (executeCb_intake no_splice
       (mkEnv 10%Q 10%Q 10%Q false) (mkGoal two_joint_trajectory [] [] 0%Q)
       two_joints))
    = manager_calls two_joints ++ [RequestStart (name_ two_joints)])
    by evaluate.
  destruct (start_refused last_waypoint no_splice plain_distance
              (mkEnv 10%Q 10%Q 10%Q false) [] (mkGoal two_joint_trajectory [] [] 0%Q)
              two_joints Hact eq_refl Hcalls)
    as (st' & Hin & _ & _ & Hout & _).
  rewrite Hin. exact Hout.
Defined.

Lemma single_point_goal_witness :
  ∃ current point,
    sampler_ tracking = Some [current; point] ∧
    q current = [0%Q; 0%Q] ∧ qd current = [] ∧ qdd current = [] ∧
    time current = 10%Q.
Proof.
  destruct (single_point_goal no_splice demo_env
              (mkGoal two_joint_trajectory [] [] 0%Q) two_joints)
    as (current & point & Hconv & Hs & Hq & Hqd & Hqdd & Ht); try evaluate.
  { eexists. evaluate. }
  exists current, point.
  split; [exact Hs|]. split; [exact Hq|].
  assert (Hpoint : point = mkPoint [1%Q; 2%Q] [] [] (10 + 1)%Q).
  { vm_compute in Hconv. by injection Hconv as <-. }
  subst point. split; [exact Hqd|]. split; [exact Hqdd|exact Ht].
Defined.

Lemma empty_trajectory_stops_witness :
  executeCb last_waypoint no_splice plain_distance demo_env []
            (mkGoal (mkJointTrajectory 0%Q ["j1"; "j2"] []) [] [] 0%Q) two_joints
  = Some (upd_manager_calls (λ cs, cs ++ [RequestStop (name_ two_joints)])
                            two_joints).
Proof.
  refine (proj1 (proj2 (empty_trajectory_stops last_waypoint no_splice
                          plain_distance demo_env []
                          (mkGoal (mkJointTrajectory 0%Q ["j1"; "j2"] []) [] [] 0%Q)
                          two_joints _ _))); evaluate.
Defined.

Lemma intake_abort_atomic_witness :
  ∃ result text,
    executeCb_intake no_splice demo_env
      (mkGoal one_joint_trajectory [] [] 0%Q) two_joints
    = Returned (upd_server_ (setAborted result text) two_joints).
Proof.
  destruct (intake_abort_atomic last_waypoint no_splice plain_distance demo_env []
              (mkGoal one_joint_trajectory [] [] 0%Q) two_joints)
    as (result & text & Hin & _).
  - right. split; [evaluate|]. split; [discriminate|].
    left. vm_compute. lia.
  - by exists result, text.
Defined.

(** * Further properties of the controller *)

(** ** [init], [start] and [preempt] *)

Lemma read_joint_names_strings names acc :
  read_joint_names (XmlString <$> names) acc = (true, acc ++ names).
Proof.
  revert acc. induction names as [|n names IH]; intros acc; cbn.
  - by rewrite app_nil_r.
  - rewrite IH. by rewrite <- app_assoc.
Qed.

Lemma read_joint_names_true elems acc names :
  read_joint_names elems acc = (true, names) →
  ∃ ns, elems = XmlString <$> ns ∧ names = acc ++ ns.
Proof.
  revert acc. induction elems as [|[s|] elems IH]; intros acc; cbn.
  - intros [= <-]. exists []. by rewrite app_nil_r.
  - intros H. destruct (IH _ H) as (ns & -> & ->).
    exists (s :: ns). by rewrite <- app_assoc.
  - done.
Qed.

Lemma XmlString_fmap_inj (a b : list string) :
  XmlString <$> a = XmlString <$> b → a = b.
Proof.
  revert b. induction a as [|x a IH]; intros [|y b]; try done.
  cbn. intros [= -> H]. by rewrite (IH b H).
Qed.

(** The loop that fetches the handles, pass by pass. *)
Lemma add_joint_handles manager n st :
  n ≤ length (joint_names_ st) →
  for_loop n (add_joint_handle manager) st
  = upd_joints_ (λ js, js ++ (getJointHandle manager <$> take n (joint_names_ st)))
      (upd_feedback_
         (λ fb, set_fb_joint_names
                  (fb_joint_names fb
                   ++ ((λ x, getName (getJointHandle manager x))
                         <$> take n (joint_names_ st))) fb) st).
Proof.
  induction n as [|n IH]; intros Hn.
  - destruct st as [? ? ? ? ? ? ? ? ? ? ? ? ? [] ? ?]. unfold for_loop.
    unfold upd_joints_, upd_feedback_, set_fb_joint_names. cbn.
    by rewrite !app_nil_r.
  - rewrite for_loop_S, IH by lia. clear IH.
    destruct (lookup_lt_is_Some_2 (joint_names_ st) n) as [x Hx]; [lia|].
    rewrite (take_S_r _ _ _ Hx), !fmap_app.
    unfold add_joint_handle, upd_joints_, upd_feedback_, set_fb_joint_names.
    cbn [joint_names_ feedback_ joints_
         initialized_ manager_ name_ stop_with_action_ sampler_ preempted_
         has_path_tolerance_ path_tolerance_ goal_tolerance_
         goal_time_tolerance_ last_sample_ server_ manager_calls
         fb_joint_names fb_stamp desired actual error].
    rewrite (list_lookup_total_correct _ _ _ Hx).
    cbn [fmap list_fmap]. by rewrite !app_assoc.
Qed.

(** Two states with the same members are the same state. *)
Lemma State_eq st1 st2 :
  initialized_ st1 = initialized_ st2 →
  manager_ st1 = manager_ st2 →
  name_ st1 = name_ st2 →
  joint_names_ st1 = joint_names_ st2 →
  joints_ st1 = joints_ st2 →
  stop_with_action_ st1 = stop_with_action_ st2 →
  sampler_ st1 = sampler_ st2 →
  preempted_ st1 = preempted_ st2 →
  has_path_tolerance_ st1 = has_path_tolerance_ st2 →
  path_tolerance_ st1 = path_tolerance_ st2 →
  goal_tolerance_ st1 = goal_tolerance_ st2 →
  goal_time_tolerance_ st1 = goal_time_tolerance_ st2 →
  last_sample_ st1 = last_sample_ st2 →
  feedback_ st1 = feedback_ st2 →
  server_ st1 = server_ st2 →
  manager_calls st1 = manager_calls st2 →
  st1 = st2.
Proof. destruct st1, st2. cbn. intros. by subst. Qed.

Lemma init_strings nh m names st :
  param_joints nh = Some (XmlArray (XmlString <$> names)) →
  init nh (Some m) st = (true, initialised_state nh m names st).
Proof.
  intros Hp. unfold init. rewrite Hp.
  cbn [joint_names_ upd_joint_names_ Controller_init upd_name_ upd_manager_
       upd_sampler_ upd_preempted_].
  rewrite read_joint_names_strings. cbn [app negb].
  rewrite add_joint_handles;
    cbn [joint_names_ upd_joints_ upd_stop_with_action_ upd_joint_names_];
    [|done].
  rewrite firstn_all. f_equal.
  apply State_eq;
    cbn [initialised_state joint_names_ feedback_ joints_
         initialized_ manager_ name_ stop_with_action_ sampler_ preempted_
         has_path_tolerance_ path_tolerance_ goal_tolerance_
         goal_time_tolerance_ last_sample_ server_ manager_calls app
         upd_initialized_ upd_server_ upd_goal_tolerance_
         upd_path_tolerance_ upd_feedback_ upd_joints_ upd_stop_with_action_
         upd_joint_names_ upd_preempted_ upd_sampler_ upd_name_ upd_manager_];
    rewrite ?length_fmap; reflexivity.
Qed.

(** A successful [init] had a manager and a [joints] array of strings. *)
Lemma init_true_inv nh manager st :
  (init nh manager st).1 = true →
  ∃ m names, manager = Some m ∧
             param_joints nh = Some (XmlArray (XmlString <$> names)).
Proof.
  unfold init. destruct manager as [m|]; [|done].
  destruct (param_joints nh) as [[elems|]|]; try done.
  cbn [joint_names_ upd_joint_names_ Controller_init upd_name_ upd_manager_
       upd_sampler_ upd_preempted_].
  destruct (read_joint_names elems []) as [[] names] eqn:Hread;
    cbn [negb fst]; [|done].
  intros _. apply read_joint_names_true in Hread as (ns & -> & _).
  by exists m, ns.
Qed.

(** X1.  [init] returns true only when it is given a manager and the
    parameter [joints] is an array whose elements are all strings.  With no
    manager, no parameter [joints], a parameter that is not an array, or an
    array with an element that is not a string, it returns false; each of
    these returns comes before the manager is asked for a handle. *)
Theorem init_refuses nh manager st :
  ((init nh manager st).1 = true →
   ∃ m names, manager = Some m ∧
              param_joints nh = Some (XmlArray (XmlString <$> names))) ∧
  (manager = None → (init nh manager st).1 = false) ∧
  (param_joints nh = None → (init nh manager st).1 = false) ∧
  (param_joints nh = Some XmlNotArray → (init nh manager st).1 = false) ∧
  (∀ elems, param_joints nh = Some (XmlArray elems) →
            XmlOtherElem ∈ elems →
            (init nh manager st).1 = false).
Proof.
  split; [apply init_true_inv|].
  assert (Hnot : ∀ P : Prop,
            (∀ m names, manager = Some m →
                        param_joints nh = Some (XmlArray (XmlString <$> names)) →
                        ¬ P) →
            P → (init nh manager st).1 = false).
  { intros P Hbad HP. destruct ((init nh manager st).1) eqn:Hres; [|done].
    apply init_true_inv in Hres as (m & names & Hm & Hp).
    by destruct (Hbad m names Hm Hp). }
  split; [apply Hnot; by intros m names -> _|].
  split; [apply Hnot; intros m names _ Hp Hnone; by rewrite Hp in Hnone|].
  split; [apply Hnot; intros m names _ Hp Hnone; by rewrite Hp in Hnone|].
  intros elems Helems Hother. revert Helems. apply Hnot.
  intros m names _ Hp Helems. rewrite Hp in Helems.
  injection Helems as <-.
  apply list_elem_of_fmap in Hother as (name & Hname & _). discriminate Hname.
Qed.

(** X2.  After a successful [init] for the names [names]: the controller is
    initialised, [getJointNames] gives the names, [joints_] holds the
    manager's handles for them in order, there is no sampler, [preempted_] is
    false, the action server is a new one, and the feedback and tolerance
    vectors have one entry per name. *)
Theorem init_success nh m names st :
  param_joints nh = Some (XmlArray (XmlString <$> names)) →
  let st' := (init nh (Some m) st).2 in
  initialized_ st' = true ∧
  getJointNames st' = names ∧
  joints_ st' = getJointHandle m <$> names ∧
  sampler_ st' = None ∧
  preempted_ st' = false ∧
  server_ st' = new_server ∧
  stop_with_action_ st' = default false (param_stop_with_action nh) ∧
  Forall (λ v, length v = length names)
    [positions (desired (feedback_ st')); velocities (desired (feedback_ st'));
     accelerations (desired (feedback_ st'));
     positions (actual (feedback_ st')); velocities (actual (feedback_ st'));
     effort (actual (feedback_ st'));
     positions (error (feedback_ st')); velocities (error (feedback_ st'));
     q (path_tolerance_ st'); qd (path_tolerance_ st'); qdd (path_tolerance_ st');
     q (goal_tolerance_ st'); qd (goal_tolerance_ st'); qdd (goal_tolerance_ st')].
Proof.
  intros Hp. cbn zeta. rewrite (init_strings nh m names st Hp).
  cbn [snd initialised_state initialized_ getJointNames joint_names_ joints_
       sampler_ preempted_ server_ stop_with_action_ feedback_ path_tolerance_
       goal_tolerance_].
  repeat (split; [reflexivity|]).
  unfold resize_feedback, resize_tolerance, set_fb_joint_names.
  cbn [upd_desired upd_actual upd_error desired actual error positions
       velocities accelerations effort set_positions set_velocities
       set_accelerations set_effort q qd qdd set_q set_qd set_qdd].
  repeat (apply Forall_cons; split; [apply resize_length|]).
  apply Forall_nil_2.
Qed.

(** X3.  A failed [init].  Without a manager the controller is marked
    uninitialised and nothing else changes.  With a manager the flag
    [initialized_] is left as it was (a controller that was initialised still
    counts as initialised), the sampler is dropped and [preempted_] reset,
    and the joint handles, the feedback and the action server are those from
    before. *)
Theorem init_failure nh manager st :
  (init nh manager st).1 = false →
  let st' := (init nh manager st).2 in
  (manager = None → st' = upd_initialized_ (λ _, false) st) ∧
  (is_Some manager →
   initialized_ st' = initialized_ st ∧
   sampler_ st' = None ∧
   preempted_ st' = false ∧
   joints_ st' = joints_ st ∧
   feedback_ st' = feedback_ st ∧
   server_ st' = server_ st).
Proof.
  unfold init. destruct manager as [m|]; cbn zeta.
  - intros Hfail. split; [done|]. intros _. revert Hfail.
    destruct (param_joints nh) as [[elems|]|]; try done.
    cbn [joint_names_ upd_joint_names_ Controller_init upd_name_ upd_manager_
         upd_sampler_ upd_preempted_].
    destruct (read_joint_names elems []) as [[] names]; cbn [negb fst]; done.
  - intros _. split; [done|]. by intros [m Hm].
Qed.

(** X4.  What [init] never resets: [last_sample_] and
    [goal_time_tolerance_] are left as they were by every call, and a
    successful call appends the names of the handles to
    [feedback_.joint_names] without clearing it first. *)
Theorem init_keeps nh manager st :
  last_sample_ (init nh manager st).2 = last_sample_ st ∧
  goal_time_tolerance_ (init nh manager st).2 = goal_time_tolerance_ st ∧
  (∀ m names,
     manager = Some m →
     param_joints nh = Some (XmlArray (XmlString <$> names)) →
     fb_joint_names (feedback_ (init nh manager st).2)
     = fb_joint_names (feedback_ st)
       ++ ((λ x, getName (getJointHandle m x)) <$> names)).
Proof.
  assert (Hfail : ∀ m, (init nh (Some m) st).1 = false →
            last_sample_ (init nh (Some m) st).2 = last_sample_ st ∧
            goal_time_tolerance_ (init nh (Some m) st).2
            = goal_time_tolerance_ st).
  { intros m. unfold init.
    destruct (param_joints nh) as [[elems|]|]; try done.
    cbn [joint_names_ upd_joint_names_ Controller_init upd_name_ upd_manager_
         upd_sampler_ upd_preempted_].
    destruct (read_joint_names elems []) as [[] names]; cbn [negb fst]; done. }
  destruct manager as [m|]; [|by repeat split].
  destruct ((init nh (Some m) st).1) eqn:Hres.
  - apply init_true_inv in Hres as (m' & names & [= <-] & Hp).
    rewrite (init_strings nh m names st Hp). cbn [snd].
    split; [done|]. split; [done|].
    intros m' names' [= <-] Hp'. rewrite Hp in Hp'.
    injection Hp' as Hn. by apply XmlString_fmap_inj in Hn as <-.
  - destruct (Hfail m Hres) as [H1 H2]. split; [done|]. split; [done|].
    intros m' names [= <-] Hp.
    rewrite (init_strings nh m names st Hp) in Hres. done.
Qed.

(** X5.  Right after a successful [init] the controller refuses to start,
    since its new action server has no active goal; once the server has
    accepted a goal, [start] returns true. *)
Theorem start_needs_active_goal nh manager st :
  (init nh manager st).1 = true →
  start (init nh manager st).2 = false ∧
  start (upd_server_ accept_goal (init nh manager st).2) = true.
Proof.
  intros Hok. apply init_true_inv in Hok as (m & names & -> & Hp).
  by rewrite (init_strings nh m names st Hp).
Qed.

(** X6.  [preempt] on an initialised controller returns true exactly when no
    goal is active afterwards.  Unforced, it changes nothing; forced on an
    active goal, it changes only the server, where it aborts the goal with a
    default result and the text "Controller manager forced preemption.".  On
    a controller that is not initialised it returns true and changes
    nothing. *)
Theorem preempt_releases force st :
  (initialized_ st = true →
   (preempt force st).1 = negb (isActive (server_ (preempt force st).2))) ∧
  (initialized_ st = false ∨ force = false ∨ isActive (server_ st) = false →
   (preempt force st).2 = st) ∧
  (initialized_ st = true → force = true → isActive (server_ st) = true →
   (preempt force st).2
   = upd_server_ (set_terminal
       (Aborted default_result "Controller manager forced preemption.")) st ∧
   outcomes (server_ (preempt force st).2)
   = outcomes (server_ st)
     ++ [Aborted default_result "Controller manager forced preemption."]).
Proof.
  unfold preempt, isActive. split; [|split].
  - intros Hi. rewrite Hi. cbn [negb].
    destruct (active (server_ st)) eqn:Ha.
    + destruct force; cbn [fst snd]; [reflexivity|by rewrite Ha].
    + cbn [fst snd]. by rewrite Ha.
  - intros [Hi | [Hf | Ha]].
    + by rewrite Hi.
    + rewrite Hf. destruct (negb _); [done|]. by destruct (active _).
    + rewrite Ha. by destruct (negb _).
  - intros Hi Hf Ha. rewrite Hi, Hf, Ha. cbn [negb fst snd]. split; [done|].
    unfold upd_server_, setAborted, set_terminal. cbn [server_ outcomes].
    by rewrite Ha.
Qed.

(** ** [update]: the feedback and the commands of a tick *)

Lemma fill_desired_lengths p st :
  feedback_lengths (feedback_ (fill_desired p st))
  = feedback_lengths (feedback_ st) ∧
  joint_count (fill_desired p st) = joint_count st.
Proof.
  unfold fill_desired.
  set (proj := λ s, (feedback_lengths (feedback_ s), joint_count s)).
  match goal with
  | |- feedback_lengths (feedback_ ?X) = _ ∧ _ =>
      enough (H : proj X = proj st)
        by (split; [exact (f_equal fst H)|exact (f_equal snd H)])
  end.
  cbn zeta.
  assert (H1 : ∀ s x i, proj (upd_feedback_ (upd_desired
     (λ d, set_positions (<[i := x]> (positions d)) d)) s) = proj s).
  { intros. unfold proj, feedback_lengths, joint_count. cbn.
    by rewrite length_insert. }
  assert (H2 : ∀ s x i, proj (upd_feedback_ (upd_desired
     (λ d, set_velocities (<[i := x]> (velocities d)) d)) s) = proj s).
  { intros. unfold proj, feedback_lengths, joint_count. cbn.
    by rewrite length_insert. }
  assert (H3 : ∀ s x i, proj (upd_feedback_ (upd_desired
     (λ d, set_accelerations (<[i := x]> (accelerations d)) d)) s) = proj s).
  { intros. unfold proj, feedback_lengths, joint_count. cbn.
    by rewrite length_insert. }
  destruct (_ =? _); [destruct (_ =? _)|];
    repeat (rewrite (loop_preserves proj); [|intros; cbv beta; auto]); done.
Qed.

Lemma fill_actual_lengths st :
  feedback_lengths (feedback_ (fill_actual st))
  = feedback_lengths (feedback_ st) ∧
  joint_count (fill_actual st) = joint_count st.
Proof.
  unfold fill_actual.
  set (proj := λ s, (feedback_lengths (feedback_ s), joint_count s)).
  match goal with
  | |- feedback_lengths (feedback_ ?X) = _ ∧ _ =>
      enough (H : proj X = proj st)
        by (split; [exact (f_equal fst H)|exact (f_equal snd H)])
  end.
  apply (loop_preserves proj). intros j s.
  unfold proj, feedback_lengths, joint_count. cbn. by rewrite !length_insert.
Qed.

Lemma fill_error_lengths sad st :
  feedback_lengths (feedback_ (fill_error sad st))
  = feedback_lengths (feedback_ st) ∧
  joint_count (fill_error sad st) = joint_count st.
Proof.
  unfold fill_error.
  set (proj := λ s, (feedback_lengths (feedback_ s), joint_count s)).
  match goal with
  | |- feedback_lengths (feedback_ ?X) = _ ∧ _ =>
      enough (H : proj X = proj st)
        by (split; [exact (f_equal fst H)|exact (f_equal snd H)])
  end.
  apply (loop_preserves proj). intros j s.
  unfold proj, feedback_lengths, joint_count. cbn. by rewrite !length_insert.
Qed.

(** The monitor's fills keep the sizes of the feedback vectors. *)
Lemma monitored_sized sample sad now sampler st :
  feedback_sized st → feedback_sized (monitored sample sad now sampler st).
Proof.
  unfold feedback_sized, monitored.
  set (st0 := upd_last_sample_ _ st).
  destruct (fill_desired_lengths (sample sampler now) st0) as [L1 N1].
  destruct (fill_actual_lengths (fill_desired (sample sampler now) st0))
    as [L2 N2].
  destruct (fill_error_lengths sad
              (fill_actual (fill_desired (sample sampler now) st0))) as [L3 N3].
  rewrite L3, L2, L1, N3, N2, N1. done.
Qed.

Lemma feedback_sized_inv st :
  feedback_sized st →
  let fb := feedback_ st in
  let n := joint_count st in
  length (positions (desired fb)) = n ∧ length (velocities (desired fb)) = n ∧
  length (accelerations (desired fb)) = n ∧
  length (positions (actual fb)) = n ∧ length (velocities (actual fb)) = n ∧
  length (effort (actual fb)) = n ∧
  length (positions (error fb)) = n ∧ length (velocities (error fb)) = n.
Proof.
  unfold feedback_sized, feedback_lengths. intros H.
  repeat (apply Forall_cons in H as [? H]). done.
Qed.

(** The velocities of [desired] after [fill_desired]: those of the sample if
    it has one per joint, the ones from before otherwise. *)
Lemma fill_desired_velocities p st :
  joint_count st ≤ length (velocities (desired (feedback_ st))) →
  ∀ j, j < joint_count st →
       velocities (desired (feedback_ (fill_desired p st))) !!! j
       = if length (qd p) =? joint_count st then qd p !!! j
         else velocities (desired (feedback_ st)) !!! j.
Proof.
  intros Hlen j Hj. unfold fill_desired.
  set (st1 := for_loop (joint_count st) _ st).
  assert (Hv1 : velocities (desired (feedback_ st1))
                = velocities (desired (feedback_ st))).
  { unfold st1.
    by apply (loop_preserves (λ s, velocities (desired (feedback_ s)))). }
  destruct (_ =? _); [|by rewrite Hv1].
  destruct (assign_loop (λ _, True)
    (λ s, velocities (desired (feedback_ s)))
    (λ i st, upd_feedback_ (upd_desired
       (λ d, set_velocities (<[i := qd p !!! i]> (velocities d)) d)) st)
    (λ i, qd p !!! i) (joint_count st) st1) as (_ & _ & Hvals);
    [by rewrite Hv1|done|done|done|].
  set (st2 := for_loop (joint_count st) _ st1) in *.
  destruct (_ =? _); [|by apply Hvals].
  rewrite (loop_preserves (λ s, velocities (desired (feedback_ s)))); [|done].
  by apply Hvals.
Qed.

(** The velocities and efforts of [actual] after [fill_actual]. *)
Lemma fill_actual_readings st :
  joint_count st ≤ length (velocities (actual (feedback_ st))) →
  joint_count st ≤ length (effort (actual (feedback_ st))) →
  ∀ j, j < joint_count st →
       velocities (actual (feedback_ (fill_actual st))) !!! j
       = getVelocity (joints_ st !!! j) ∧
       effort (actual (feedback_ (fill_actual st))) !!! j
       = getEffort (joints_ st !!! j).
Proof.
  intros Hv He j Hj. unfold fill_actual. split.
  - destruct (assign_loop (λ s, joints_ s = joints_ st)
      (λ s, velocities (actual (feedback_ s)))
      (λ j st, let h := joints_ st !!! j in
         upd_feedback_ (upd_actual (λ a,
           set_effort (<[j := getEffort h]> (effort a))
             (set_velocities (<[j := getVelocity h]> (velocities a))
                (set_positions (<[j := getPosition h]> (positions a)) a)))) st)
      (λ j, getVelocity (joints_ st !!! j)) (joint_count st) st Hv)
      as (_ & _ & Hvals); try done.
    + intros i s Hs. cbn. by rewrite Hs.
    + by apply Hvals.
  - destruct (assign_loop (λ s, joints_ s = joints_ st)
      (λ s, effort (actual (feedback_ s)))
      (λ j st, let h := joints_ st !!! j in
         upd_feedback_ (upd_actual (λ a,
           set_effort (<[j := getEffort h]> (effort a))
             (set_velocities (<[j := getVelocity h]> (velocities a))
                (set_positions (<[j := getPosition h]> (positions a)) a)))) st)
      (λ j, getEffort (joints_ st !!! j)) (joint_count st) st He)
      as (_ & _ & Hvals); try done.
    + intros i s Hs. cbn. by rewrite Hs.
    + by apply Hvals.
Qed.

(** The velocity errors after [fill_error]. *)
Lemma fill_error_velocities sad st :
  joint_count st ≤ length (velocities (error (feedback_ st))) →
  ∀ j, j < joint_count st →
       velocities (error (feedback_ (fill_error sad st))) !!! j
       = (velocities (actual (feedback_ st)) !!! j
          - velocities (desired (feedback_ st)) !!! j)%Q.
Proof.
  intros Hlen. unfold fill_error.
  destruct (assign_loop
    (λ s, desired (feedback_ s) = desired (feedback_ st)
          ∧ actual (feedback_ s) = actual (feedback_ st))
    (λ s, velocities (error (feedback_ s)))
    (λ j st,
       let fb := feedback_ st in
       let ep := sad (positions (desired fb) !!! j) (positions (actual fb) !!! j) in
       let ev := (velocities (actual fb) !!! j - velocities (desired fb) !!! j)%Q in
       upd_feedback_ (upd_error (λ e,
         set_velocities (<[j := ev]> (velocities e))
           (set_positions (<[j := ep]> (positions e)) e))) st)
    (λ j, (velocities (actual (feedback_ st)) !!! j
           - velocities (desired (feedback_ st)) !!! j)%Q)
    (joint_count st) st Hlen) as (_ & _ & Hvals); try done.
  intros j s (Hd & Ha). cbn. by rewrite Hd, Ha.
Qed.

(** [fill_actual] and [fill_error] leave [desired] alone, and [fill_error]
    leaves [actual] alone. *)
Lemma fill_actual_desired st :
  desired (feedback_ (fill_actual st)) = desired (feedback_ st).
Proof.
  unfold fill_actual. by apply (loop_preserves (λ s, desired (feedback_ s))).
Qed.

Lemma fill_error_desired_actual sad st :
  desired (feedback_ (fill_error sad st)) = desired (feedback_ st) ∧
  actual (feedback_ (fill_error sad st)) = actual (feedback_ st).
Proof.
  unfold fill_error. split.
  - by apply (loop_preserves (λ s, desired (feedback_ s))).
  - by apply (loop_preserves (λ s, actual (feedback_ s))).
Qed.

Section Feedback.

Variable sample : Trajectory → Q → TrajectoryPoint.
Variable shortest_angular_distance : Q → Q → Q.

(** The feedback the monitor sees in a tick, entry by entry. *)
Lemma monitored_feedback now sampler st j :
  feedback_sized st →
  j < joint_count st →
  let p := sample sampler now in
  let fb := feedback_ (monitored sample shortest_angular_distance now sampler st) in
  let h := joints_ st !!! j in
  positions (desired fb) !!! j = q p !!! j ∧
  velocities (desired fb) !!! j
  = (if length (qd p) =? joint_count st then qd p !!! j
     else velocities (desired (feedback_ st)) !!! j) ∧
  positions (actual fb) !!! j = getPosition h ∧
  velocities (actual fb) !!! j = getVelocity h ∧
  effort (actual fb) !!! j = getEffort h ∧
  positions (error fb) !!! j
  = shortest_angular_distance (q p !!! j) (getPosition h) ∧
  velocities (error fb) !!! j
  = (getVelocity h - velocities (desired fb) !!! j)%Q.
Proof.
  intros Hsized Hj p fb h.
  destruct (feedback_sized_inv st Hsized)
    as (S1 & S2 & S3 & S4 & S5 & S6 & S7 & S8).
  unfold fb, monitored. fold p.
  set (st0 := upd_last_sample_ (λ _, p) st).
  change (feedback_ st) with (feedback_ st0) in *.
  change (joint_count st) with (joint_count st0) in *.
  change (joints_ st) with (joints_ st0) in *.
  destruct (fill_desired_positions p st0) as (D1 & D2 & D3 & D4); [lia|].
  pose proof (fill_desired_velocities p st0 ltac:(lia) j Hj) as D5.
  destruct (fill_desired_lengths p st0) as [DL DN].
  set (st1 := fill_desired p st0) in *.
  assert (L1 : feedback_sized st1).
  { unfold feedback_sized. by rewrite DL, DN. }
  destruct (feedback_sized_inv st1 L1)
    as (T1 & T2 & T3 & T4 & T5 & T6 & T7 & T8).
  destruct (fill_actual_positions st1) as (A1 & A2 & A3 & A4); [lia|].
  destruct (fill_actual_readings st1 ltac:(lia) ltac:(lia) j) as [A5 A6];
    [lia|].
  destruct (fill_actual_lengths st1) as [AL AN].
  set (st2 := fill_actual st1) in *.
  assert (L2 : feedback_sized st2).
  { unfold feedback_sized. by rewrite AL, AN. }
  destruct (feedback_sized_inv st2 L2)
    as (U1 & U2 & U3 & U4 & U5 & U6 & U7 & U8).
  destruct (fill_error_desired_actual shortest_angular_distance st2) as [E1 E2].
  pose proof (fill_error_positions shortest_angular_distance st2
                ltac:(lia) j ltac:(lia)) as E3.
  pose proof (fill_error_velocities shortest_angular_distance st2
                ltac:(lia) j ltac:(lia)) as E4.
  cbn zeta in E3.
  rewrite E1, E2, E3, E4, A2, D4, A4, A5, A6, D5, D1 by lia.
  rewrite ?DN. done.
Qed.

End Feedback.

Lemma imap_keeps {A B} (g : A → B) (f : nat → A → A) (l : list A) :
  (∀ j x, g (f j x) = g x) → g <$> imap f l = g <$> l.
Proof.
  intros H. rewrite fmap_imap, <- imap_const. apply imap_ext.
  intros i x _. apply H.
Qed.

Lemma make_calls_published l s :
  published (make_calls l s) = published s ∧
  preempt_requested (make_calls l s) = preempt_requested s.
Proof.
  revert s. induction l as [|o l IH]; intros s; [done|].
  change (make_calls (o :: l) s) with (make_calls l (set_terminal o s)).
  by destruct (IH (set_terminal o s)) as [-> ->].
Qed.

Lemma set_readings_commands rs st :
  commands <$> joints_ (set_readings rs st) = commands <$> joints_ st ∧
  joint_count (set_readings rs st) = joint_count st.
Proof.
  unfold set_readings, joint_count. cbn [joints_ upd_joints_]. split.
  - apply imap_keeps. intros j h. by destruct (rs !! j).
  - apply length_imap.
Qed.

Section Ticks.

Variable sample : Trajectory → Q → TrajectoryPoint.
Variable shortest_angular_distance : Q → Q → Q.

(** The state after a tick with a goal executing. *)
Lemma update_active_state now sampler st :
  initialized_ st = true →
  isActive (server_ st) = true →
  sampler_ st = Some sampler →
  length (q (sample sampler now)) = joint_count st →
  let m := monitored sample shortest_angular_distance now sampler st in
  ∃ fb,
    m = upd_feedback_ (λ _, fb) (upd_last_sample_ (λ _, sample sampler now) st) ∧
    update sample shortest_angular_distance now st
    = (true,
       upd_joints_
         (imap (λ j, setPositionCommand (positions (desired fb) !!! j)
                                        (velocities (desired fb) !!! j) 0))
         (upd_server_ (make_calls (path_calls m ++ goal_calls now sampler m))
            (upd_feedback_ (λ _, fb)
               (upd_last_sample_ (λ _, sample sampler now) st)))).
Proof.
  intros Hinit Hact Hs Hlen m.
  destruct (monitored_only sample shortest_angular_distance now sampler st)
    as [fb Hm]. fold m in Hm.
  exists fb. split; [exact Hm|].
  rewrite (update_active sample shortest_angular_distance now sampler st
             Hinit Hact Hs Hlen).
  fold m. rewrite command_desired_spec.
  clearbody m. subst m. reflexivity.
Qed.

(** X7.  While the sampler gives samples that do not have one position per
    joint, ticks return false and do nothing but keep the sample: whatever
    the number of ticks and the readings of the joints, no call reaches the
    action server (the goal stays active with no outcome) and no joint is
    sent a command. *)
Theorem update_missized_samples sampler st
    (ticks : list (Q * list (Q * Q * Q))) :
  initialized_ st = true →
  isActive (server_ st) = true →
  sampler_ st = Some sampler →
  (∀ now, length (q (sample sampler now)) ≠ joint_count st) →
  let run := foldl (λ s t, (update sample shortest_angular_distance t.1
                              (set_readings t.2 s)).2) st ticks in
  server_ run = server_ st ∧
  commands <$> joints_ run = commands <$> joints_ st ∧
  (∀ now, update sample shortest_angular_distance now run
          = (false, upd_last_sample_ (λ _, sample sampler now) run)).
Proof.
  intros Hinit Hact Hs Hbad. cbn zeta.
  assert (Hstep : ∀ s now,
            initialized_ s = true → isActive (server_ s) = true →
            sampler_ s = Some sampler → joint_count s = joint_count st →
            update sample shortest_angular_distance now s
            = (false, upd_last_sample_ (λ _, sample sampler now) s)).
  { intros s now Hi Ha Hsa Hn. unfold update. rewrite Hi, Ha, Hsa. cbn [negb].
    change (joint_count (upd_last_sample_ _ s)) with (joint_count s).
    rewrite Hn. by rewrite (proj2 (Nat.eqb_neq _ _) (Hbad now)). }
  enough (Hinv : ∀ s,
            initialized_ s = true → isActive (server_ s) = true →
            sampler_ s = Some sampler → joint_count s = joint_count st →
            let run := foldl (λ s t, (update sample shortest_angular_distance t.1
                                        (set_readings t.2 s)).2) s ticks in
            server_ run = server_ s ∧
            commands <$> joints_ run = commands <$> joints_ s ∧
            initialized_ run = true ∧ isActive (server_ run) = true ∧
            sampler_ run = Some sampler ∧ joint_count run = joint_count st).
  { destruct (Hinv st Hinit Hact Hs eq_refl) as (H1 & H2 & H3 & H4 & H5 & H6).
    split; [done|]. split; [done|]. intros now. by apply Hstep. }
  induction ticks as [|[now rs] ticks IH]; intros s Hi Ha Hsa Hn; [done|].
  cbn [foldl fst snd].
  destruct (set_readings_commands rs s) as [Hc Hn'].
  rewrite (Hstep (set_readings rs s) now Hi Ha Hsa); [|by rewrite Hn'].
  cbn [snd].
  assert (Hn2 : joint_count (upd_last_sample_ (λ _, sample sampler now)
                               (set_readings rs s)) = joint_count st).
  { change (joint_count (set_readings rs s) = joint_count st). by rewrite Hn'. }
  pose proof (IH (upd_last_sample_ (λ _, sample sampler now) (set_readings rs s))
                Hi Ha Hsa Hn2) as IH'.
  cbn zeta in IH'. destruct IH' as (H1 & H2 & H3).
  cbn zeta. split; [by rewrite H1|]. split; [rewrite H2; exact Hc|exact H3].
Qed.

(** What a tick leaves alone. *)
Lemma update_keeps now st :
  let st' := (update sample shortest_angular_distance now st).2 in
  initialized_ st' = initialized_ st ∧
  joint_names_ st' = joint_names_ st ∧
  sampler_ st' = sampler_ st ∧
  preempted_ st' = preempted_ st ∧
  has_path_tolerance_ st' = has_path_tolerance_ st ∧
  path_tolerance_ st' = path_tolerance_ st ∧
  goal_tolerance_ st' = goal_tolerance_ st ∧
  goal_time_tolerance_ st' = goal_time_tolerance_ st ∧
  manager_calls st' = manager_calls st ∧
  published (server_ st') = published (server_ st) ∧
  reading <$> joints_ st' = reading <$> joints_ st ∧
  (feedback_sized st → feedback_sized st').
Proof.
  cbn zeta.
  assert (Hcmd : ∀ (c : nat → JointHandle → JointHandle) js,
            (∀ j h, ∃ p v e, c j h = setPositionCommand p v e h) →
            reading <$> imap c js = reading <$> js).
  { intros c js Hc. apply imap_keeps. intros j h.
    by destruct (Hc j h) as (p & v & e & ->). }
  assert (Hsize : ∀ (c : nat → JointHandle → JointHandle) s,
            feedback_sized s → feedback_sized (upd_joints_ (imap c) s)).
  { intros c s. unfold feedback_sized, joint_count.
    cbn [feedback_ joints_ upd_joints_]. by rewrite length_imap. }
  destruct (initialized_ st) eqn:Hinit;
    [|unfold update; rewrite Hinit; done].
  assert (Hhold :
    (if length (q (last_sample_ st)) =? joint_count st
     then (true, hold_position st) else (false, st))
    = update sample shortest_angular_distance now st →
    let st' := (update sample shortest_angular_distance now st).2 in
    initialized_ st' = true ∧ joint_names_ st' = joint_names_ st ∧
    sampler_ st' = sampler_ st ∧ preempted_ st' = preempted_ st ∧
    has_path_tolerance_ st' = has_path_tolerance_ st ∧
    path_tolerance_ st' = path_tolerance_ st ∧
    goal_tolerance_ st' = goal_tolerance_ st ∧
    goal_time_tolerance_ st' = goal_time_tolerance_ st ∧
    manager_calls st' = manager_calls st ∧
    published (server_ st') = published (server_ st) ∧
    reading <$> joints_ st' = reading <$> joints_ st ∧
    (feedback_sized st → feedback_sized st')).
  { intros <-. cbn zeta. destruct (_ =? _); cbn [snd]; [|done].
    rewrite hold_position_spec. cbn [upd_joints_ joints_ initialized_
      joint_names_ sampler_ preempted_ has_path_tolerance_ path_tolerance_
      goal_tolerance_ goal_time_tolerance_ manager_calls server_].
    repeat (split; [done|]). split; [|apply Hsize].
    apply Hcmd. intros j h. by eexists _, _, _. }
  destruct (isActive (server_ st)) eqn:Hact;
    [|apply Hhold; unfold update; by rewrite Hinit, Hact].
  destruct (sampler_ st) as [sampler|] eqn:Hs;
    [|apply Hhold; unfold update; by rewrite Hinit, Hact, Hs].
  destruct (decide (length (q (sample sampler now)) = joint_count st))
    as [Hlen|Hlen].
  - destruct (update_active_state now sampler st Hinit Hact Hs Hlen)
      as (fb & Hm & ->).
    cbn [snd upd_joints_ upd_server_ upd_feedback_ upd_last_sample_ joints_
      initialized_ joint_names_ sampler_ preempted_ has_path_tolerance_
      path_tolerance_ goal_tolerance_ goal_time_tolerance_ manager_calls
      server_].
    repeat (split; [done|]).
    split; [apply make_calls_published|].
    split; [apply Hcmd; intros j h; by eexists _, _, _|].
    intros Hsized.
    pose proof (monitored_sized sample shortest_angular_distance now sampler
                  st Hsized) as Hmsized.
    rewrite Hm in Hmsized. revert Hmsized.
    unfold feedback_sized, joint_count.
    cbn [feedback_ joints_ upd_joints_ upd_server_ upd_feedback_
         upd_last_sample_]. by rewrite length_imap.
  - unfold update. rewrite Hinit, Hact, Hs. cbn [negb].
    change (joint_count (upd_last_sample_ _ st)) with (joint_count st).
    rewrite (proj2 (Nat.eqb_neq _ _) Hlen). by cbn.
Qed.

(** X8.  What a tick never touches.  [update] leaves alone the flags, the
    joint names, the sampler, both tolerances and [goal_time_tolerance_],
    the requests sent to the manager and the feedback published by the
    server; of the joint handles it changes only their commands; and it
    keeps the sizes of the feedback vectors. *)
Theorem update_frame now st :
  let st' := (update sample shortest_angular_distance now st).2 in
  initialized_ st' = initialized_ st ∧
  joint_names_ st' = joint_names_ st ∧
  sampler_ st' = sampler_ st ∧
  preempted_ st' = preempted_ st ∧
  has_path_tolerance_ st' = has_path_tolerance_ st ∧
  path_tolerance_ st' = path_tolerance_ st ∧
  goal_tolerance_ st' = goal_tolerance_ st ∧
  goal_time_tolerance_ st' = goal_time_tolerance_ st ∧
  manager_calls st' = manager_calls st ∧
  published (server_ st') = published (server_ st) ∧
  reading <$> joints_ st' = reading <$> joints_ st ∧
  (feedback_sized st → feedback_sized st').
Proof. apply update_keeps. Qed.

(** X9.  In a tick with a goal executing, every joint is sent exactly one
    command: the position of the sample for that joint, the velocity of the
    sample if the sample has one velocity per joint (the velocity kept in
    the feedback from an earlier tick otherwise), and effort zero.  This
    holds also in the tick that ends the goal. *)
Theorem update_commands now sampler st :
  initialized_ st = true →
  isActive (server_ st) = true →
  sampler_ st = Some sampler →
  length (q (sample sampler now)) = joint_count st →
  feedback_sized st →
  let p := sample sampler now in
  joints_ (update sample shortest_angular_distance now st).2
  = imap (λ j, setPositionCommand
                 (q p !!! j)
                 (if length (qd p) =? joint_count st then qd p !!! j
                  else velocities (desired (feedback_ st)) !!! j)
                 0)
         (joints_ st).
Proof.
  intros Hinit Hact Hs Hlen Hsized p.
  destruct (update_active_state now sampler st Hinit Hact Hs Hlen)
    as (fb & Hm & ->).
  cbn [snd joints_ upd_joints_ upd_server_ upd_feedback_ upd_last_sample_].
  apply imap_ext. intros j h Hj. apply lookup_lt_Some in Hj.
  destruct (monitored_feedback sample shortest_angular_distance now sampler
              st j Hsized Hj) as (D1 & D2 & _).
  rewrite Hm in D1, D2. cbn [feedback_ upd_feedback_] in D1, D2.
  by rewrite D1, D2.
Qed.

(** X10.  The feedback after a tick with a goal executing, for every joint:
    [desired] holds the sample, [actual] the readings of the joint handle,
    [error.positions] the angular distance from the desired to the actual
    position and [error.velocities] the actual minus the desired velocity;
    and [last_sample_] is the sample. *)
Theorem update_feedback now sampler st j :
  initialized_ st = true →
  isActive (server_ st) = true →
  sampler_ st = Some sampler →
  length (q (sample sampler now)) = joint_count st →
  feedback_sized st →
  j < joint_count st →
  let p := sample sampler now in
  let st' := (update sample shortest_angular_distance now st).2 in
  let fb := feedback_ st' in
  let h := joints_ st !!! j in
  last_sample_ st' = p ∧
  positions (desired fb) !!! j = q p !!! j ∧
  velocities (desired fb) !!! j
  = (if length (qd p) =? joint_count st then qd p !!! j
     else velocities (desired (feedback_ st)) !!! j) ∧
  positions (actual fb) !!! j = getPosition h ∧
  velocities (actual fb) !!! j = getVelocity h ∧
  effort (actual fb) !!! j = getEffort h ∧
  positions (error fb) !!! j
  = shortest_angular_distance (q p !!! j) (getPosition h) ∧
  velocities (error fb) !!! j
  = (getVelocity h - velocities (desired fb) !!! j)%Q.
Proof.
  intros Hinit Hact Hs Hlen Hsized Hj p st' fb h.
  pose proof (monitored_feedback sample shortest_angular_distance now sampler
                st j Hsized Hj) as Hfb.
  destruct (update_active_state now sampler st Hinit Hact Hs Hlen)
    as (fb' & Hm & Hup).
  unfold fb, st'. rewrite Hup. rewrite Hm in Hfb.
  cbn [snd feedback_ last_sample_ upd_joints_ upd_server_ upd_feedback_
       upd_last_sample_] in *.
  split; [done|exact Hfb].
Qed.

(** X11.  Position hold after the goal has ended.  If a tick with a goal
    executing leaves no active goal (it reported success or an abort), every
    later tick returns true and sends each joint the position of that
    tick's sample with zero velocity and zero effort. *)
Theorem hold_after_outcome now sampler st later :
  initialized_ st = true →
  isActive (server_ st) = true →
  sampler_ st = Some sampler →
  length (q (sample sampler now)) = joint_count st →
  let st' := (update sample shortest_angular_distance now st).2 in
  isActive (server_ st') = false →
  update sample shortest_angular_distance later st'
  = (true, upd_joints_
             (imap (λ j, setPositionCommand (q (sample sampler now) !!! j) 0 0))
             st').
Proof.
  intros Hinit Hact Hs Hlen st' Hdone.
  destruct (update_active_state now sampler st Hinit Hact Hs Hlen)
    as (fb & Hm & Hup).
  assert (Hi' : initialized_ st' = true) by (unfold st'; by rewrite Hup).
  assert (Hl' : last_sample_ st' = sample sampler now)
    by (unfold st'; by rewrite Hup).
  assert (Hn' : joint_count st' = joint_count st).
  { unfold st', joint_count. rewrite Hup.
    cbn [snd joints_ upd_joints_ upd_server_ upd_feedback_ upd_last_sample_].
    apply length_imap. }
  unfold update at 1. rewrite Hi', Hdone. cbn [negb].
  rewrite Hl', Hn', (proj2 (Nat.eqb_eq _ _) Hlen).
  by rewrite hold_position_spec, Hl'.
Qed.

End Ticks.

(** ** [executeCb]: taking a goal in *)

Lemma upd_path_tolerance_same st :
  upd_path_tolerance_ (λ _, path_tolerance_ st) st = st.
Proof. by destruct st. Qed.

Lemma upd_goal_tolerance_same st :
  upd_goal_tolerance_ (λ _, goal_tolerance_ st) st = st.
Proof. by destruct st. Qed.

(** The two conversions, as they behave. *)
Lemma convert_path_tolerances_exact goal st :
  convert_path_tolerances goal st
  = if length (path_tolerance goal) =? joint_count st then
      let st1 := upd_has_path_tolerance_ (λ _, true) st in
      if first_entry_matches (path_tolerance goal) (joints_ st)
      then Running st1
      else Returned (abort INVALID_JOINTS "Unable to convert path tolerances" st1)
    else Running (upd_has_path_tolerance_ (λ _, false) st).
Proof.
  unfold convert_path_tolerances. destruct (_ =? _); [|done].
  rewrite convert_tolerances_as_written.
  change (joints_ (upd_has_path_tolerance_ _ st)) with (joints_ st).
  fold (first_entry_matches (path_tolerance goal) (joints_ st)).
  change (path_tolerance_ (upd_has_path_tolerance_ (λ _, true) st))
    with (path_tolerance_ (upd_has_path_tolerance_ (λ _, true) st)).
  cbn zeta.
  destruct (first_entry_matches _ _);
    by rewrite (upd_path_tolerance_same (upd_has_path_tolerance_ (λ _, true) st)).
Qed.

Lemma convert_goal_tolerances_exact goal st :
  convert_goal_tolerances goal st
  = if length (goal_tolerance goal) =? joint_count st then
      if first_entry_matches (goal_tolerance goal) (joints_ st)
      then Running st
      else Returned (abort INVALID_JOINTS "Unable to convert goal tolerances" st)
    else Running (upd_goal_tolerance_ (default_goal_tolerance (joint_count st)) st).
Proof.
  unfold convert_goal_tolerances. destruct (_ =? _); [|done].
  rewrite convert_tolerances_as_written.
  fold (first_entry_matches (goal_tolerance goal) (joints_ st)).
  destruct (first_entry_matches _ _); by rewrite upd_goal_tolerance_same.
Qed.

(** The default goal tolerances, on vectors with an entry per joint. *)
Lemma default_goal_tolerance_fields n tol :
  default_goal_tolerance n tol
  = mkPoint (for_loop n (λ j v, <[j := 2 # 100]> v) (q tol))
            (for_loop n (λ j v, <[j := 2 # 100]> v) (qd tol))
            (for_loop n (λ j v, <[j := 2 # 100]> v) (qdd tol))
            (time tol).
Proof.
  unfold default_goal_tolerance.
  induction n as [|n IH]; [by destruct tol|].
  rewrite !for_loop_S, IH. reflexivity.
Qed.

Lemma default_goal_tolerance_sized n tol :
  length (q tol) = n → length (qd tol) = n → length (qdd tol) = n →
  default_goal_tolerance n tol
  = mkPoint (replicate n (2 # 100)) (replicate n (2 # 100))
            (replicate n (2 # 100)) (time tol).
Proof.
  intros Hq Hqd Hqdd. rewrite default_goal_tolerance_fields.
  rewrite <- Hq at 1. rewrite <- Hqd at 1. rewrite <- Hqdd at 1.
  rewrite !fill_loop_full, Hq, Hqd, Hqdd, !fmap_seq_const. done.
Qed.

Section TakingIn.

Variable spliceTrajectories : Trajectory → Trajectory → Q → option Trajectory.

(** [executeCb] reaches its feedback loop only through every check, and then
    in the state [taken_in]. *)
Lemma intake_running_inv env goal st st' :
  executeCb_intake spliceTrajectories env goal st = Running st' →
  initialized_ st = true ∧
  points (trajectory goal) ≠ [] ∧
  length (joint_names (trajectory goal)) = joint_count st ∧
  requestStart_reply env = true ∧
  ∃ new_trajectory executable,
    trajectoryFromMsg (now_convert env) (trajectory goal) (joint_names_ st)
    = Some new_trajectory ∧
    build_executable spliceTrajectories env goal new_trajectory st
    = Some executable ∧
    st' = taken_in goal executable st.
Proof.
  unfold executeCb_intake.
  destruct (initialized_ st); cbn [negb]; [|done].
  destruct (points (trajectory goal)) as [|pt pts] eqn:Hpts; [done|].
  cbn [length Nat.eqb].
  destruct (_ =? joint_count st) eqn:Hcount; cbn [negb]; [|done].
  apply Nat.eqb_eq in Hcount.
  destruct (trajectoryFromMsg _ _ _) as [new_trajectory|] eqn:Hconv; [|done].
  destruct (build_executable _ _ _ _ _) as [executable|] eqn:Hbuild; [|done].
  rewrite convert_path_tolerances_exact.
  change (joint_count (upd_sampler_ _ st)) with (joint_count st).
  change (joints_ (upd_sampler_ _ st)) with (joints_ st).
  intros Hrun.
  assert (Hgoal : ∀ s,
    joint_count s = joint_count st →
    and_then (convert_goal_tolerances goal s) (λ s,
      let s := upd_goal_time_tolerance_ (λ _, goal_time_tolerance goal) s in
      let s := requestStart s in
      if negb (requestStart_reply env) then
        Returned (abort GOAL_TOLERANCE_VIOLATED
                    "Cannot execute trajectory, unable to start controller." s)
      else Running (upd_preempted_ (λ _, false) s)) = Running st' →
    requestStart_reply env = true ∧
    st' = upd_preempted_ (λ _, false)
            (requestStart
               (upd_goal_time_tolerance_ (λ _, goal_time_tolerance goal)
                  (upd_goal_tolerance_
                     (λ t, if length (goal_tolerance goal) =? joint_count st
                           then t
                           else default_goal_tolerance (joint_count st) t) s)))).
  { intros s Hn. rewrite convert_goal_tolerances_exact, Hn.
    destruct (length (goal_tolerance goal) =? joint_count st).
    - destruct (first_entry_matches (goal_tolerance goal) (joints_ s));
        cbn [and_then]; [|done].
      cbv zeta. destruct (requestStart_reply env); cbn [negb]; [|done].
      intros [= <-]. split; [done|].
      by rewrite <- (upd_goal_tolerance_same s) at 1.
    - cbn [and_then]. cbv zeta.
      destruct (requestStart_reply env); cbn [negb]; [|done].
      by intros [= <-]. }
  repeat (split; [done|]).
  destruct (length (path_tolerance goal) =? joint_count st) eqn:Hp.
  - cbn zeta in Hrun.
    destruct (first_entry_matches _ _); cbn [and_then] in Hrun; [|done].
    destruct (Hgoal (upd_has_path_tolerance_ (λ _, true)
                       (upd_sampler_ (λ _, Some executable) st))
                eq_refl Hrun) as [Hreply ->].
    split; [done|]. exists new_trajectory, executable.
    repeat (split; [done|]). unfold taken_in. by rewrite Hp.
  - cbn [and_then] in Hrun.
    destruct (Hgoal (upd_has_path_tolerance_ (λ _, false)
                       (upd_sampler_ (λ _, Some executable) st))
                eq_refl Hrun) as [Hreply ->].
    split; [done|]. exists new_trajectory, executable.
    repeat (split; [done|]). unfold taken_in. by rewrite Hp.
Qed.

(** X12.  The state in which [executeCb] reaches its feedback loop.  The
    sampler holds the executable trajectory built from the converted
    message; [has_path_tolerance_] tells whether the goal's path tolerance
    array has an entry per joint; [goal_time_tolerance_] is the goal's;
    [preempted_] is false; one [requestStart] was sent to the manager; and
    the action server, the joint handles, [last_sample_] and the feedback
    are untouched. *)
Theorem goal_taken_in env goal st st' :
  executeCb_intake spliceTrajectories env goal st = Running st' →
  (∃ new_trajectory executable,
     trajectoryFromMsg (now_convert env) (trajectory goal) (joint_names_ st)
     = Some new_trajectory ∧
     build_executable spliceTrajectories env goal new_trajectory st
     = Some executable ∧
     sampler_ st' = Some executable) ∧
  has_path_tolerance_ st'
  = (length (path_tolerance goal) =? joint_count st) ∧
  goal_time_tolerance_ st' = goal_time_tolerance goal ∧
  preempted_ st' = false ∧
  manager_calls st' = manager_calls st ++ [RequestStart (name_ st)] ∧
  server_ st' = server_ st ∧
  joints_ st' = joints_ st ∧
  last_sample_ st' = last_sample_ st ∧
  feedback_ st' = feedback_ st.
Proof.
  intros Hrun.
  destruct (intake_running_inv env goal st st' Hrun)
    as (_ & _ & _ & _ & new_trajectory & executable & Hconv & Hbuild & ->).
  split; [by exists new_trajectory, executable|]. done.
Qed.

(** What [executeCb] leaves alone on its way to the feedback loop. *)
Lemma intake_frame env goal st :
  let st' := flow_state (executeCb_intake spliceTrajectories env goal st) in
  path_tolerance_ st' = path_tolerance_ st ∧
  (goal_tolerance_ st' = goal_tolerance_ st ∨
   goal_tolerance_ st'
   = default_goal_tolerance (joint_count st) (goal_tolerance_ st)) ∧
  joints_ st' = joints_ st ∧
  feedback_ st' = feedback_ st ∧
  last_sample_ st' = last_sample_ st ∧
  joint_names_ st' = joint_names_ st ∧
  initialized_ st' = initialized_ st.
Proof.
  cbn zeta. unfold executeCb_intake.
  destruct (initialized_ st) eqn:Hinit; cbn [negb flow_state];
    [|repeat split; try (by left); exact Hinit].
  destruct (length (points (trajectory goal)) =? 0); cbn [flow_state];
    [repeat split; try (by left); exact Hinit|].
  destruct (length (joint_names (trajectory goal)) =? joint_count st);
    cbn [negb flow_state]; [|repeat split; try (by left); exact Hinit].
  destruct (trajectoryFromMsg _ _ _) as [new_trajectory|]; cbn [flow_state];
    [|repeat split; try (by left); exact Hinit].
  destruct (build_executable _ _ _ _ _) as [executable|]; cbn [flow_state];
    [|repeat split; try (by left); exact Hinit].
  rewrite convert_path_tolerances_exact.
  change (joint_count (upd_sampler_ _ st)) with (joint_count st).
  change (joints_ (upd_sampler_ _ st)) with (joints_ st).
  assert (Hgoal : ∀ s,
    joint_count s = joint_count st → joints_ s = joints_ st →
    path_tolerance_ s = path_tolerance_ st →
    goal_tolerance_ s = goal_tolerance_ st →
    feedback_ s = feedback_ st → last_sample_ s = last_sample_ st →
    joint_names_ s = joint_names_ st → initialized_ s = true →
    let st' := flow_state
      (and_then (convert_goal_tolerances goal s) (λ s,
         let s := upd_goal_time_tolerance_ (λ _, goal_time_tolerance goal) s in
         let s := requestStart s in
         if negb (requestStart_reply env) then
           Returned (abort GOAL_TOLERANCE_VIOLATED
                       "Cannot execute trajectory, unable to start controller." s)
         else Running (upd_preempted_ (λ _, false) s))) in
    path_tolerance_ st' = path_tolerance_ st ∧
    (goal_tolerance_ st' = goal_tolerance_ st ∨
     goal_tolerance_ st'
     = default_goal_tolerance (joint_count st) (goal_tolerance_ st)) ∧
    joints_ st' = joints_ st ∧ feedback_ st' = feedback_ st ∧
    last_sample_ st' = last_sample_ st ∧
    joint_names_ st' = joint_names_ st ∧ initialized_ st' = true).
  { intros s Hn Hj Hp Hg Hf Hl Hnames Hi. cbn zeta.
    rewrite convert_goal_tolerances_exact, Hn.
    destruct (length (goal_tolerance goal) =? joint_count st).
    - destruct (first_entry_matches (goal_tolerance goal) (joints_ s));
        cbn [and_then flow_state];
        [destruct (negb (requestStart_reply env)); cbn [flow_state]|];
        (split; [exact Hp|]); (split; [left; exact Hg|]); done.
    - cbn [and_then]. destruct (negb (requestStart_reply env));
        cbn [flow_state];
        (split; [exact Hp|]);
        (split; [right;
                 cbn [goal_tolerance_ abort upd_server_ upd_preempted_
                      requestStart upd_manager_calls upd_goal_time_tolerance_
                      upd_goal_tolerance_]; by rewrite Hg|]); done. }
  destruct (length (path_tolerance goal) =? joint_count st).
  - cbn zeta.
    destruct (first_entry_matches (path_tolerance goal) (joints_ st));
      cbn [and_then flow_state]; [|repeat split; try (by left); exact Hinit].
    by apply Hgoal.
  - cbn [and_then]. by apply Hgoal.
Qed.

(** X13.  The tolerance values of a goal are never stored.  Whatever the
    goal and however [executeCb] leaves (a return or the feedback loop),
    [path_tolerance_] is what it was, and [goal_tolerance_] is either what
    it was or the default written over it; the joint handles, the feedback,
    [last_sample_], the joint names and [initialized_] are untouched too. *)
Theorem intake_keeps env goal st :
  let st' := flow_state (executeCb_intake spliceTrajectories env goal st) in
  path_tolerance_ st' = path_tolerance_ st ∧
  (goal_tolerance_ st' = goal_tolerance_ st ∨
   goal_tolerance_ st'
   = default_goal_tolerance (joint_count st) (goal_tolerance_ st)) ∧
  joints_ st' = joints_ st ∧
  feedback_ st' = feedback_ st ∧
  last_sample_ st' = last_sample_ st ∧
  joint_names_ st' = joint_names_ st ∧
  initialized_ st' = initialized_ st.
Proof. apply intake_frame. Qed.

Ltac in_list :=
  apply list_elem_of_In; cbn [In intake_aborts];
  repeat first [left; reflexivity | right].

(** The terminal calls of [executeCb] before its feedback loop. *)
Lemma intake_makes_calls env goal st :
  ∃ l,
    calls (server_ (flow_state (executeCb_intake spliceTrajectories env goal st)))
    = calls (server_ st) ++ l ∧
    (l = [] ∨ ∃ o, l = [o] ∧ o ∈ intake_aborts) ∧
    (∀ st', executeCb_intake spliceTrajectories env goal st = Running st' →
            l = []).
Proof.
  assert (Habort : ∀ (o : Outcome) s (f : Flow),
            server_ s = server_ st → o ∈ intake_aborts →
            f = Returned (upd_server_ (set_terminal o) s) →
            ∃ l, calls (server_ (flow_state f)) = calls (server_ st) ++ l ∧
                 (l = [] ∨ ∃ o, l = [o] ∧ o ∈ intake_aborts) ∧
                 (∀ st', f = Running st' → l = [])).
  { intros o s f Hs Ho ->. exists [o]. cbn [flow_state server_ upd_server_
      set_terminal calls]. rewrite Hs. split; [done|].
    split; [right; by exists o|done]. }
  assert (Hquiet : ∀ s (f : Flow),
            server_ s = server_ st → flow_state f = s →
            ∃ l, calls (server_ (flow_state f)) = calls (server_ st) ++ l ∧
                 (l = [] ∨ ∃ o, l = [o] ∧ o ∈ intake_aborts) ∧
                 (∀ st', f = Running st' → l = [])).
  { intros s f Hs ->. exists []. rewrite Hs, app_nil_r. by repeat split; try left. }
  unfold executeCb_intake.
  destruct (initialized_ st); cbn [negb].
  2:{ eapply (Habort _ st); only 3: reflexivity; [done|in_list]. }
  destruct (length (points (trajectory goal)) =? 0);
    [eapply Hquiet; only 2: reflexivity; reflexivity|].
  destruct (length (joint_names (trajectory goal)) =? joint_count st);
    cbn [negb].
  2:{ eapply (Habort _ st); only 3: reflexivity; [done|in_list]. }
  destruct (trajectoryFromMsg _ _ _) as [new_trajectory|].
  2:{ eapply (Habort _ st); only 3: reflexivity; [done|in_list]. }
  destruct (build_executable _ _ _ _ _) as [executable|].
  2:{ eapply (Habort _ st); only 3: reflexivity; [done|in_list]. }
  rewrite convert_path_tolerances_exact.
  change (joint_count (upd_sampler_ _ st)) with (joint_count st).
  change (joints_ (upd_sampler_ _ st)) with (joints_ st).
  assert (Hgoal : ∀ s, joint_count s = joint_count st → server_ s = server_ st →
    ∃ l, calls (server_ (flow_state
      (and_then (convert_goal_tolerances goal s) (λ s,
         let s := upd_goal_time_tolerance_ (λ _, goal_time_tolerance goal) s in
         let s := requestStart s in
         if negb (requestStart_reply env) then
           Returned (abort GOAL_TOLERANCE_VIOLATED
                       "Cannot execute trajectory, unable to start controller." s)
         else Running (upd_preempted_ (λ _, false) s)))))
      = calls (server_ st) ++ l ∧
      (l = [] ∨ ∃ o, l = [o] ∧ o ∈ intake_aborts) ∧
      (∀ st', and_then (convert_goal_tolerances goal s) (λ s,
         let s := upd_goal_time_tolerance_ (λ _, goal_time_tolerance goal) s in
         let s := requestStart s in
         if negb (requestStart_reply env) then
           Returned (abort GOAL_TOLERANCE_VIOLATED
                       "Cannot execute trajectory, unable to start controller." s)
         else Running (upd_preempted_ (λ _, false) s)) = Running st' → l = [])).
  { intros s Hn Hs. rewrite convert_goal_tolerances_exact, Hn.
    destruct (length (goal_tolerance goal) =? joint_count st).
    - destruct (first_entry_matches (goal_tolerance goal) (joints_ s));
        cbn [and_then].
      + cbv zeta. destruct (negb (requestStart_reply env)).
        * eapply (Habort _ _); only 3: reflexivity; [exact Hs|in_list].
        * eapply Hquiet; only 2: reflexivity; exact Hs.
      + eapply (Habort _ s); only 3: reflexivity; [done|in_list].
    - cbn [and_then]. cbv zeta. destruct (negb (requestStart_reply env)).
      + eapply (Habort _ _); only 3: reflexivity; [exact Hs|in_list].
      + eapply Hquiet; only 2: reflexivity; exact Hs. }
  destruct (length (path_tolerance goal) =? joint_count st).
  - cbv zeta.
    destruct (first_entry_matches (path_tolerance goal) (joints_ st));
      cbn [and_then]; [by apply Hgoal|].
    eapply (Habort _ _); only 3: reflexivity; [reflexivity|in_list].
  - cbn [and_then]. by apply Hgoal.
Qed.


End TakingIn.

(** ** [executeCb]: the trajectory handed to the sampler *)

Section Executable.

Variable spliceTrajectories : Trajectory → Trajectory → Q → option Trajectory.

(** Once the executable trajectory is built, it is the sampler's, whether
    [executeCb] goes on to its feedback loop or returns. *)
Lemma intake_sampler env goal st new_trajectory executable :
  initialized_ st = true →
  points (trajectory goal) ≠ [] →
  length (joint_names (trajectory goal)) = joint_count st →
  trajectoryFromMsg (now_convert env) (trajectory goal) (joint_names_ st)
  = Some new_trajectory →
  build_executable spliceTrajectories env goal new_trajectory st
  = Some executable →
  sampler_ (flow_state (executeCb_intake spliceTrajectories env goal st))
  = Some executable.
Proof.
  intros Hinit Hpoints Hcount Hconv Hbuild. unfold executeCb_intake.
  rewrite Hinit. cbn [negb].
  destruct (points (trajectory goal)) as [|pt pts] eqn:Hpts; [done|].
  cbn [length Nat.eqb].
  apply Nat.eqb_eq in Hcount. rewrite Hcount. cbn [negb].
  rewrite Hconv, Hbuild. by rewrite intake_tail_sampler.
Qed.

(** X15.  A goal of two or more points, taken by an initialised controller
    that was not preempted.  The sampler gets the converted trajectory as it
    is when the first point of the message is due at once
    ([time_from_start <= 0]).  When the first point lies ahead, one point is
    put in front: the present joint positions at the reading of the clock,
    with zero velocities if the first converted point has velocities, and
    zero accelerations if it has accelerations. *)
Theorem multi_point_goal env goal st new_trajectory :
  initialized_ st = true →
  preempted_ st = false →
  1 < length (points (trajectory goal)) →
  length (joint_names (trajectory goal)) = joint_count st →
  trajectoryFromMsg (now_convert env) (trajectory goal) (joint_names_ st)
  = Some new_trajectory →
  let first_goal := points (trajectory goal) !!! 0 in
  let first := new_trajectory !!! 0 in
  let installed :=
    sampler_ (flow_state (executeCb_intake spliceTrajectories env goal st)) in
  ((time_from_start first_goal <= 0)%Q → installed = Some new_trajectory) ∧
  ((0 < time_from_start first_goal)%Q →
   ∃ current,
     installed = Some (current :: new_trajectory) ∧
     q current = getPosition <$> joints_ st ∧
     qd current = (if 0 <? length (qd first)
                   then replicate (joint_count st) 0%Q else []) ∧
     qdd current = (if 0 <? length (qdd first)
                    then replicate (joint_count st) 0%Q else []) ∧
     time current = now_current env).
Proof.
  intros Hinit Hpre Hmany Hcount Hconv first_goal first installed.
  pose proof (trajectoryFromMsg_length _ _ _ _ Hconv) as Hlen.
  assert (Hpoints : points (trajectory goal) ≠ []).
  { intros H. rewrite H in Hmany. simpl in Hmany. lia. }
  assert (Hlong : (1 <? length new_trajectory) = true).
  { apply Nat.ltb_lt. by rewrite Hlen. }
  assert (Hbuild : build_executable spliceTrajectories env goal new_trajectory st
                   = if Qgtb (time_from_start first_goal) 0
                     then Some (getPointFromCurrent (now_current env)
                                  (0 <? length (qd first))
                                  (0 <? length (qdd first)) true st
                                :: new_trajectory)
                     else Some new_trajectory).
  { unfold build_executable. by rewrite Hpre, Hlong. }
  split.
  - intros Hdue. unfold installed.
    apply (intake_sampler env goal st new_trajectory); try done.
    rewrite Hbuild.
    destruct (Qgtb (time_from_start first_goal) 0) eqn:Hgt; [|done].
    apply Qgtb_lt in Hgt. by apply Qlt_not_le in Hgt.
  - intros Hahead. apply Qgtb_lt in Hahead. rewrite Hahead in Hbuild.
    eexists. split.
    + unfold installed.
      by apply (intake_sampler env goal st new_trajectory).
    + destruct (getPointFromCurrent_fields (now_current env)
                  (0 <? length (qd first)) (0 <? length (qdd first)) true st)
        as (Hq & Hqd & Hqdd & Ht).
      done.
Qed.

(** X16.  A goal taken by a controller that was preempted is spliced, and the
    present joint state is not read.  The new trajectory is spliced onto the
    trajectory of the sampler still in place, at the reading of the clock,
    when that trajectory has more than two points; otherwise onto the single
    point [last_sample_], from time zero.  The splice becomes the sampler's
    trajectory; if the splice fails the goal is aborted with
    [INVALID_JOINTS] and nothing else changes. *)
Theorem preempted_goal_splices env goal st new_trajectory :
  initialized_ st = true →
  preempted_ st = true →
  points (trajectory goal) ≠ [] →
  length (joint_names (trajectory goal)) = joint_count st →
  trajectoryFromMsg (now_convert env) (trajectory goal) (joint_names_ st)
  = Some new_trajectory →
  let spliced :=
    match sampler_ st with
    | Some old =>
      if 2 <? length old
      then spliceTrajectories old new_trajectory (now_splice env)
      else spliceTrajectories [last_sample_ st] new_trajectory 0%Q
    | None => spliceTrajectories [last_sample_ st] new_trajectory 0%Q
    end in
  match spliced with
  | Some executable =>
    sampler_ (flow_state (executeCb_intake spliceTrajectories env goal st))
    = Some executable
  | None =>
    executeCb_intake spliceTrajectories env goal st
    = Returned (upd_server_
                  (setAborted (mkResult (Some INVALID_JOINTS))
                              "Unable to splice trajectory") st)
  end.
Proof.
  intros Hinit Hpre Hpoints Hcount Hconv spliced.
  assert (Hbuild : build_executable spliceTrajectories env goal new_trajectory st
                   = spliced).
  { unfold build_executable, spliced, getTrajectory. rewrite Hpre.
    by destruct (sampler_ st). }
  destruct spliced as [executable|] eqn:Hs.
  - by apply (intake_sampler env goal st new_trajectory).
  - unfold executeCb_intake. rewrite Hinit. cbn [negb].
    destruct (points (trajectory goal)) as [|pt pts]; [done|].
    cbn [length Nat.eqb].
    apply Nat.eqb_eq in Hcount. rewrite Hcount. cbn [negb].
    by rewrite Hconv, Hbuild.
Qed.

(** X17.  The goal tolerances a goal runs with, on a controller whose goal
    tolerance vectors have an entry per joint (as [init] leaves them).  A goal
    whose [goal_tolerance] array has one entry per joint leaves the vectors
    as they were, whatever values it carries; any other goal sets every
    position, velocity and acceleration tolerance to 0.02. *)
Theorem goal_tolerances_taken_in env goal st st' :
  executeCb_intake spliceTrajectories env goal st = Running st' →
  length (q (goal_tolerance_ st)) = joint_count st →
  length (qd (goal_tolerance_ st)) = joint_count st →
  length (qdd (goal_tolerance_ st)) = joint_count st →
  (length (goal_tolerance goal) = joint_count st →
   goal_tolerance_ st' = goal_tolerance_ st) ∧
  (length (goal_tolerance goal) ≠ joint_count st →
   q (goal_tolerance_ st') = replicate (joint_count st) (2 # 100)%Q ∧
   qd (goal_tolerance_ st') = replicate (joint_count st) (2 # 100)%Q ∧
   qdd (goal_tolerance_ st') = replicate (joint_count st) (2 # 100)%Q).
Proof.
  intros Hrun Hq Hqd Hqdd.
  destruct (intake_running_inv spliceTrajectories env goal st st' Hrun)
    as (_ & _ & _ & _ & new_trajectory & executable & _ & _ & ->).
  unfold taken_in.
  cbn [goal_tolerance_ upd_preempted_ requestStart upd_manager_calls
       upd_goal_time_tolerance_ upd_goal_tolerance_ upd_has_path_tolerance_
       upd_sampler_].
  split.
  - intros Hsized. apply Nat.eqb_eq in Hsized. by rewrite Hsized.
  - intros Hother. apply Nat.eqb_neq in Hother. rewrite Hother.
    by rewrite default_goal_tolerance_sized.
Qed.

End Executable.

(** ** [executeCb]: the feedback loop and what follows it *)

Lemma ticked_same st :
  st = ticked (joints_ st) (server_ st) (feedback_ st) (last_sample_ st) st.
Proof. by destruct st. Qed.

Lemma ticked_preempted_same st :
  st = upd_preempted_ (λ _, preempted_ st)
         (ticked (joints_ st) (server_ st) (feedback_ st) (last_sample_ st) st).
Proof. by destruct st. Qed.

Section Completion.

Variable sample : Trajectory → Q → TrajectoryPoint.
Variable spliceTrajectories : Trajectory → Trajectory → Q → option Trajectory.
Variable shortest_angular_distance : Q → Q → Q.

Lemma update_ticked now st :
  ∃ js srv fb ls,
    (update sample shortest_angular_distance now st).2 = ticked js srv fb ls st.
Proof.
  assert (Hsame : ∃ js srv fb ls, st = ticked js srv fb ls st)
    by (eexists _, _, _, _; apply ticked_same).
  destruct (initialized_ st) eqn:Hinit;
    [|unfold update; rewrite Hinit; exact Hsame].
  assert (Hhold :
    ∃ js srv fb ls,
      (if length (q (last_sample_ st)) =? joint_count st
       then (true, hold_position st) else (false, st)).2
      = ticked js srv fb ls st).
  { destruct (_ =? _); cbn [snd]; [|exact Hsame].
    rewrite hold_position_spec. eexists _, _, _, _.
    rewrite (ticked_same st) at 1. reflexivity. }
  destruct (isActive (server_ st)) eqn:Hact;
    [|unfold update; by rewrite Hinit, Hact].
  destruct (sampler_ st) as [sampler|] eqn:Hs;
    [|unfold update; by rewrite Hinit, Hact, Hs].
  destruct (decide (length (q (sample sampler now)) = joint_count st))
    as [Hlen|Hlen].
  - destruct (update_active_state sample shortest_angular_distance
                now sampler st Hinit Hact Hs Hlen) as (fb & _ & ->).
    cbn [snd]. eexists _, _, _, _.
    rewrite (ticked_same st) at 1. reflexivity.
  - unfold update. rewrite Hinit, Hact, Hs. cbn [negb].
    change (joint_count (upd_last_sample_ _ st)) with (joint_count st).
    rewrite (proj2 (Nat.eqb_neq _ _) Hlen). cbn [snd].
    eexists _, _, _, _. rewrite (ticked_same st) at 1. reflexivity.
Qed.

Lemma happen_ticked st e :
  ∃ js srv fb ls,
    happen sample shortest_angular_distance st e = ticked js srv fb ls st.
Proof.
  destruct e as [now rs| |force]; cbn [happen].
  - destruct (update_ticked now (set_readings rs st))
      as (js & srv & fb & ls & ->).
    by eexists _, _, _, _.
  - eexists _, _, _, _. rewrite (ticked_same st) at 1. reflexivity.
  - unfold preempt. destruct (initialized_ st); cbn [negb snd];
      [|eexists _, _, _, _; apply ticked_same].
    destruct (isActive (server_ st));
      [|eexists _, _, _, _; apply ticked_same].
    destruct force; cbn [snd]; [|eexists _, _, _, _; apply ticked_same].
    eexists _, _, _, _. rewrite (ticked_same st) at 1. reflexivity.
Qed.

Lemma events_ticked events st :
  ∃ js srv fb ls,
    foldl (happen sample shortest_angular_distance) st events
    = ticked js srv fb ls st.
Proof.
  revert st. induction events as [|e events IH]; intros st; cbn [foldl].
  - eexists _, _, _, _. apply ticked_same.
  - destruct (happen_ticked st e) as (js & srv & fb & ls & ->).
    destruct (IH (ticked js srv fb ls st)) as (js' & srv' & fb' & ls' & ->).
    by eexists _, _, _, _.
Qed.

(** The feedback loop ends with no goal active; besides what the control
    thread touches it changes [preempted_] only. *)
Lemma feedback_loop_ends sleeps st st' :
  feedback_loop sample shortest_angular_distance sleeps st = Some st' →
  isActive (server_ st') = false ∧
  ∃ js srv fb ls,
    st' = upd_preempted_ (λ _, preempted_ st') (ticked js srv fb ls st).
Proof.
  revert st. induction sleeps as [|[stamp events] sleeps IH]; intros st;
    cbn [feedback_loop];
    (destruct (isActive (server_ st)) eqn:Hact; cbn [negb];
     [|intros [= <-]; split; [exact Hact|];
       eexists _, _, _, _; apply ticked_preempted_same]);
    (destruct (isPreemptRequested (server_ st));
     [intros [= <-]; split; [done|]; eexists _, _, _, _;
      rewrite (ticked_same st) at 1; reflexivity|]);
    [done|].
  intros Hloop. apply IH in Hloop as (Hoff & js & srv & fb & ls & Hst').
  split; [exact Hoff|].
  destruct (events_ticked events
              (upd_server_ (publishFeedback (feedback_ (upd_feedback_ (set_fb_stamp stamp) st)))
                 (upd_feedback_ (set_fb_stamp stamp) st)))
    as (js' & srv' & fb' & ls' & Hev).
  rewrite Hev in Hst'. exists js, srv, fb, ls. rewrite Hst' at 1. reflexivity.
Qed.

(** The loop sets [preempted_] only together with its [setPreempted]: the
    goal was active up to there, and the call is the one outcome
    reported. *)
Lemma feedback_loop_preempted sleeps st st' :
  feedback_loop sample shortest_angular_distance sleeps st = Some st' →
  preempted_ st = false →
  preempted_ st' = true →
  isActive (server_ st) = true ∧
  calls (server_ st') = calls (server_ st) ++ [trajectory_preempted] ∧
  outcomes (server_ st') = outcomes (server_ st) ++ [trajectory_preempted].
Proof.
  revert st. induction sleeps as [|[stamp events] sleeps IH]; intros st;
    cbn [feedback_loop];
    (destruct (isActive (server_ st)) eqn:Hact; cbn [negb];
     [|intros [= <-] Hno Hyes; congruence]);
    (destruct (isPreemptRequested (server_ st));
     [intros [= <-] _ _; split; [done|];
      cbn [server_ upd_preempted_ upd_server_ setPreempted set_terminal
           calls outcomes]; unfold isActive in Hact; by rewrite Hact|]);
    [done|].
  intros Hloop Hno Hyes. split; [done|].
  set (st1 := upd_server_ _ _) in Hloop.
  destruct (events_ticked events st1) as (js & srv & fb & ls & Hev).
  destruct (IH _ Hloop) as (Hact' & Hc & Ho); [by rewrite Hev|done|].
  destruct (events_advance sample shortest_angular_distance events st1)
    as (l & Hlc & Hlo & Hla).
  unfold isActive in Hact'. rewrite Hact' in Hla.
  symmetry in Hla. apply andb_true_iff in Hla as [_ Hnil].
  apply bool_decide_eq_true in Hnil. subst l.
  rewrite Hc, Ho, Hlc, Hlo, app_nil_r.
  destruct (active (server_ st1)); cbn [take]; by rewrite ?app_nil_r.
Qed.

(** X18.  [executeCb] does not return with its goal still active, but for a
    goal with no trajectory points; and when it returns after its feedback
    loop the sampler is gone. *)
Theorem executeCb_settles env sleeps goal st st' :
  executeCb sample spliceTrajectories shortest_angular_distance
            env sleeps goal st = Some st' →
  (points (trajectory goal) ≠ [] → isActive (server_ st') = false) ∧
  (∀ st1, executeCb_intake spliceTrajectories env goal st = Running st1 →
          sampler_ st' = None).
Proof.
  unfold executeCb.
  destruct (executeCb_intake spliceTrajectories env goal st) as [st1|st1]
    eqn:Hin.
  - intros [= <-]. split; [|done]. intros Hpoints.
    revert Hin. unfold executeCb_intake.
    destruct (initialized_ st); cbn [negb]; [|by intros [= <-]].
    destruct (points (trajectory goal)) as [|pt pts]; [done|].
    cbn [length Nat.eqb].
    destruct (_ =? joint_count st); cbn [negb]; [|by intros [= <-]].
    destruct (trajectoryFromMsg _ _ _) as [new_trajectory|];
      [|by intros [= <-]].
    destruct (build_executable _ _ _ _ _) as [executable|];
      [|by intros [= <-]].
    destruct (convert_path_tolerances_shape goal
                (upd_sampler_ (λ _, Some executable) st))
      as (has & ptol & [-> | ->]); cbn [and_then]; [|by intros [= <-]].
    match goal with
    | |- context [convert_goal_tolerances goal ?s] =>
        destruct (convert_goal_tolerances_shape goal s)
          as (gtol & [-> | ->]); cbn [and_then]; [|by intros [= <-]]
    end.
    destruct (negb (requestStart_reply env)); [by intros [= <-]|done].
  - destruct (feedback_loop _ _ _ _) as [st2|] eqn:Hloop; [|done].
    intros [= <-]. apply feedback_loop_ends in Hloop as [Hoff _].
    split.
    + intros _. unfold executeCb_finish.
      by destruct (_ && _).
    + intros ? _. unfold executeCb_finish. by destruct (_ && _).
Qed.

(** X19.  A goal cancelled while [executeCb] waits: if [executeCb] returns
    from its feedback loop with [preempted_] set, the one terminal call made
    for the goal, and the one outcome reported, is [setPreempted] with the
    text "Trajectory preempted"; the manager got the start request and no
    stop request, whatever [stop_with_action_] says; and the next goal will
    be spliced onto [last_sample_] alone, for the sampler is gone. *)
Theorem cancelled_goal env sleeps goal st st1 st' :
  executeCb_intake spliceTrajectories env goal st = Running st1 →
  executeCb sample spliceTrajectories shortest_angular_distance
            env sleeps goal st = Some st' →
  preempted_ st' = true →
  calls (server_ st') = calls (server_ st) ++ [trajectory_preempted] ∧
  outcomes (server_ st') = outcomes (server_ st) ++ [trajectory_preempted] ∧
  manager_calls st' = manager_calls st ++ [RequestStart (name_ st)] ∧
  ∀ env' goal' new_trajectory,
    build_executable spliceTrajectories env' goal' new_trajectory st'
    = spliceTrajectories [last_sample_ st'] new_trajectory 0%Q.
Proof.
  intros Hin. unfold executeCb. rewrite Hin.
  destruct (feedback_loop _ _ _ _) as [st2|] eqn:Hloop; [|done].
  intros [= <-] Hpre.
  destruct (intake_running_inv spliceTrajectories env goal st st1 Hin)
    as (_ & _ & _ & _ & new_trajectory & executable & _ & _ & Hst1).
  assert (Hpre2 : preempted_ st2 = true).
  { revert Hpre. unfold executeCb_finish. by destruct (_ && _). }
  destruct (feedback_loop_preempted sleeps st1 st2 Hloop) as (_ & Hc & Ho);
    [by rewrite Hst1|done|].
  destruct (feedback_loop_ends sleeps st1 st2 Hloop)
    as (_ & js & srv & fb & ls & Hst2).
  unfold executeCb_finish.
  change (preempted_ (upd_sampler_ _ st2)) with (preempted_ st2).
  rewrite Hpre2, andb_false_r.
  cbn [server_ upd_sampler_ manager_calls].
  rewrite Hc, Ho. split; [by rewrite Hst1|]. split; [by rewrite Hst1|].
  split; [rewrite Hst2, Hst1; reflexivity|].
  intros env' goal' new'. unfold build_executable.
  cbn [preempted_ upd_sampler_ sampler_ last_sample_]. by rewrite Hpre2.
Qed.

(** X20.  The requests [executeCb] sends to the manager for a goal it
    executes: the start request, and after the feedback loop a stop request
    exactly when [stop_with_action_] is set and the goal was not cancelled.
    Ticks, cancellation requests and preemptions in between send none. *)
Theorem executed_goal_requests env sleeps goal st st1 st' :
  executeCb_intake spliceTrajectories env goal st = Running st1 →
  executeCb sample spliceTrajectories shortest_angular_distance
            env sleeps goal st = Some st' →
  manager_calls st'
  = manager_calls st ++ RequestStart (name_ st)
      :: (if stop_with_action_ st && negb (preempted_ st')
          then [RequestStop (name_ st)] else []).
Proof.
  intros Hin. unfold executeCb. rewrite Hin.
  destruct (feedback_loop _ _ _ _) as [st2|] eqn:Hloop; [|done].
  intros [= <-].
  destruct (intake_running_inv spliceTrajectories env goal st st1 Hin)
    as (_ & _ & _ & _ & new_trajectory & executable & _ & _ & Hst1).
  destruct (feedback_loop_ends sleeps st1 st2 Hloop)
    as (_ & js & srv & fb & ls & Hst2).
  assert (Hstop : stop_with_action_ st2 = stop_with_action_ st)
    by (rewrite Hst2, Hst1; reflexivity).
  assert (Hname : name_ st2 = name_ st) by (rewrite Hst2, Hst1; reflexivity).
  assert (Hcalls : manager_calls st2
                   = manager_calls st ++ [RequestStart (name_ st)])
    by (rewrite Hst2, Hst1; reflexivity).
  unfold executeCb_finish.
  change (preempted_ (upd_sampler_ _ st2)) with (preempted_ st2).
  change (stop_with_action_ (upd_sampler_ _ st2)) with (stop_with_action_ st2).
  rewrite Hstop.
  destruct (stop_with_action_ st && negb (preempted_ st2)) eqn:Hcond.
  - cbn [requestStop upd_manager_calls preempted_ manager_calls upd_sampler_
         name_ stop_with_action_].
    rewrite Hcond, Hcalls, Hname, <- app_assoc. reflexivity.
  - cbn [preempted_ manager_calls upd_sampler_]. rewrite Hcond, Hcalls.
    reflexivity.
Qed.

End Completion.

(** ** Feedback *)

Section Publishing.

Variable sample : Trajectory → Q → TrajectoryPoint.
Variable spliceTrajectories : Trajectory → Trajectory → Q → option Trajectory.
Variable shortest_angular_distance : Q → Q → Q.






End Publishing.

(** ** A controller over its life *)

Lemma proceeds_same st st' :
  path_tolerance_ st' = path_tolerance_ st →
  calls (server_ st') = calls (server_ st) →
  proceeds st st'.
Proof. intros Hp Hc. split; [done|]. exists []. by rewrite Hc, app_nil_r. Qed.

Lemma proceeds_trans st1 st2 st3 :
  proceeds st1 st2 → proceeds st2 st3 → proceeds st1 st3.
Proof.
  intros (Hp & l & Hc & Hl) (Hp' & l' & Hc' & Hl').
  split; [by rewrite Hp', Hp|]. exists (l ++ l').
  split; [by rewrite Hc', Hc, app_assoc|]. by apply Forall_app.
Qed.

Lemma proceeds_call o st :
  o ∈ controller_calls → proceeds st (upd_server_ (set_terminal o) st).
Proof.
  intros Ho. split; [done|]. exists [o]. split; [done|]. by apply Forall_singleton.
Qed.

Lemma proceeds_zero st st' :
  proceeds st st' → path_tolerances_zero st → path_tolerances_zero st'.
Proof. intros [Hp _]. unfold path_tolerances_zero. by rewrite Hp. Qed.

Ltac a_call :=
  apply list_elem_of_In;
  cbn [In controller_calls intake_aborts];
  repeat first [left; reflexivity | right].

Section Runs.

Variable sample : Trajectory → Q → TrajectoryPoint.
Variable spliceTrajectories : Trajectory → Trajectory → Q → option Trajectory.
Variable shortest_angular_distance : Q → Q → Q.

(** With every path tolerance zero, the path check of a tick makes no
    call. *)
Lemma zero_path_calls st :
  path_tolerances_zero st → path_calls st = [].
Proof.
  intros (n & Hq & Hqd). unfold path_calls.
  destruct (has_path_tolerance_ st); [|done].
  apply flat_map_nil. intros j _. unfold joint_path_calls.
  by rewrite Hq, Hqd, !zero_tolerance_never_violated.
Qed.

Lemma update_proceeds now st :
  path_tolerances_zero st →
  proceeds st (update sample shortest_angular_distance now st).2.
Proof.
  intros Hzero.
  destruct (update_keeps sample shortest_angular_distance now st)
    as (_ & _ & _ & _ & _ & Hp & _).
  split; [exact Hp|]. clear Hp.
  assert (Hsame : ∃ l, calls (server_ st) = calls (server_ st) ++ l ∧
                       Forall (λ o, o ∈ controller_calls) l)
    by (exists []; by rewrite app_nil_r).
  destruct (initialized_ st) eqn:Hinit;
    [|unfold update; rewrite Hinit; exact Hsame].
  assert (Hhold :
    ∃ l, calls (server_ (if length (q (last_sample_ st)) =? joint_count st
                         then (true, hold_position st) else (false, st)).2)
         = calls (server_ st) ++ l ∧
         Forall (λ o, o ∈ controller_calls) l).
  { destruct (_ =? _); cbn [snd]; [|exact Hsame].
    rewrite hold_position_spec. exact Hsame. }
  destruct (isActive (server_ st)) eqn:Hact;
    [|unfold update; by rewrite Hinit, Hact].
  destruct (sampler_ st) as [sampler|] eqn:Hs;
    [|unfold update; by rewrite Hinit, Hact, Hs].
  destruct (decide (length (q (sample sampler now)) = joint_count st))
    as [Hlen|Hlen].
  - destruct (update_active_state sample shortest_angular_distance
                now sampler st Hinit Hact Hs Hlen) as (fb & Hm & ->).
    cbn [snd server_ upd_joints_ upd_server_ upd_feedback_ upd_last_sample_].
    set (m := monitored sample shortest_angular_distance now sampler st) in *.
    destruct (follows_make_calls (path_calls m ++ goal_calls now sampler m)
                (server_ st)) as (Hc & _).
    rewrite Hc. eexists. split; [reflexivity|].
    rewrite zero_path_calls.
    2:{ rewrite Hm. exact Hzero. }
    cbn [app]. unfold goal_calls.
    destruct (Qgeb _ _); [|done].
    destruct (inside_tolerances m);
      [apply Forall_singleton; a_call|].
    destruct (Qgtb _ _); [apply Forall_singleton; a_call|done].
  - unfold update. rewrite Hinit, Hact, Hs. cbn [negb].
    change (joint_count (upd_last_sample_ _ st)) with (joint_count st).
    rewrite (proj2 (Nat.eqb_neq _ _) Hlen). exact Hsame.
Qed.

Lemma happen_proceeds st e :
  path_tolerances_zero st →
  proceeds st (happen sample shortest_angular_distance st e).
Proof.
  intros Hzero. destruct e as [now rs| |force]; cbn [happen].
  - apply (proceeds_trans _ (set_readings rs st)); [by apply proceeds_same|].
    by apply update_proceeds.
  - by apply proceeds_same.
  - unfold preempt. destruct (initialized_ st); cbn [negb snd];
      [|by apply proceeds_same].
    destruct (isActive (server_ st)); [|by apply proceeds_same].
    destruct force; cbn [snd]; [|by apply proceeds_same].
    apply proceeds_call. a_call.
Qed.

Lemma events_proceed events st :
  path_tolerances_zero st →
  proceeds st (foldl (happen sample shortest_angular_distance) st events).
Proof.
  revert st. induction events as [|e events IH]; intros st Hzero;
    [by apply proceeds_same|].
  cbn [foldl].
  pose proof (happen_proceeds st e Hzero) as He.
  eapply proceeds_trans; [exact He|].
  apply IH. by apply (proceeds_zero st).
Qed.

Lemma feedback_loop_proceeds sleeps st st' :
  path_tolerances_zero st →
  feedback_loop sample shortest_angular_distance sleeps st = Some st' →
  proceeds st st'.
Proof.
  revert st. induction sleeps as [|[stamp events] sleeps IH]; intros st Hzero;
    cbn [feedback_loop];
    (destruct (isActive (server_ st)); cbn [negb];
     [|intros [= <-]; by apply proceeds_same]);
    (destruct (isPreemptRequested (server_ st));
     [intros [= <-];
      apply (proceeds_trans _ (upd_server_ (set_terminal trajectory_preempted) st));
      [apply proceeds_call; a_call|by apply proceeds_same]|]);
    [done|].
  intros Hloop.
  set (st1 := upd_server_ _ _) in Hloop.
  assert (H1 : proceeds st st1) by (by apply proceeds_same).
  pose proof (events_proceed events st1 (proceeds_zero _ _ H1 Hzero)) as H2.
  pose proof (proceeds_trans _ _ _ H1 H2) as H12.
  eapply proceeds_trans; [exact H12|].
  apply IH; [|exact Hloop]. by apply (proceeds_zero st).
Qed.

Lemma executeCb_proceeds env sleeps goal st st' :
  path_tolerances_zero st →
  executeCb sample spliceTrajectories shortest_angular_distance
            env sleeps goal st = Some st' →
  proceeds st st'.
Proof.
  intros Hzero. unfold executeCb.
  assert (Hin : proceeds st
                  (flow_state (executeCb_intake spliceTrajectories env goal st))).
  { destruct (intake_frame spliceTrajectories env goal st) as (Hp & _).
    split; [exact Hp|].
    destruct (intake_makes_calls spliceTrajectories env goal st)
      as (l & Hc & Hl & _).
    exists l. split; [exact Hc|].
    destruct Hl as [->|(o & -> & Ho)]; [done|].
    apply Forall_singleton. apply list_elem_of_In.
    apply list_elem_of_In in Ho. cbn [In controller_calls]. tauto. }
  destruct (executeCb_intake spliceTrajectories env goal st) as [st1|st1];
    cbn [flow_state] in Hin.
  - by intros [= <-].
  - destruct (feedback_loop _ _ _ _) as [st2|] eqn:Hloop; [|done].
    intros [= <-].
    apply feedback_loop_proceeds in Hloop; [|by apply (proceeds_zero st)].
    eapply proceeds_trans; [exact Hin|].
    eapply proceeds_trans; [exact Hloop|].
    apply proceeds_same; unfold executeCb_finish; by destruct (_ && _).
Qed.

Lemma run_proceeds steps st st' :
  path_tolerances_zero st →
  run sample spliceTrajectories shortest_angular_distance steps st = Some st' →
  proceeds st st'.
Proof.
  revert st. induction steps as [|s steps IH]; intros st Hzero; cbn [run].
  - intros [= <-]. by apply proceeds_same.
  - destruct (step _ _ _ st s) as [st1|] eqn:Hstep; [|done].
    intros Hrun.
    assert (H1 : proceeds st st1).
    { destruct s as [env sleeps goal|e]; cbn [step] in Hstep.
      - apply (proceeds_trans _ (upd_server_ accept_goal st));
          [by apply proceeds_same|].
        by apply (executeCb_proceeds env sleeps goal).
      - injection Hstep as <-. by apply happen_proceeds. }
    eapply proceeds_trans; [exact H1|].
    apply IH; [|exact Hrun]. by apply (proceeds_zero st).
Qed.

(** What the server reports was called. *)
Lemma reported_called st st' :
  advances st st' →
  (∀ o, o ∈ outcomes (server_ st) → o ∈ calls (server_ st)) →
  ∀ o, o ∈ outcomes (server_ st') → o ∈ calls (server_ st').
Proof.
  intros (l & Hc & Ho & _) Hsub o. rewrite Hc, Ho.
  rewrite !elem_of_app. intros [H|H]; [left; by apply Hsub|right].
  destruct (active (server_ st)); [|by apply elem_of_nil in H].
  apply elem_of_take in H as (i & H & _). by apply list_elem_of_lookup_2 in H.
Qed.

(** [init] starts a new server. *)
Lemma init_new_server nh manager st0 st :
  init nh manager st0 = (true, st) → server_ st = new_server.
Proof.
  unfold init. destruct manager as [m|]; [|done].
  destruct (param_joints nh) as [[elems|]|]; try done.
  destruct (read_joint_names _ _) as [[] names]; cbn [negb]; [|done].
  by intros [= <-].
Qed.

Lemma run_reported steps st st' :
  run sample spliceTrajectories shortest_angular_distance steps st = Some st' →
  (∀ o, o ∈ outcomes (server_ st) → o ∈ calls (server_ st)) →
  ∀ o, o ∈ outcomes (server_ st') → o ∈ calls (server_ st').
Proof.
  revert st. induction steps as [|s steps IH]; intros st; cbn [run].
  - by intros [= <-].
  - destruct (step _ _ _ st s) as [st1|] eqn:Hstep; [|done].
    intros Hrun Hsub. apply (IH st1 Hrun).
    destruct s as [env sleeps goal|e]; cbn [step] in Hstep.
    + apply executeCb_advances in Hstep.
      by apply (reported_called (upd_server_ accept_goal st)).
    + injection Hstep as <-.
      apply (reported_called st); [apply happen_advances|done].
Qed.

(** X22.  A controller that [init] set up from a fresh object never
    reports a violation of the path tolerances.  Whatever goals it executes
    and whatever ticks, cancellation requests and preemptions happen,
    during the goals and between them, every terminal call and every
    outcome reported is one of: success, the goal-time abort, the abort of
    a forced preemption, the preemption of a cancelled goal, and the seven
    aborts of the goal intake.  The two [PATH_TOLERANCE_VIOLATED] aborts
    are not among them: the path tolerances are zero after [init] and no
    goal changes them. *)
Theorem path_violation_never_reported nh manager initialized flag st steps st' :
  init nh manager (constructed initialized flag) = (true, st) →
  run sample spliceTrajectories shortest_angular_distance steps st = Some st' →
  path_tolerances_zero st' ∧
  (∀ o, o ∈ calls (server_ st') → o ∈ controller_calls) ∧
  (∀ o, o ∈ outcomes (server_ st') → o ∈ controller_calls) ∧
  (path_position_abort ∉ calls (server_ st')) ∧
  (path_velocity_abort ∉ calls (server_ st')).
Proof.
  intros Hinit Hrun.
  assert (Hzero : path_tolerances_zero st).
  { destruct (init_fresh_tolerances _ _ _ _ _ Hinit) as [Hq Hqd].
    by exists (joint_count st). }
  pose proof (init_new_server _ _ _ _ Hinit) as Hnew.
  destruct (run_proceeds steps _ st' Hzero Hrun) as (Hp & l & Hc & Hl).
  assert (Hzero' : path_tolerances_zero st').
  { destruct Hzero as (n & Hq & Hqd). exists n. by rewrite Hp. }
  assert (Hcalls : ∀ o, o ∈ calls (server_ st') → o ∈ controller_calls).
  { intros o. rewrite Hc, Hnew. cbn [calls new_server app].
    rewrite Forall_forall in Hl. apply Hl. }
  assert (Hnot : ∀ text,
            Aborted (mkResult (Some PATH_TOLERANCE_VIOLATED)) text
            ∉ controller_calls).
  { intros text H. apply list_elem_of_In in H.
    cbn [In controller_calls intake_aborts] in H.
    repeat (destruct H as [H|H]; [discriminate H|]). exact H. }
  split; [exact Hzero'|].
  split; [exact Hcalls|].
  split.
  - intros o Ho. apply Hcalls. revert o Ho.
    apply (run_reported steps _ st' Hrun). intros o Ho.
    rewrite Hnew in Ho. by apply elem_of_nil in Ho.
  - split; intros H; apply Hcalls in H; by apply Hnot in H.
Qed.

End Runs.

(** ** The further properties at concrete controllers *)

Lemma feedback_sized_tracking : feedback_sized tracking.
Proof. vm_compute. repeat constructor. Qed.

Lemma init_success_witness :
  getJointNames (init (demo_node ["j1"; "j2"]) (Some demo_manager)
                      (constructed false false)).2
  = ["j1"; "j2"].
Proof.
  destruct (init_success (demo_node ["j1"; "j2"]) demo_manager ["j1"; "j2"]
              (constructed false false) eq_refl) as (_ & Hnames & _).
  exact Hnames.
Defined.

Lemma init_failure_witness :
  (init (demo_node ["j1"]) None (constructed true false)).2
  = upd_initialized_ (λ _, false) (constructed true false).
Proof.
  exact (proj1 (init_failure (demo_node ["j1"]) None (constructed true false)
                  eq_refl) eq_refl).
Defined.

Lemma start_needs_active_goal_witness :
  start (init (demo_node ["j1"]) (Some demo_manager) (constructed false false)).2
  = false ∧
  start one_joint = true.
Proof.
  exact (start_needs_active_goal (demo_node ["j1"]) (Some demo_manager)
           (constructed false false) eq_refl).
Defined.

Lemma update_missized_samples_witness :
  server_ (foldl (λ s t, (update empty_sample plain_distance t.1
                            (set_readings t.2 s)).2) tracking [(11%Q, [])])
  = server_ tracking.
Proof.
  assert (Hinit : initialized_ tracking = true) by evaluate.
  assert (Hact : isActive (server_ tracking) = true) by evaluate.
  assert (Hs : sampler_ tracking = Some tracking_sampler) by evaluate.
  assert (Hbad : ∀ now, length (q (empty_sample tracking_sampler now))
                        ≠ joint_count tracking)
    by (intros now; vm_compute; lia).
  exact (proj1 (update_missized_samples empty_sample plain_distance
                  tracking_sampler tracking [(11%Q, [])] Hinit Hact Hs Hbad)).
Defined.

Lemma update_commands_witness :
  joints_ (update last_waypoint plain_distance 11 tracking).2
  = imap (λ j, setPositionCommand
                 (q (last_waypoint tracking_sampler 11) !!! j)
                 (if length (qd (last_waypoint tracking_sampler 11))
                     =? joint_count tracking
                  then qd (last_waypoint tracking_sampler 11) !!! j
                  else velocities (desired (feedback_ tracking)) !!! j)
                 0)
         (joints_ tracking).
Proof.
  assert (Hinit : initialized_ tracking = true) by evaluate.
  assert (Hact : isActive (server_ tracking) = true) by evaluate.
  assert (Hs : sampler_ tracking = Some tracking_sampler) by evaluate.
  assert (Hlen : length (q (last_waypoint tracking_sampler 11))
                 = joint_count tracking) by evaluate.
  exact (update_commands last_waypoint plain_distance 11 tracking_sampler
           tracking Hinit Hact Hs Hlen feedback_sized_tracking).
Defined.

Lemma update_feedback_witness :
  last_sample_ (update last_waypoint plain_distance 11 tracking).2
  = last_waypoint tracking_sampler 11.
Proof.
  assert (Hinit : initialized_ tracking = true) by evaluate.
  assert (Hact : isActive (server_ tracking) = true) by evaluate.
  assert (Hs : sampler_ tracking = Some tracking_sampler) by evaluate.
  assert (Hlen : length (q (last_waypoint tracking_sampler 11))
                 = joint_count tracking) by evaluate.
  assert (Hj : 0 < joint_count tracking) by (vm_compute; lia).
  exact (proj1 (update_feedback last_waypoint plain_distance 11
                  tracking_sampler tracking 0 Hinit Hact Hs Hlen
                  feedback_sized_tracking Hj)).
Defined.

Lemma hold_after_outcome_witness :
  update last_waypoint plain_distance 12
         (update last_waypoint plain_distance 11 arrived).2
  = (true, upd_joints_
             (imap (λ j, setPositionCommand
                           (q (last_waypoint tracking_sampler 11) !!! j) 0 0))
             (update last_waypoint plain_distance 11 arrived).2).
Proof.
  assert (Hinit : initialized_ arrived = true) by evaluate.
  assert (Hact : isActive (server_ arrived) = true) by evaluate.
  assert (Hs : sampler_ arrived = Some tracking_sampler) by evaluate.
  assert (Hlen : length (q (last_waypoint tracking_sampler 11))
                 = joint_count arrived) by evaluate.
  assert (Hdone : isActive (server_ (update last_waypoint plain_distance 11
                                       arrived).2) = false) by evaluate.
  exact (hold_after_outcome last_waypoint plain_distance 11 tracking_sampler
           arrived 12 Hinit Hact Hs Hlen Hdone).
Defined.

Lemma tracking_taken_in :
  executeCb_intake no_splice demo_env (mkGoal two_joint_trajectory [] [] 0%Q)
                   two_joints
  = Running tracking.
Proof. evaluate. Qed.

Lemma goal_taken_in_witness :
  has_path_tolerance_ tracking = false ∧
  preempted_ tracking = false ∧
  manager_calls tracking = [RequestStart "arm_controller"].
Proof.
  destruct (goal_taken_in no_splice demo_env
              (mkGoal two_joint_trajectory [] [] 0%Q) two_joints tracking
              tracking_taken_in)
    as (_ & Hhas & _ & Hpre & Hcalls & _).
  split; [rewrite Hhas; evaluate|]. split; [exact Hpre|].
  rewrite Hcalls. evaluate.
Defined.

Lemma multi_point_goal_witness :
  ∃ current,
    sampler_ (flow_state (executeCb_intake no_splice demo_env two_point_goal
                                           one_joint))
    = Some [current; mkPoint [1%Q] [] [] (10 + 1)%Q;
            mkPoint [2%Q] [] [] (10 + 2)%Q] ∧
    q current = getPosition <$> joints_ one_joint ∧
    time current = 10%Q.
Proof.
  assert (Hinit : initialized_ one_joint = true) by evaluate.
  assert (Hpre : preempted_ one_joint = false) by evaluate.
  assert (Hmany : 1 < length (points (trajectory two_point_goal)))
    by (vm_compute; lia).
  assert (Hcount : length (joint_names (trajectory two_point_goal))
                   = joint_count one_joint) by evaluate.
  assert (Hconv : trajectoryFromMsg (now_convert demo_env)
                    (trajectory two_point_goal) (joint_names_ one_joint)
                  = Some [mkPoint [1%Q] [] [] (10 + 1)%Q;
                          mkPoint [2%Q] [] [] (10 + 2)%Q]) by evaluate.
  assert (Hahead : (0 < time_from_start (points (trajectory two_point_goal) !!! 0%nat))%Q)
    by evaluate.
  destruct (proj2 (multi_point_goal no_splice demo_env two_point_goal one_joint
                     _ Hinit Hpre Hmany Hcount Hconv) Hahead)
    as (current & Hs & Hq & _ & _ & Ht).
  exists current. split; [exact Hs|]. split; [exact Hq|exact Ht].
Defined.

Lemma preempted_goal_splices_witness :
  sampler_ (flow_state (executeCb_intake append_splice demo_env two_point_goal
                          (upd_preempted_ (λ _, true) one_joint)))
  = Some [last_sample_ one_joint; mkPoint [1%Q] [] [] (10 + 1)%Q;
          mkPoint [2%Q] [] [] (10 + 2)%Q].
Proof.
  assert (Hinit : initialized_ (upd_preempted_ (λ _, true) one_joint) = true)
    by evaluate.
  assert (Hpoints : points (trajectory two_point_goal) ≠ []) by discriminate.
  assert (Hcount : length (joint_names (trajectory two_point_goal))
                   = joint_count (upd_preempted_ (λ _, true) one_joint))
    by evaluate.
  assert (Hconv : trajectoryFromMsg (now_convert demo_env)
                    (trajectory two_point_goal)
                    (joint_names_ (upd_preempted_ (λ _, true) one_joint))
                  = Some [mkPoint [1%Q] [] [] (10 + 1)%Q;
                          mkPoint [2%Q] [] [] (10 + 2)%Q]) by evaluate.
  assert (Hpre : preempted_ (upd_preempted_ (λ _, true) one_joint) = true)
    by evaluate.
  pose proof (preempted_goal_splices append_splice demo_env two_point_goal
                (upd_preempted_ (λ _, true) one_joint) _
                Hinit Hpre Hpoints Hcount Hconv) as Hsplice.
  vm_compute in Hsplice. vm_compute. exact Hsplice.
Defined.

Lemma goal_tolerances_taken_in_witness :
  q (goal_tolerance_ tracking) = replicate (joint_count two_joints) (2 # 100)%Q.
Proof.
  assert (Hq : length (q (goal_tolerance_ two_joints)) = joint_count two_joints)
    by evaluate.
  assert (Hqd : length (qd (goal_tolerance_ two_joints)) = joint_count two_joints)
    by evaluate.
  assert (Hqdd : length (qdd (goal_tolerance_ two_joints)) = joint_count two_joints)
    by evaluate.
  assert (Hother : length (goal_tolerance (mkGoal two_joint_trajectory [] [] 0%Q))
                   ≠ joint_count two_joints) by (vm_compute; lia).
  exact (proj1 (proj2 (goal_tolerances_taken_in no_splice demo_env
                         (mkGoal two_joint_trajectory [] [] 0%Q) two_joints
                         tracking tracking_taken_in Hq Hqd Hqdd) Hother)).
Defined.

Lemma overrun_returns :
  executeCb last_waypoint no_splice plain_distance demo_env
            [(10%Q, [Tick 12 []])] (mkGoal two_joint_trajectory [] [] 0%Q)
            two_joints
  = Some overrun.
Proof. evaluate. Qed.

Lemma cancelled_returns :
  executeCb last_waypoint no_splice plain_distance demo_env
            [(10%Q, [Cancel])] (mkGoal two_joint_trajectory [] [] 0%Q)
            two_joints
  = Some cancelled.
Proof. evaluate. Qed.

Lemma executeCb_settles_witness :
  isActive (server_ overrun) = false ∧ sampler_ overrun = None.
Proof.
  destruct (executeCb_settles last_waypoint no_splice plain_distance demo_env
              [(10%Q, [Tick 12 []])] (mkGoal two_joint_trajectory [] [] 0%Q)
              two_joints overrun overrun_returns) as [Hoff Hgone].
  split; [apply Hoff; discriminate|].
  exact (Hgone tracking tracking_taken_in).
Defined.

Lemma cancelled_goal_witness :
  outcomes (server_ cancelled) = [trajectory_preempted] ∧
  manager_calls cancelled = [RequestStart "arm_controller"].
Proof.
  assert (Hpre : preempted_ cancelled = true) by evaluate.
  destruct (cancelled_goal last_waypoint no_splice plain_distance demo_env
              [(10%Q, [Cancel])] (mkGoal two_joint_trajectory [] [] 0%Q)
              two_joints tracking cancelled tracking_taken_in cancelled_returns
              Hpre) as (_ & Ho & Hm & _).
  split; [rewrite Ho; evaluate|rewrite Hm; evaluate].
Defined.

Lemma executed_goal_requests_witness :
  manager_calls overrun = [RequestStart "arm_controller"].
Proof.
  rewrite (executed_goal_requests last_waypoint no_splice plain_distance
             demo_env [(10%Q, [Tick 12 []])]
             (mkGoal two_joint_trajectory [] [] 0%Q)
             two_joints tracking overrun tracking_taken_in overrun_returns).
  evaluate.
Defined.


Lemma fresh_one_joint_initialised :
  init (demo_node ["j1"]) (Some demo_manager) (constructed false false)
  = (true, fresh_one_joint).
Proof. evaluate. Qed.

Lemma guarded_run_returns :
  run last_waypoint no_splice plain_distance
      [Execute demo_env [(10%Q, [Tick (105 # 10) [(5, 5, 0)]%Q;
                                 Tick 12 [(5, 5, 0)]%Q])]
               (mkGoal one_joint_trajectory (take 1 demo_tolerances) [] 0%Q);
       Between (Tick 13 [])]
      fresh_one_joint
  = Some guarded_run.
Proof. evaluate. Qed.

Lemma path_violation_never_reported_witness :
  calls (server_ guarded_run) = [goal_timeout_abort] ∧
  (path_position_abort ∉ calls (server_ guarded_run)) ∧
  (path_velocity_abort ∉ calls (server_ guarded_run)).
Proof.
  split; [evaluate|].
  exact (proj2 (proj2 (proj2 (path_violation_never_reported last_waypoint
           no_splice plain_distance _ _ _ _ fresh_one_joint _ guarded_run
           fresh_one_joint_initialised guarded_run_returns)))).
Defined.
